(** * FordPass client and battery monitor: a shallow embedding

    The development follows [fordpass_api.py] (class [FordPassAPI]) and
    [battery_monitor.py] (class [BatteryMonitor]).

    Modelling conventions.
    - A Python value that comes out of [response.json()] or is built by a
      projection accessor is a [pyval]: JSON scalars, lists and dicts.  A
      dict is an association list in insertion order with unique keys.
    - A Python [float] is modelled by a rational number.  The products
      [v * 0.621371] round to binary64 as the interpreter does, operands and
      result ([b64]); a product that is [inf] is the [OverflowError] that the
      enclosing [round] raises.  The sums of the token expiry and the
      Fahrenheit conversion are kept exact, and [nan] is outside the model.
    - A Python call that may raise returns a [res]; code that also mutates
      object fields runs in the monad [M], whose state survives a raise
      exactly as the fields of a Python object do.
    - The outside world (wall clock, HTTP peers, notification back end,
      disk faults) is an [Env] of oracles indexed by how many interactions
      of that kind have happened so far.
    - An exception is an instance of Python's [Exception], the class every
      [except] clause of the two files names; [KeyboardInterrupt], which only
      ends [run], is outside the model.
    - The monitor's [last_range] and [last_charge] hold [None] or an [int],
      the only values [check_battery] stores and [save_state] writes.
    - Console output ([print]) is not modelled. *)

From Stdlib Require Import ZArith QArith Qabs Qpower Lqa.
From Stdlib Require Import String Ascii List Bool Lia.
From Stdlib Require Import DecimalString.
From Stdlib Require DecimalFacts DecimalPos DecimalZ.
Import ListNotations.

Local Open Scope string_scope.
Local Open Scope Z_scope.

Set Warnings "-register-all".

(** ** Python values *)

Inductive pyval : Type :=
| JNull
| JBool (b : bool)
| JInt (z : Z)
| JFloat (q : Q)
| JStr (s : string)
| JArr (l : list pyval)
| JObj (kv : list (pyval * pyval)).

(** An exception object; [exn_msg] is [str(e)]. *)
Record exn : Type := Exn { exn_class : string; exn_msg : string }.

Inductive res (A : Type) : Type :=
| Ok (a : A)
| Raise (e : exn).
Arguments Ok {A} a.
Arguments Raise {A} e.

Definition res_bind {A B} (r : res A) (k : A -> res B) : res B :=
  match r with
  | Ok a => k a
  | Raise e => Raise e
  end.

Definition str_of_Z (z : Z) : string := NilZero.string_of_int (Z.to_int z).

(** [type(v).__name__] *)
Definition type_name (v : pyval) : string :=
  match v with
  | JNull => "NoneType"
  | JBool _ => "bool"
  | JInt _ => "int"
  | JFloat _ => "float"
  | JStr _ => "str"
  | JArr _ => "list"
  | JObj _ => "dict"
  end.

(** Truth value testing, as used by [if v], [a or b] and [x if v else y]. *)
Definition truthy (v : pyval) : bool :=
  match v with
  | JNull => false
  | JBool b => b
  | JInt z => negb (z =? 0)
  | JFloat q => negb (Qeq_bool q 0)
  | JStr s => negb (String.eqb s EmptyString)
  | JArr l => match l with [] => false | _ => true end
  | JObj kv => match kv with [] => false | _ => true end
  end.

(** [a or b] on already evaluated operands (both operands are pure here). *)
Definition py_or (a b : pyval) : pyval := if truthy a then a else b.

Definition is_none (v : pyval) : bool :=
  match v with JNull => true | _ => false end.

(** The number a value stands for in arithmetic ([bool] is an [int]). *)
Definition num_of (v : pyval) : option Q :=
  match v with
  | JBool b => Some (inject_Z (if b then 1 else 0))
  | JInt z => Some (inject_Z z)
  | JFloat q => Some q
  | _ => None
  end.

(** Key equality of dict lookups: hashable scalars, numbers compared by
    value ([1 == 1.0 == True]). *)
Definition key_eqb (a b : pyval) : bool :=
  match a, b with
  | JNull, JNull => true
  | JStr s, JStr t => String.eqb s t
  | _, _ =>
      match num_of a, num_of b with
      | Some x, Some y => Qeq_bool x y
      | _, _ => false
      end
  end.

Definition hashable (v : pyval) : bool :=
  match v with
  | JArr _ | JObj _ => false
  | _ => true
  end.

Fixpoint assoc (k : pyval) (kv : list (pyval * pyval)) : option pyval :=
  match kv with
  | [] => None
  | (k', v) :: rest => if key_eqb k k' then Some v else assoc k rest
  end.

Fixpoint assoc_set (k v : pyval) (kv : list (pyval * pyval))
  : list (pyval * pyval) :=
  match kv with
  | [] => [(k, v)]
  | (k', v') :: rest =>
      if key_eqb k k' then (k', v) :: rest else (k', v') :: assoc_set k v rest
  end.

Definition attribute_error (v : pyval) (attr : string) : exn :=
  Exn "AttributeError"
      ("'" ++ type_name v ++ "' object has no attribute '" ++ attr ++ "'").

Definition type_error (msg : string) : exn := Exn "TypeError" msg.

(** [d.get(k, default)]: only a dict has the method. *)
Definition py_get (d : pyval) (k : string) (default : pyval) : res pyval :=
  match d with
  | JObj kv =>
      match assoc (JStr k) kv with
      | Some v => Ok v
      | None => Ok default
      end
  | _ => Raise (attribute_error d "get")
  end.

(** [d.get(k)] *)
Definition py_get1 (d : pyval) (k : string) : res pyval := py_get d k JNull.

(** The recurring accessor [metrics.get(name, {}).get("value")]. *)
Definition metric_value (metrics : pyval) (name : string) : res pyval :=
  res_bind (py_get metrics name (JObj [])) (fun m => py_get1 m "value").

(** [d[k] = v] on a dict under construction. *)
Definition py_setitem (kv : list (pyval * pyval)) (k v : pyval)
  : res (list (pyval * pyval)) :=
  if hashable k then Ok (assoc_set k v kv)
  else Raise (type_error ("unhashable type: '" ++ type_name k ++ "'")).

(** [v[k]] for a string key, as in [vehicle_info['odometer_km']]. *)
Definition py_getitem (v : pyval) (k : string) : res pyval :=
  match v with
  | JObj kv =>
      match assoc (JStr k) kv with
      | Some x => Ok x
      | None => Raise (Exn "KeyError" ("'" ++ k ++ "'"))
      end
  | JStr _ => Raise (type_error "string indices must be integers, not 'str'")
  | JArr _ => Raise (type_error "list indices must be integers or slices, not str")
  | _ => Raise (type_error ("'" ++ type_name v ++ "' object is not subscriptable"))
  end.

(** [v[0]] *)
Definition py_index0 (v : pyval) : res pyval :=
  match v with
  | JArr (x :: _) => Ok x
  | JArr [] => Raise (Exn "IndexError" "list index out of range")
  | JStr (String c _) => Ok (JStr (String c EmptyString))
  | JStr EmptyString => Raise (Exn "IndexError" "string index out of range")
  | JObj kv =>
      match assoc (JInt 0) kv with
      | Some x => Ok x
      | None => Raise (Exn "KeyError" "0")
      end
  | _ => Raise (type_error ("'" ++ type_name v ++ "' object is not subscriptable"))
  end.

Fixpoint chars_of (s : string) : list pyval :=
  match s with
  | EmptyString => []
  | String c rest => JStr (String c EmptyString) :: chars_of rest
  end.

(** The sequence a [for x in v] loop walks through. *)
Definition py_iter (v : pyval) : res (list pyval) :=
  match v with
  | JArr l => Ok l
  | JObj kv => Ok (map fst kv)
  | JStr s => Ok (chars_of s)
  | _ => Raise (type_error ("'" ++ type_name v ++ "' object is not iterable"))
  end.

(** [d.items()] and [d.values()] *)
Definition py_items (d : pyval) : res (list (pyval * pyval)) :=
  match d with
  | JObj kv => Ok kv
  | _ => Raise (attribute_error d "items")
  end.

Definition py_values (d : pyval) : res (list pyval) :=
  match d with
  | JObj kv => Ok (map snd kv)
  | _ => Raise (attribute_error d "values")
  end.

(** ** Numbers *)

(** [round(x)] of a float: nearest integer, ties to the even one. *)
Definition round_half_even (q : Q) : Z :=
  let n := Qnum q in
  let d := Zpos (Qden q) in
  let f := n / d in
  let r := n mod d in
  match 2 * r ?= d with
  | Lt => f
  | Gt => f + 1
  | Eq => if Z.even f then f else f + 1
  end.

(** [round(v)] with one argument. *)
Definition py_round (v : pyval) : res Z :=
  match v with
  | JBool b => Ok (if b then 1 else 0)
  | JInt z => Ok z
  | JFloat q => Ok (round_half_even q)
  | _ => Raise (type_error ("type " ++ type_name v ++ " doesn't define __round__ method"))
  end.

(** *** Binary64

    A Python [float] is an IEEE 754 binary64 number: [m * 2^e] with
    [|m| <= 2^53] and [-1074 <= e], below [2^1024] in magnitude.  Turning a
    decimal literal, a JSON number or an [int] into a float, and every float
    multiplication, rounds the exact number to the nearest such value, ties
    to the even [m]. *)

Definition pow2 (e : Z) : Q := (2 ^ e)%Q.

(** The exponent of the binary64 grid around [q]: [floor(log2 |q|) - 52],
    and [-1074] for the subnormal numbers. *)
Definition grid_exponent (q : Q) : Z :=
  Z.max (Z.log2 (Z.abs (Qnum q) * 2 ^ 1127 / Zpos (Qden q)) - 1179) (-1074).

(** The grid point nearest to [q]. *)
Definition b64_nearest (q : Q) : Q :=
  let e := grid_exponent q in
  Qred (inject_Z (round_half_even (q * pow2 (- e))) * pow2 e).

(** The float for the number [q]; [None] where the nearest grid point is
    out of range (the float is then [inf], or the conversion of an [int]
    raises). *)
Definition b64 (q : Q) : option Q :=
  let x := b64_nearest q in
  if Qle_bool (pow2 1024) (Qabs x) then None else Some x.

Definition overflow_error (msg : string) : exn := Exn "OverflowError" msg.

(** [v * c] for a float constant [c], as the operand of [round]: every
    product of the two files is written [round(v * 0.621371)].  An [int]
    operand is converted to a float first, which raises when it is too
    large; a float operand that is [inf], or a product that is, makes
    [round] raise. *)
Definition py_mul_float (v : pyval) (c : Q) : res Q :=
  match num_of v with
  | Some q =>
      match b64 q with
      | Some x =>
          match b64 (x * c) with
          | Some p => Ok p
          | None =>
              Raise (overflow_error "cannot convert float infinity to integer")
          end
      | None =>
          match v with
          | JFloat _ =>
              Raise (overflow_error "cannot convert float infinity to integer")
          | _ => Raise (overflow_error "int too large to convert to float")
          end
      end
  | None =>
      match v with
      | JStr _ | JArr _ =>
          Raise (type_error "can't multiply sequence by non-int of type 'float'")
      | _ =>
          Raise (type_error ("unsupported operand type(s) for *: '"
                               ++ type_name v ++ "' and 'float'"))
      end
  end.

(** The kilometre to mile factor: the float the literal [0.621371] denotes,
    [5596812408117665 * 2^-53]. *)
Definition KM_TO_MILES : Q := 5596812408117665 # 9007199254740992.

Definition Qlt_bool (a b : Q) : bool := negb (Qle_bool b a).

(** [t + v] where [t] is a float. *)
Definition py_float_add (t : Q) (v : pyval) : res Q :=
  match num_of v with
  | Some x => Ok (t + x)%Q
  | None =>
      Raise (type_error ("unsupported operand type(s) for +: 'float' and '"
                           ++ type_name v ++ "'"))
  end.

(** [v == n] for an integer literal [n]. *)
Definition py_eq_int (v : pyval) (n : Z) : bool :=
  match num_of v with
  | Some x => Qeq_bool x (inject_Z n)
  | None => false
  end.

(** [v == s] for a string literal [s]. *)
Definition py_eq_str (v : pyval) (s : string) : bool :=
  match v with
  | JStr t => String.eqb t s
  | _ => false
  end.

(** ** The outside world *)

Record response : Type := Response {
  status_code : Z;
  text : string;
  json_body : option pyval   (* [None]: the body does not parse as JSON *)
}.

Inductive http_outcome : Type :=
| Responded (r : response)
| TransportFailure (msg : string).

(** The three requests the client issues, with the parts that vary. *)
Inductive request : Type :=
| PostFordAuth (user pass : string)
| PostTokenExchange (subject_token : pyval)
| GetStatus (vehicle : string) (bearer : pyval).

Record Env : Type := {
  username : string;
  password : string;
  vin : string;
  clock : nat -> Q;                       (* n-th reading of [time.time()] *)
  http : nat -> request -> http_outcome;  (* outcome of the n-th request *)
  status_dump : nat -> option exn;        (* fault writing fordpass_status.json *)
  float_repr : Q -> string;               (* [repr] of a float *)
  container_repr : pyval -> string;       (* [repr] of a list or dict *)
  notify_backend : nat -> string -> string -> res pyval;
  strftime : nat -> string;               (* time stamp of the n-th save *)
  disk_fault : nat -> option nat
    (* fault of the n-th save: [Some 0] when [open] raises, [Some (S j)] when
       a later file operation does and [j] characters reached the path *)
}.

(** ** Object and world state *)

Record St : Type := mkSt {
  ford_token : pyval;
  autonomic_token : pyval;
  token_expiration : Q;
  last_range : option Z;
  last_charge : option Z;
  reads : nat;                      (* [time.time()] readings taken *)
  sent : list request;              (* requests issued, oldest first *)
  shown : list (string * string);   (* notifications asked for, oldest first *)
  saves : nat;                      (* [save_state] calls so far *)
  config_file : option string;      (* content of the state file, if it exists *)
  slept : list Z                    (* [time.sleep] calls, oldest first *)
}.

(** [FordPassAPI.__init__] and [BatteryMonitor.__init__] before [load_state],
    with no state file on disk. *)
Definition init_state : St :=
  mkSt JNull JNull 0 None None 0%nat [] [] 0%nat None [].

Definition set_ford_token (v : pyval) (s : St) : St :=
  mkSt v (autonomic_token s) (token_expiration s) (last_range s) (last_charge s)
       (reads s) (sent s) (shown s) (saves s) (config_file s) (slept s).

Definition set_autonomic_token (v : pyval) (s : St) : St :=
  mkSt (ford_token s) v (token_expiration s) (last_range s) (last_charge s)
       (reads s) (sent s) (shown s) (saves s) (config_file s) (slept s).

Definition set_token_expiration (q : Q) (s : St) : St :=
  mkSt (ford_token s) (autonomic_token s) q (last_range s) (last_charge s)
       (reads s) (sent s) (shown s) (saves s) (config_file s) (slept s).

Definition set_last (r c : option Z) (s : St) : St :=
  mkSt (ford_token s) (autonomic_token s) (token_expiration s) r c
       (reads s) (sent s) (shown s) (saves s) (config_file s) (slept s).

Definition tick_clock (s : St) : St :=
  mkSt (ford_token s) (autonomic_token s) (token_expiration s) (last_range s)
       (last_charge s) (S (reads s)) (sent s) (shown s) (saves s)
       (config_file s) (slept s).

Definition log_request (r : request) (s : St) : St :=
  mkSt (ford_token s) (autonomic_token s) (token_expiration s) (last_range s)
       (last_charge s) (reads s) (sent s ++ [r]) (shown s) (saves s)
       (config_file s) (slept s).

Definition log_shown (t m : string) (s : St) : St :=
  mkSt (ford_token s) (autonomic_token s) (token_expiration s) (last_range s)
       (last_charge s) (reads s) (sent s) (shown s ++ [(t, m)]) (saves s)
       (config_file s) (slept s).

Definition log_save (f : option string) (s : St) : St :=
  mkSt (ford_token s) (autonomic_token s) (token_expiration s) (last_range s)
       (last_charge s) (reads s) (sent s) (shown s) (S (saves s)) f (slept s).

Definition log_sleep (n : Z) (s : St) : St :=
  mkSt (ford_token s) (autonomic_token s) (token_expiration s) (last_range s)
       (last_charge s) (reads s) (sent s) (shown s) (saves s) (config_file s)
       (slept s ++ [n]).

(** ** The monad of methods: state that survives exceptions *)

Definition M (A : Type) : Type := St -> res A * St.

Definition ret {A} (a : A) : M A := fun s => (Ok a, s).

Definition bind {A B} (c : M A) (k : A -> M B) : M B :=
  fun s =>
    match c s with
    | (Ok a, s') => k a s'
    | (Raise e, s') => (Raise e, s')
    end.

Definition raise {A} (e : exn) : M A := fun s => (Raise e, s).

Definition lift {A} (r : res A) : M A := fun s => (r, s).

Definition gets {A} (f : St -> A) : M A := fun s => (Ok (f s), s).

Definition modify (f : St -> St) : M unit := fun s => (Ok tt, f s).

(** [try: c except Exception as e: h e] *)
Definition try_except {A} (c : M A) (h : exn -> M A) : M A :=
  fun s =>
    match c s with
    | (Ok a, s') => (Ok a, s')
    | (Raise e, s') => h e s'
    end.

(** [try: c except Exception as e: raise Exception(f"<prefix>{str(e)}")] *)
Definition rewrap {A} (prefix : string) (c : M A) : M A :=
  try_except c (fun e => raise (Exn "Exception" (prefix ++ exn_msg e))).

Declare Scope monad_scope.
Delimit Scope monad_scope with monad.
Notation "x <- c ;; k" := (bind c (fun x => k))
  (at level 61, c at next level, right associativity) : monad_scope.
Notation "c ;; k" := (bind c (fun _ => k))
  (at level 61, right associativity) : monad_scope.
Local Open Scope monad_scope.

Definition nl : string := String (ascii_of_nat 10) EmptyString.

(** [response.json()] *)
Definition response_json (r : response) : res pyval :=
  match json_body r with
  | Some v => Ok v
  | None => Raise (Exn "JSONDecodeError" "Expecting value: line 1 column 1 (char 0)")
  end.

Section Client.

Variable E : Env.

(** [str(v)], as an f-string renders a value. *)
Definition py_str (v : pyval) : string :=
  match v with
  | JNull => "None"
  | JBool true => "True"
  | JBool false => "False"
  | JInt z => str_of_Z z
  | JFloat q => float_repr E q
  | JStr s => s
  | _ => container_repr E v
  end.

(** [time.time()] *)
Definition time_time : M Q :=
  fun s => (Ok (clock E (reads s)), tick_clock s).

(** [requests.post] / [requests.get]: the request goes out, then either a
    response comes back or the transport raises. *)
Definition http_send (r : request) : M response :=
  fun s =>
    match http E (length (sent s)) r with
    | Responded resp => (Ok resp, log_request r s)
    | TransportFailure msg => (Raise (Exn "ConnectionError" msg), log_request r s)
    end.

(** [tok and time.time() < self.token_expiration]; the clock is read only
    when the token is truthy. *)
Definition token_fresh (tok : St -> pyval) : M bool :=
  t <- gets tok ;;
  if truthy t then
    now <- time_time ;;
    expiry <- gets token_expiration ;;
    ret (Qlt_bool now expiry)
  else ret false.

(** The [try] block of [get_ford_token]: the primary authentication. *)
Definition request_ford_token : M pyval :=
    rewrap "Ford token request failed: "
      (response <- http_send (PostFordAuth (username E) (password E)) ;;
       if status_code response =? 200 then
         data <- lift (response_json response) ;;
         status <- lift (py_get1 data "status") ;;
         if py_eq_int status 200 then
           tok <- lift (py_get1 data "access_token") ;;
           modify (set_ford_token tok) ;;
           now <- time_time ;;
           modify (set_token_expiration (now + 300)%Q) ;;
           gets ford_token
         else
           message <- lift (py_get data "message" (JStr "Unknown error")) ;;
           raise (Exn "Exception"
                      ("Ford authentication failed: " ++ py_str message))
       else
         raise (Exn "Exception"
                    ("Ford authentication failed: "
                       ++ str_of_Z (status_code response) ++ " - "
                       ++ text response))).

(** *** [FordPassAPI.get_ford_token] *)
Definition get_ford_token : M pyval :=
  hit <- token_fresh ford_token ;;
  if (hit : bool) then gets ford_token
  else request_ford_token.

(** The [try] block of [get_autonomic_token]: the token exchange. *)
Definition request_autonomic_token (ford : pyval) : M pyval :=
    rewrap "Autonomic token request failed: "
      (response <- http_send (PostTokenExchange ford) ;;
       if status_code response =? 200 then
         token_data <- lift (response_json response) ;;
         tok <- lift (py_get1 token_data "access_token") ;;
         modify (set_autonomic_token tok) ;;
         now <- time_time ;;
         expires_in <- lift (py_get token_data "expires_in" (JInt 3600)) ;;
         total <- lift (py_float_add now expires_in) ;;
         modify (set_token_expiration (total - 60)%Q) ;;
         gets autonomic_token
       else
         raise (Exn "Exception"
                    ("Autonomic authentication failed: "
                       ++ str_of_Z (status_code response) ++ " - "
                       ++ text response))).

(** *** [FordPassAPI.get_autonomic_token] *)
Definition get_autonomic_token : M pyval :=
  hit <- token_fresh autonomic_token ;;
  if (hit : bool) then gets autonomic_token
  else
    ford <- get_ford_token ;;
    request_autonomic_token ford.

(** *** [FordPassAPI.get_auth_token] *)
Definition get_auth_token : M pyval := get_autonomic_token.

(** Writing [fordpass_status.json]; a disk fault raises. *)
Definition dump_status_file : M unit :=
  fun s =>
    match status_dump E (length (sent s)) with
    | None => (Ok tt, s)
    | Some e => (Raise e, s)
    end.

(** *** [FordPassAPI.get_vehicle_status] *)
Definition get_vehicle_status : M pyval :=
  token <- get_auth_token ;;
  rewrap "Vehicle status request failed: "
    (response <- http_send (GetStatus (vin E) token) ;;
     if status_code response =? 200 then
       status_data <- lift (response_json response) ;;
       dump_status_file ;;
       ret status_data
     else
       raise (Exn "Exception"
                  ("Status request failed: "
                     ++ str_of_Z (status_code response) ++ " - "
                     ++ text response))).

(** The body shared by every projection accessor:
    [try: status = self.get_vehicle_status(); <project>
     except Exception as e: return f"<prefix>{str(e)}"]. *)
Definition accessor (prefix : string) (project : pyval -> res pyval) : M pyval :=
  try_except
    (status <- get_vehicle_status ;; lift (project status))
    (fun e => ret (JStr (prefix ++ exn_msg e))).

End Client.

(** ** Projections of a raw status *)

Local Notation "x <~ r ; k" := (res_bind r (fun x => k))
  (at level 61, r at next level, right associativity).

(** [status.get("metrics", {})] *)
Definition metrics_of (status : pyval) : res pyval :=
  py_get status "metrics" (JObj []).

(** [round((metrics.get("xevBatteryRange", {}).get("value") or 0) * 0.621371)] *)
Definition range_miles (metrics : pyval) : res Z :=
  km <~ metric_value metrics "xevBatteryRange" ;
  product <~ py_mul_float (py_or km (JInt 0)) KM_TO_MILES ;
  py_round (JFloat product).

(** The dict literal of [get_battery_status], entries in source order. *)
Definition battery_projection (status : pyval) : res pyval :=
  metrics <~ metrics_of status ;
  main_charge <~ metric_value metrics "batteryStateOfCharge" ;
  ev_charge <~ metric_value metrics "xevBatteryStateOfCharge" ;
  actual_charge <~ metric_value metrics "xevBatteryActualStateOfCharge" ;
  range_km <~ metric_value metrics "xevBatteryRange" ;
  miles <~ range_miles metrics ;
  capacity <~ metric_value metrics "xevBatteryCapacity" ;
  remaining <~ metric_value metrics "xevBatteryEnergyRemaining" ;
  temperature <~ metric_value metrics "xevBatteryTemperature" ;
  voltage <~ metric_value metrics "xevBatteryVoltage" ;
  performance <~ metric_value metrics "xevBatteryPerformanceStatus" ;
  time_to_full <~ metric_value metrics "xevBatteryTimeToFullCharge" ;
  Ok (JObj
        [ (JStr "main_battery_charge", main_charge);
          (JStr "ev_battery_charge", ev_charge);
          (JStr "ev_battery_actual_charge", actual_charge);
          (JStr "ev_battery_range_km", range_km);
          (JStr "ev_battery_range_miles", JInt miles);
          (JStr "ev_battery_capacity_kwh", capacity);
          (JStr "ev_battery_energy_remaining_kwh", remaining);
          (JStr "ev_battery_temperature", temperature);
          (JStr "ev_battery_voltage", voltage);
          (JStr "ev_battery_performance", performance);
          (JStr "ev_time_to_full_charge", time_to_full) ]).

(** *** [FordPassAPI.get_battery_status] *)
Definition get_battery_status (E : Env) : M pyval :=
  accessor E "Unable to retrieve battery information: " battery_projection.

(** The loop [for item in items: acc[item.get(id_key)] = item.get("value")]. *)
Fixpoint collect_by (id_key : string) (items : list pyval)
    (acc : list (pyval * pyval)) : res (list (pyval * pyval)) :=
  match items with
  | [] => Ok acc
  | item :: rest =>
      item_id <~ py_get1 item id_key ;
      item_value <~ py_get1 item "value" ;
      acc' <~ py_setitem acc item_id item_value ;
      collect_by id_key rest acc'
  end.

Definition door_projection (status : pyval) : res pyval :=
  metrics <~ metrics_of status ;
  door_seq <~ py_get metrics "doorStatus" (JArr []) ;
  door_items <~ py_iter door_seq ;
  doors <~ collect_by "vehicleDoor" door_items [] ;
  lock_seq <~ py_get metrics "doorLockStatus" (JArr []) ;
  lock_items <~ py_iter lock_seq ;
  locks <~ collect_by "vehicleDoor" lock_items [] ;
  hood <~ metric_value metrics "hoodStatus" ;
  alarm <~ metric_value metrics "alarmStatus" ;
  Ok (JObj
        [ (JStr "doors", JObj doors);
          (JStr "locks", JObj locks);
          (JStr "hood", hood);
          (JStr "alarm", alarm) ]).

(** *** [FordPassAPI.get_door_status] *)
Definition get_door_status (E : Env) : M pyval :=
  accessor E "Unable to retrieve door information: " door_projection.

(** The first loop of [get_tire_status]. *)
Fixpoint collect_pressures (items : list pyval) (acc : list (pyval * pyval))
  : res (list (pyval * pyval)) :=
  match items with
  | [] => Ok acc
  | tire :: rest =>
      tire_id <~ py_get1 tire "vehicleWheel" ;
      tire_value <~ py_get1 tire "value" ;
      front <~ py_get1 tire "wheelPlacardFront" ;
      rear <~ py_get1 tire "wheelPlacardRear" ;
      acc' <~ py_setitem acc tire_id
                (JObj [ (JStr "pressure", tire_value);
                        (JStr "recommended", py_or front rear) ]) ;
      collect_pressures rest acc'
  end.

(** The second loop of [get_tire_status]. *)
Fixpoint collect_statuses (items : list pyval) (acc : list (pyval * pyval))
  : res (list (pyval * pyval)) :=
  match items with
  | [] => Ok acc
  | tire :: rest =>
      tire_id <~ py_get1 tire "vehicleWheel" ;
      tire_value <~ py_get1 tire "value" ;
      acc' <~ py_setitem acc
                (if truthy tire_id then tire_id else JStr "overall") tire_value ;
      collect_statuses rest acc'
  end.

Definition tire_projection (status : pyval) : res pyval :=
  metrics <~ metrics_of status ;
  pressure_seq <~ py_get metrics "tirePressure" (JArr []) ;
  pressure_items <~ py_iter pressure_seq ;
  pressures <~ collect_pressures pressure_items [] ;
  status_seq <~ py_get metrics "tirePressureStatus" (JArr []) ;
  status_items <~ py_iter status_seq ;
  statuses <~ collect_statuses status_items [] ;
  system_seq <~ py_get metrics "tirePressureSystemStatus" (JArr [JObj []]) ;
  system_first <~ py_index0 system_seq ;
  system_status <~ py_get1 system_first "value" ;
  Ok (JObj
        [ (JStr "pressures", JObj pressures);
          (JStr "statuses", JObj statuses);
          (JStr "system_status", system_status) ]).

(** *** [FordPassAPI.get_tire_status] *)
Definition get_tire_status (E : Env) : M pyval :=
  accessor E "Unable to retrieve tire information: " tire_projection.

Definition location_projection (status : pyval) : res pyval :=
  metrics <~ metrics_of status ;
  position_metric <~ py_get metrics "position" (JObj []) ;
  position_value <~ py_get position_metric "value" (JObj []) ;
  position <~ py_get position_value "location" (JObj []) ;
  heading_metric <~ py_get metrics "heading" (JObj []) ;
  heading_data <~ py_get heading_metric "value" (JObj []) ;
  compass <~ metric_value metrics "compassDirection" ;
  lat <~ py_get1 position "lat" ;
  lon <~ py_get1 position "lon" ;
  alt <~ py_get1 position "alt" ;
  heading <~ py_get1 heading_data "heading" ;
  position_again <~ py_get metrics "position" (JObj []) ;
  update_time <~ py_get1 position_again "updateTime" ;
  Ok (JObj
        [ (JStr "latitude", lat);
          (JStr "longitude", lon);
          (JStr "altitude", alt);
          (JStr "heading_degrees", heading);
          (JStr "compass_direction", compass);
          (JStr "update_time", update_time) ]).

(** *** [FordPassAPI.get_location] *)
Definition get_location (E : Env) : M pyval :=
  accessor E "Unable to retrieve location information: " location_projection.

(** [c * 9/5 + 32]: a sequence survives [* 9] and fails at [/ 5]. *)
Definition fahrenheit (c : pyval) : res pyval :=
  match num_of c with
  | Some x => Ok (JFloat (x * 9 / 5 + 32)%Q)
  | None =>
      match c with
      | JStr _ | JArr _ =>
          Raise (type_error ("unsupported operand type(s) for /: '"
                               ++ type_name c ++ "' and 'int'"))
      | _ =>
          Raise (type_error ("unsupported operand type(s) for *: '"
                               ++ type_name c ++ "' and 'int'"))
      end
  end.

Definition climate_projection (status : pyval) : res pyval :=
  metrics <~ metrics_of status ;
  outside_temp_c <~ metric_value metrics "outsideTemperature" ;
  outside_temp_f <~ (if is_none outside_temp_c then Ok JNull
                     else fahrenheit outside_temp_c) ;
  ambient <~ metric_value metrics "ambientTemp" ;
  coolant <~ metric_value metrics "engineCoolantTemp" ;
  Ok (JObj
        [ (JStr "outside_temperature_c", outside_temp_c);
          (JStr "outside_temperature_f", outside_temp_f);
          (JStr "ambient_temp", ambient);
          (JStr "engine_coolant_temp", coolant) ]).

(** *** [FordPassAPI.get_climate_status] *)
Definition get_climate_status (E : Env) : M pyval :=
  accessor E "Unable to retrieve climate information: " climate_projection.

(** [round(km * 0.621371) if km is not None else None] *)
Definition miles_or_none (km : pyval) : res pyval :=
  if is_none km then Ok JNull
  else
    product <~ py_mul_float km KM_TO_MILES ;
    miles <~ py_round (JFloat product) ;
    Ok (JInt miles).

Definition vehicle_info_projection (status : pyval) : res pyval :=
  metrics <~ metrics_of status ;
  odometer_km <~ metric_value metrics "odometer" ;
  odometer_miles <~ miles_or_none odometer_km ;
  speed <~ metric_value metrics "speed" ;
  ignition <~ metric_value metrics "ignitionStatus" ;
  oil_life <~ metric_value metrics "oilLifeRemaining" ;
  parking_brake <~ metric_value metrics "parkingBrakeStatus" ;
  gear <~ metric_value metrics "gearLeverPosition" ;
  hybrid_mode <~ metric_value metrics "hybridVehicleModeStatus" ;
  units <~ metric_value metrics "displaySystemOfMeasure" ;
  Ok (JObj
        [ (JStr "odometer_km", odometer_km);
          (JStr "odometer_miles", odometer_miles);
          (JStr "speed", speed);
          (JStr "ignition_status", ignition);
          (JStr "oil_life_remaining", oil_life);
          (JStr "parking_brake_status", parking_brake);
          (JStr "gear_position", gear);
          (JStr "hybrid_vehicle_mode", hybrid_mode);
          (JStr "display_units", units) ]).

(** *** [FordPassAPI.get_vehicle_info] *)
Definition get_vehicle_info (E : Env) : M pyval :=
  accessor E "Unable to retrieve vehicle information: " vehicle_info_projection.

(** The loop of [get_warning_indicators]; [== True] holds of [True], [1]
    and [1.0]. *)
Fixpoint collect_active (items : list (pyval * pyval))
    (acc : list (pyval * pyval)) : res (list (pyval * pyval)) :=
  match items with
  | [] => Ok acc
  | (key, indicator) :: rest =>
      value <~ py_get1 indicator "value" ;
      if py_eq_int value 1 then
        info <~ py_get indicator "additionalInfo" (JStr EmptyString) ;
        acc' <~ py_setitem acc key info ;
        collect_active rest acc'
      else collect_active rest acc
  end.

Definition warning_projection (status : pyval) : res pyval :=
  metrics <~ metrics_of status ;
  indicators <~ py_get metrics "indicators" (JObj []) ;
  items <~ py_items indicators ;
  active <~ collect_active items [] ;
  Ok (JObj active).

(** *** [FordPassAPI.get_warning_indicators] *)
Definition get_warning_indicators (E : Env) : M pyval :=
  accessor E "Unable to retrieve warning indicators: " warning_projection.

Definition charging_projection (status : pyval) : res pyval :=
  metrics <~ metrics_of status ;
  plug <~ metric_value metrics "xevPlugChargerStatus" ;
  charger <~ metric_value metrics "xevBatteryChargeDisplayStatus" ;
  current_out <~ metric_value metrics "xevBatteryChargerCurrentOutput" ;
  voltage_out <~ metric_value metrics "xevBatteryChargerVoltageOutput" ;
  dc_voltage <~ metric_value metrics "xevEvseBatteryDcVoltageOutput" ;
  dc_current <~ metric_value metrics "xevEvseBatteryDcCurrentOutput" ;
  charger_type <~ metric_value metrics "xevChargeStationPowerType" ;
  communication <~ metric_value metrics "xevChargeStationCommunicationStatus" ;
  Ok (JObj
        [ (JStr "plug_status", plug);
          (JStr "charger_status", charger);
          (JStr "charger_current_output", current_out);
          (JStr "charger_voltage_output", voltage_out);
          (JStr "dc_voltage_output", dc_voltage);
          (JStr "dc_current_output", dc_current);
          (JStr "charger_type", charger_type);
          (JStr "communication_status", communication) ]).

(** *** [FordPassAPI.get_ev_charging_status] *)
Definition get_ev_charging_status (E : Env) : M pyval :=
  accessor E "Unable to retrieve EV charging information: " charging_projection.

(** [needle in hay] on strings. *)
Fixpoint contains_str (needle hay : string) : bool :=
  if String.prefix needle hay then true
  else
    match hay with
    | EmptyString => false
    | String _ rest => contains_str needle rest
    end.

(** [needle in v] for a string literal [needle]. *)
Definition py_in (needle : string) (v : pyval) : res bool :=
  match v with
  | JStr s => Ok (contains_str needle s)
  | JArr l => Ok (existsb (fun x => py_eq_str x needle) l)
  | JObj kv => Ok (existsb (fun x => py_eq_str (fst x) needle) kv)
  | _ => Raise (type_error ("argument of type '" ++ type_name v
                              ++ "' is not iterable"))
  end.

(** The four coaching values picked up by the loop of [get_trip_info]. *)
Record trip_scores : Type := TripScores {
  trip_length : pyval;
  acceleration_score : pyval;
  deceleration_score : pyval;
  cruising_score : pyval
}.

Fixpoint collect_trip (items : list (pyval * pyval)) (acc : trip_scores)
  : res trip_scores :=
  match items with
  | [] => Ok acc
  | (key, value) :: rest =>
      is_length <~ py_in "trip-sum-length" key ;
      if (is_length : bool) then
        v <~ py_get1 value "value" ;
        collect_trip rest
          (TripScores v (acceleration_score acc) (deceleration_score acc)
                      (cruising_score acc))
      else
        is_accel <~ py_in "accumulated-acceleration-coaching-score" key ;
        if (is_accel : bool) then
          v <~ py_get1 value "value" ;
          collect_trip rest
            (TripScores (trip_length acc) v (deceleration_score acc)
                        (cruising_score acc))
        else
          is_decel <~ py_in "accumulated-deceleration-coaching-score" key ;
          if (is_decel : bool) then
            v <~ py_get1 value "value" ;
            collect_trip rest
              (TripScores (trip_length acc) (acceleration_score acc) v
                          (cruising_score acc))
          else
            is_cruise <~
              py_in "accumulated-vehicle-speed-cruising-coaching-score" key ;
            if (is_cruise : bool) then
              v <~ py_get1 value "value" ;
              collect_trip rest
                (TripScores (trip_length acc) (acceleration_score acc)
                            (deceleration_score acc) v)
            else collect_trip rest acc
  end.

Definition trip_projection (status : pyval) : res pyval :=
  metrics <~ metrics_of status ;
  custom_metrics <~ py_get metrics "customMetrics" (JObj []) ;
  items <~ py_items custom_metrics ;
  scores <~ collect_trip items (TripScores JNull JNull JNull JNull) ;
  economy <~ metric_value metrics "tripFuelEconomy" ;
  range_regen <~ metric_value metrics "tripXevBatteryRangeRegenerated" ;
  charge_regen <~ metric_value metrics "tripXevBatteryChargeRegenerated" ;
  distance <~ metric_value metrics "tripXevBatteryDistanceAccumulated" ;
  Ok (JObj
        [ (JStr "trip_length", trip_length scores);
          (JStr "trip_fuel_economy", economy);
          (JStr "trip_battery_range_regenerated", range_regen);
          (JStr "trip_battery_charge_regenerated", charge_regen);
          (JStr "trip_battery_distance", distance);
          (JStr "acceleration_score", acceleration_score scores);
          (JStr "deceleration_score", deceleration_score scores);
          (JStr "cruising_score", cruising_score scores) ]).

(** *** [FordPassAPI.get_trip_info] *)
Definition get_trip_info (E : Env) : M pyval :=
  accessor E "Unable to retrieve trip information: " trip_projection.

(** The degree sign, in UTF-8. *)
Definition degree : string :=
  String (ascii_of_nat 194) (String (ascii_of_nat 176) EmptyString).

Definition NOT_AVAILABLE : pyval := JStr "Not available".

Section Summary.

Variable E : Env.

(** [d[k] or "Not available"] *)
Definition item_or_na (d : pyval) (k : string) : res pyval :=
  v <~ py_getitem d k ;
  Ok (py_or v NOT_AVAILABLE).

(** [f"{d[shown]}<suffix>" if d[k] else "Not available"] *)
Definition item_with_unit (d : pyval) (k suffix : string) : res pyval :=
  test <~ py_getitem d k ;
  if truthy test then
    v <~ py_getitem d k ;
    Ok (JStr (py_str E v ++ suffix))
  else Ok NOT_AVAILABLE.

(** [f"{d[miles]} miles ({d[km]} km)" if d[km] else "Not available"] *)
Definition distance_line (d : pyval) (miles km : string) : res pyval :=
  test <~ py_getitem d km ;
  if truthy test then
    m <~ py_getitem d miles ;
    k <~ py_getitem d km ;
    Ok (JStr (py_str E m ++ " miles (" ++ py_str E k ++ " km)"))
  else Ok NOT_AVAILABLE.

Definition temperature_line (climate_info : pyval) : res pyval :=
  test <~ py_getitem climate_info "outside_temperature_c" ;
  if truthy test then
    f <~ py_getitem climate_info "outside_temperature_f" ;
    rounded <~ py_round f ;
    c <~ py_getitem climate_info "outside_temperature_c" ;
    Ok (JStr (str_of_Z rounded ++ degree ++ "F (" ++ py_str E c
                ++ degree ++ "C)"))
  else Ok NOT_AVAILABLE.

(** ["All Normal" if all(status == "NORMAL" for status in
     tire_info['statuses'].values() if status) else "Check Tire Status"] *)
Definition tires_line (tire_info : pyval) : res pyval :=
  statuses <~ py_getitem tire_info "statuses" ;
  values <~ py_values statuses ;
  Ok (JStr (if forallb (fun st => py_eq_str st "NORMAL") (filter truthy values)
            then "All Normal" else "Check Tire Status")).

(** The dict literal of [get_status_summary], entries in source order. *)
Definition summary_of (vehicle_info battery_info door_info climate_info
                         location_info tire_info : pyval) : res pyval :=
  odometer <~ distance_line vehicle_info "odometer_miles" "odometer_km" ;
  ignition <~ item_or_na vehicle_info "ignition_status" ;
  locks <~ py_getitem door_info "locks" ;
  all_doors <~ py_get1 locks "ALL_DOORS" ;
  alarm <~ item_or_na door_info "alarm" ;
  ev_charge <~ item_with_unit battery_info "ev_battery_charge" "%" ;
  range <~ distance_line battery_info "ev_battery_range_miles"
             "ev_battery_range_km" ;
  time_to_full <~ item_with_unit battery_info "ev_time_to_full_charge"
                    " minutes" ;
  outside_temp <~ temperature_line climate_info ;
  latitude <~ py_getitem location_info "latitude" ;
  longitude <~ py_getitem location_info "longitude" ;
  tires <~ tires_line tire_info ;
  Ok (JObj
        [ (JStr "vehicle_status",
           JObj [ (JStr "odometer", odometer);
                  (JStr "ignition", ignition);
                  (JStr "doors_locked",
                   JStr (if py_eq_str all_doors "LOCKED" then "All Locked"
                         else "Not All Locked"));
                  (JStr "alarm", alarm) ]);
          (JStr "battery_status",
           JObj [ (JStr "ev_charge", ev_charge);
                  (JStr "range", range);
                  (JStr "time_to_full_charge", time_to_full) ]);
          (JStr "climate", JObj [ (JStr "outside_temp", outside_temp) ]);
          (JStr "location",
           JObj [ (JStr "latitude", latitude);
                  (JStr "longitude", longitude) ]);
          (JStr "tires", tires) ]).

(** *** [FordPassAPI.get_status_summary]: six accessors, each with a fetch of
    its own, then the summary. *)
Definition get_status_summary : M pyval :=
  try_except
    (vehicle_info <- get_vehicle_info E ;;
     battery_info <- get_battery_status E ;;
     door_info <- get_door_status E ;;
     climate_info <- get_climate_status E ;;
     location_info <- get_location E ;;
     tire_info <- get_tire_status E ;;
     lift (summary_of vehicle_info battery_info door_info climate_info
                      location_info tire_info))
    (fun e => ret (JStr ("Unable to retrieve status summary: " ++ exn_msg e))).

End Summary.

(** ** The state file *)

Definition dq : string := String (ascii_of_nat 34) EmptyString.

(** A JSON string literal.  The only string written is the time stamp, whose
    format [%Y-%m-%d %H:%M:%S] has no character that needs an escape. *)
Definition json_quote (s : string) : string := dq ++ s ++ dq.

Definition json_int_or_null (v : option Z) : string :=
  match v with
  | Some z => str_of_Z z
  | None => "null"
  end.

(** The chunks [json.dump] hands to [fp.write], one after the other, for
    [{'last_range': r, 'last_charge': c, 'last_update': stamp}]. *)
Definition state_chunks (r c : option Z) (stamp : string) : list string :=
  [ "{";
    json_quote "last_range"; ": "; json_int_or_null r;
    ", "; json_quote "last_charge"; ": "; json_int_or_null c;
    ", "; json_quote "last_update"; ": "; json_quote stamp;
    "}" ].

(** The complete record as it stands in the file after a save. *)
Definition state_record (r c : option Z) (stamp : string) : string :=
  String.concat EmptyString (state_chunks r c stamp).

(** What [save_state] does with the file at [self.config_file]:
    [open(path, 'w')] empties it in place, [json.dump] writes the chunks to
    the file object, and leaving the [with] block closes the file object. *)
Inductive file_op : Type :=
| Truncate
| WriteChunk (chunk : string)
| Close.

(** The file object of a save: not opened yet, open with the text written
    to it so far, or closed. *)
Inductive writing : Type :=
| NotOpened
| Opened (written : string)
| Closed (written : string).

Definition apply_op (w : writing) (op : file_op) : writing :=
  match op, w with
  | Truncate, _ => Opened EmptyString
  | WriteChunk ch, Opened t => Opened (t ++ ch)
  | Close, Opened t => Closed t
  | _, _ => w
  end.

Definition run_ops (ops : list file_op) : writing :=
  fold_left apply_op ops NotOpened.

Definition save_ops (r c : option Z) (stamp : string) : list file_op :=
  Truncate :: map WriteChunk (state_chunks r c stamp) ++ [Close].

(** The text file object keeps what is written to it, and passes nothing on
    towards the disk before it holds this many characters. *)
Definition CHUNK_SIZE : nat := (2 ^ 13)%nat.   (* 8192 *)

(** The content at the path.  Opening has emptied the file.  While the file
    object is open and holds less than [CHUNK_SIZE] characters, none of them
    has reached the path; of a longer text some beginning has, of a length
    that depends on the buffers below and is given by [flushed].  Closing
    writes out all of the text. *)
Definition at_path (flushed : nat -> nat) (old : option string) (w : writing)
  : option string :=
  match w with
  | NotOpened => old
  | Opened t =>
      if (String.length t <? CHUNK_SIZE)%nat then Some EmptyString
      else Some (substring 0 (flushed (String.length t)) t)
  | Closed t => Some t
  end.

(** ** The monitor *)

Definition direction (change : Z) : string :=
  if change >? 0 then "increased" else "decreased".

Definition range_clause (current last : Z) : string :=
  if negb (current =? last) then
    "Range has " ++ direction (current - last) ++ " by "
      ++ str_of_Z (Z.abs (current - last)) ++ " miles. "
  else EmptyString.

Definition charge_clause (current last : Z) : string :=
  if negb (current =? last) then
    "Charge has " ++ direction (current - last) ++ " by "
      ++ str_of_Z (Z.abs (current - last)) ++ "%. "
  else EmptyString.

Definition change_message (current_range current_charge lr lc : Z) : string :=
  range_clause current_range lr ++ charge_clause current_charge lc.

Definition notification_title : string := "Ford EV Battery Update".

Definition notification_message (current_range current_charge lr lc : Z)
  : string :=
  "Range: " ++ str_of_Z current_range ++ " miles" ++ nl
    ++ "Charge: " ++ str_of_Z current_charge ++ "%" ++ nl
    ++ change_message current_range current_charge lr lc.

(** [time.sleep(secs)] *)
Definition time_sleep (secs : Z) : M unit :=
  fun s =>
    if secs <? 0 then
      (Raise (Exn "ValueError" "sleep length must be non-negative"), s)
    else (Ok tt, log_sleep secs s).

(** The delay of the [except Exception] arm of [run]. *)
Definition FAULT_DELAY : Z := 30.

Section Monitor.

Variable E : Env.
Variable interval : Z.

(** *** [BatteryMonitor.save_state]: without a fault the file operations run
    to the end and the closed file holds the record.  Any exception of a
    file operation is swallowed: when [open] raises, the file is as it was;
    when a later operation raises, the [with] block still closes the file
    and a beginning of the record is what reached the path. *)
Definition save_state : M unit :=
  fun s =>
    let r := last_range s in
    let c := last_charge s in
    let stamp := strftime E (saves s) in
    let left :=
      match disk_fault E (saves s) with
      | None =>
          match run_ops (save_ops r c stamp) with
          | Closed t => Some t
          | _ => config_file s
          end
      | Some O => config_file s
      | Some (S j) => Some (substring 0 j (state_record r c stamp))
      end in
    (Ok tt, log_save left s).

(** *** [BatteryMonitor.show_notification]: the platform back end is asked to
    display; whatever it raises is caught and reported as [False]. *)
Definition show_notification (title message : string) : M pyval :=
  fun s =>
    match notify_backend E (length (shown s)) title message with
    | Ok displayed => (Ok displayed, log_shown title message s)
    | Raise _ => (Ok (JBool false), log_shown title message s)
    end.

(** The two stores and the save that end both arms of [check_battery]. *)
Definition remember (current_range current_charge : Z) : M unit :=
  modify (set_last (Some current_range) (Some current_charge)) ;;
  save_state.

(** The [if ... else ...] that ends the [try] block of [check_battery]:
    compare with the stored values, notify on a change, store and save. *)
Definition compare_and_notify (current_range current_charge : Z) : M bool :=
  lr <- gets last_range ;;
  lc <- gets last_charge ;;
  match lr, lc with
  | Some lr, Some lc =>
      if negb (current_range =? lr) || negb (current_charge =? lc) then
        show_notification notification_title
          (notification_message current_range current_charge lr lc) ;;
        remember current_range current_charge ;;
        ret true
      else
        remember current_range current_charge ;;
        ret false
  | _, _ =>
      remember current_range current_charge ;;
      ret false
  end.

(** *** [BatteryMonitor.check_battery] *)
Definition check_battery : M bool :=
  try_except
    (battery_info <- get_battery_status E ;;
     raw_range <- lift (py_get1 battery_info "ev_battery_range_miles") ;;
     raw_charge <- lift (py_get1 battery_info "ev_battery_actual_charge") ;;
     if is_none raw_range || is_none raw_charge then ret false
     else
       current_range <- lift (py_round raw_range) ;;
       current_charge <- lift (py_round raw_charge) ;;
       compare_and_notify current_range current_charge)
    (fun e => ret false).

(** One pass through the body of the [while True] loop of
    [BatteryMonitor.run]. *)
Definition run_iteration : M unit :=
  try_except
    (changed <- check_battery ;; time_sleep interval)
    (fun e => time_sleep FAULT_DELAY).

(** [n] passes of the loop. *)
Fixpoint run (n : nat) : M unit :=
  match n with
  | O => ret tt
  | S k => run_iteration ;; run k
  end.

End Monitor.

(** ** Sample worlds, used to run the model on concrete inputs *)

Definition ok_json (v : pyval) : http_outcome :=
  Responded (Response 200 EmptyString (Some v)).

Definition refused (code : Z) (body : string) : http_outcome :=
  Responded (Response code body None).

Definition ford_auth_body : pyval :=
  JObj [ (JStr "status", JInt 200); (JStr "access_token", JStr "ford-jwt") ].

Definition exchange_body : pyval :=
  JObj [ (JStr "access_token", JStr "bearer-1"); (JStr "expires_in", JInt 3600) ].

Definition metric (v : pyval) : pyval := JObj [ (JStr "value", v) ].

(** A telemetry document with a range in kilometres and a charge. *)
Definition status_doc (km charge : pyval) : pyval :=
  JObj [ (JStr "metrics",
          JObj [ (JStr "xevBatteryRange", metric km);
                 (JStr "xevBatteryActualStateOfCharge", metric charge) ]) ].

(** A telemetry document without the range metric. *)
Definition status_doc_no_range (charge : pyval) : pyval :=
  JObj [ (JStr "metrics",
          JObj [ (JStr "xevBatteryActualStateOfCharge", metric charge) ]) ].

(** A peer that answers every request kind with the given telemetry. *)
Definition healthy_peer (telemetry : http_outcome) (n : nat) (r : request)
  : http_outcome :=
  match r with
  | PostFordAuth _ _ => ok_json ford_auth_body
  | PostTokenExchange _ => ok_json exchange_body
  | GetStatus _ _ => telemetry
  end.

(** A peer whose token exchange endpoint is down. *)
Definition exchange_down_peer (n : nat) (r : request) : http_outcome :=
  match r with
  | PostFordAuth _ _ => ok_json ford_auth_body
  | PostTokenExchange _ => refused 500 "down"
  | GetStatus _ _ => refused 401 "no token"
  end.

(** A clock that advances ten seconds per reading, starting at 1000. *)
Definition ten_second_clock (n : nat) : Q := inject_Z (1000 + 10 * Z.of_nat n).

Definition sample_env (net : nat -> request -> http_outcome) : Env :=
  {| username := "driver@example.com";
     password := "secret";
     vin := "1FTVW1EL0NWG00001";
     clock := ten_second_clock;
     http := net;
     status_dump := fun _ => None;
     float_repr := fun _ => "<float>";
     container_repr := fun _ => "<container>";
     notify_backend := fun _ _ _ => Ok (JBool true);
     strftime := fun _ => "2025-01-01 00:00:00";
     disk_fault := fun _ => None |}.

(** The same world with a notification back end that always raises. *)
Definition broken_notifier_env (net : nat -> request -> http_outcome) : Env :=
  {| username := "driver@example.com";
     password := "secret";
     vin := "1FTVW1EL0NWG00001";
     clock := ten_second_clock;
     http := net;
     status_dump := fun _ => None;
     float_repr := fun _ => "<float>";
     container_repr := fun _ => "<container>";
     notify_backend := fun _ _ _ => Raise (Exn "RuntimeError" "no display");
     strftime := fun _ => "2025-01-01 00:00:00";
     disk_fault := fun _ => None |}.

(** A monitor that has seen 250 miles and 80 percent. *)
Definition seen_250_80 : St :=
  set_last (Some 250) (Some 80) init_state.

(** A world whose telemetry endpoint answers 401. *)
Definition unauthorized_env : Env :=
  sample_env (healthy_peer (refused 401 "unauthorized")).

(** A world that reports 394.3 km and 82 percent. *)
Definition reading_245_82_env : Env :=
  sample_env (healthy_peer (ok_json (status_doc (JFloat (3943 # 10)) (JInt 82)))).

(** The same report with a notification back end that raises. *)
Definition reading_245_82_broken_notifier_env : Env :=
  broken_notifier_env
    (healthy_peer (ok_json (status_doc (JFloat (3943 # 10)) (JInt 82)))).

(** A world whose telemetry lacks the range metric. *)
Definition no_range_env : Env :=
  sample_env (healthy_peer (ok_json (status_doc_no_range (JInt 80)))).

(** A world whose token exchange endpoint is down. *)
Definition exchange_down_env : Env := sample_env exchange_down_peer.

(** The state after one failed refresh against the dead exchange endpoint. *)
Definition after_failed_exchange : St :=
  snd (get_autonomic_token exchange_down_env init_state).

(** The state after one successful refresh against a healthy peer. *)
Definition after_refresh : St :=
  snd (get_autonomic_token reading_245_82_env init_state).

(** Two time stamps a minute apart, and the record of 250 miles / 80 percent
    as an earlier save left it. *)
Definition stamp_before : string := "2025-01-01 00:00:00".
Definition stamp_after : string := "2025-01-01 00:01:00".
Definition old_record : string :=
  state_record (Some 250) (Some 80) stamp_before.

(** ** Notions used to state the properties *)

(** The content at the state file's path when the process is killed after
    [k] of the file operations of a save; a killed process closes nothing. *)
Definition file_when_killed (flushed : nat -> nat) (k : nat)
    (old : option string) (r c : option Z) (stamp : string) : option string :=
  at_path flushed old (run_ops (firstn k (save_ops r c stamp))).

(** What the first [j] chunks of a save spell. *)
Definition written_after (j : nat) (r c : option Z) (stamp : string) : string :=
  String.concat EmptyString (firstn j (state_chunks r c stamp)).

(** The ten projection accessors. *)
Definition projection_accessors (E : Env) : list (M pyval) :=
  [ get_battery_status E; get_door_status E; get_tire_status E;
    get_location E; get_climate_status E; get_vehicle_info E;
    get_warning_indicators E; get_ev_charging_status E; get_trip_info E;
    get_status_summary E ].

(** A projection whose successful result is always a dict. *)
Definition returns_dict (project : pyval -> res pyval) : Prop :=
  forall status v, project status = Ok v -> exists kv, v = JObj kv.

(** What a projection accessor may hand back: a dict or a string. *)
Definition dict_or_str (v : pyval) : bool :=
  match v with
  | JObj _ | JStr _ => true
  | _ => false
  end.

(** A method that always returns, and returns a dict or a string. *)
Definition total_dict_or_str (a : M pyval) : Prop :=
  forall s, exists v s', a s = (Ok v, s') /\ dict_or_str v = true.

(** A method that answers a string in state [s]. *)
Definition answers_string (s : St) (a : M pyval) : Prop :=
  exists msg s', a s = (Ok (JStr msg), s').

(** The token a primary authentication outcome carries when it is a
    success: HTTP 200, a JSON object, and [status] equal to 200 in it. *)
Definition primary_token_in (o : http_outcome) : option pyval :=
  match o with
  | Responded resp =>
      if status_code resp =? 200 then
        match json_body resp with
        | Some (JObj kv) =>
            if py_eq_int (match assoc (JStr "status") kv with
                          | Some st => st
                          | None => JNull
                          end) 200
            then Some (match assoc (JStr "access_token") kv with
                       | Some tok => tok
                       | None => JNull
                       end)
            else None
        | _ => None
        end
      else None
  | TransportFailure _ => None
  end.

(** The reading a poll cycle works with: the two values [check_battery]
    takes out of the battery view, both present and both rounded. *)
Definition reading_of (battery_info : pyval) : option (Z * Z) :=
  match py_get1 battery_info "ev_battery_range_miles",
        py_get1 battery_info "ev_battery_actual_charge" with
  | Ok raw_range, Ok raw_charge =>
      if is_none raw_range || is_none raw_charge then None
      else
        match py_round raw_range, py_round raw_charge with
        | Ok r, Ok c => Some (r, c)
        | _, _ => None
        end
  | _, _ => None
  end.

(** The part of the state that belongs to the monitor. *)
Definition monitor_view (s : St)
  : option Z * option Z * list (string * string) * nat * option string * list Z :=
  (last_range s, last_charge s, shown s, saves s, config_file s, slept s).

(** A method that leaves the monitor's part of the state alone. *)
Definition keeps_monitor {A} (c : M A) : Prop :=
  forall s, monitor_view (snd (c s)) = monitor_view s.

(** A method that never lets an exception out. *)
Definition never_raises {A} (c : M A) : Prop :=
  forall s, exists a, fst (c s) = Ok a.

(** Wall clock readings do not go backwards. *)
Definition clock_monotone (E : Env) : Prop :=
  forall i j, (i <= j)%nat -> (clock E i <= clock E j)%Q.

(** ** Further methods of the client *)

(** The body of [get_mileage]: a sentence, not a dict. *)
Definition mileage_projection (status : pyval) : res pyval :=
  metrics <~ metrics_of status ;
  odometer_value <~ metric_value metrics "odometer" ;
  if negb (is_none odometer_value) then
    product <~ py_mul_float odometer_value KM_TO_MILES ;
    miles <~ py_round (JFloat product) ;
    Ok (JStr ("Vehicle has " ++ str_of_Z miles ++ " miles on it."))
  else Ok (JStr "Odometer information not available").

(** *** [FordPassAPI.get_mileage] *)
Definition get_mileage (E : Env) : M pyval :=
  accessor E "Unable to retrieve mileage information: " mileage_projection.

(** The loop of [get_window_status]; the key is the f-string
    [f"{window.get('vehicleWindow')}_{window.get('vehicleSide')}"]. *)
Fixpoint collect_windows (E : Env) (items : list pyval)
    (acc : list (pyval * pyval)) : res (list (pyval * pyval)) :=
  match items with
  | [] => Ok acc
  | window :: rest =>
      name <~ py_get1 window "vehicleWindow" ;
      side <~ py_get1 window "vehicleSide" ;
      value <~ py_get window "value" (JObj []) ;
      range_data <~ py_get value "doubleRange" (JObj []) ;
      lower <~ py_get1 range_data "lowerBound" ;
      upper <~ py_get1 range_data "upperBound" ;
      acc' <~ py_setitem acc
                (JStr (py_str E name ++ "_" ++ py_str E side))
                (JObj [ (JStr "lower_bound", lower);
                        (JStr "upper_bound", upper) ]) ;
      collect_windows E rest acc'
  end.

Definition window_projection (E : Env) (status : pyval) : res pyval :=
  metrics <~ metrics_of status ;
  window_seq <~ py_get metrics "windowStatus" (JArr []) ;
  window_items <~ py_iter window_seq ;
  windows <~ collect_windows E window_items [] ;
  Ok (JObj windows).

(** *** [FordPassAPI.get_window_status] *)
Definition get_window_status (E : Env) : M pyval :=
  accessor E "Unable to retrieve window information: " (window_projection E).

(** The command endpoint: the outcome of the n-th command POST, given the
    command and the bearer token it carries. *)
Record CommandEnv : Type := {
  client_env : Env;
  command_http : nat -> string -> pyval -> http_outcome
}.

(** The state of the client together with the commands posted so far, each
    with its bearer token, oldest first. *)
Definition CmdSt : Type := (St * list (string * pyval))%type.

(** *** [FordPassAPI.execute_command] *)
Definition execute_command (C : CommandEnv) (command : string)
  : CmdSt -> res pyval * CmdSt :=
  fun '(s, posted) =>
    match get_auth_token (client_env C) s with
    | (Raise e, s1) => (Raise e, (s1, posted))
    | (Ok token, s1) =>
        if String.eqb command "status" then
          let '(r, s2) := get_vehicle_status (client_env C) s1 in
          (r, (s2, posted))
        else
          let posted' := (posted ++ [(command, token)])%list in
          let wrap (msg : string) : res pyval :=
            Raise (Exn "Exception" ("Command execution failed: " ++ msg)) in
          match command_http C (length posted) command token with
          | TransportFailure msg => (wrap msg, (s1, posted'))
          | Responded response =>
              if (status_code response =? 200) || (status_code response =? 202)
              then
                match response_json response with
                | Ok v => (Ok v, (s1, posted'))
                | Raise e => (wrap (exn_msg e), (s1, posted'))
                end
              else
                (wrap ("Command failed: " ++ str_of_Z (status_code response)
                         ++ " - " ++ text response),
                 (s1, posted'))
          end
    end.

(** ** The desktop behind [show_notification] *)

(** [linux_notification_method], as the module's import chain leaves it. *)
Inductive linux_method : Type :=
| method_gi
| method_notify2
| method_notify_send
| method_none.

(** The module level variables of [battery_monitor.py] and the library calls
    [show_notification] makes; each call may raise.  The index is the number
    of notifications asked for so far. *)
Record Desktop : Type := {
  PLATFORM : string;
  win_notification_available : bool;
  linux_notification_method : linux_method;
  show_toast : nat -> string -> string -> option exn;
  os_system : nat -> string -> option exn;
  gi_show : nat -> string -> string -> res pyval;
  notify2_show : nat -> string -> string -> res pyval;
  notify_send : nat -> string -> string -> option exn
}.

Definition backslash : string := String (ascii_of_nat 92) EmptyString.

(** [s.replace('"', '\\"')] *)
Fixpoint escape_dq (s : string) : string :=
  match s with
  | EmptyString => EmptyString
  | String c rest =>
      if Ascii.eqb c (ascii_of_nat 34) then
        (backslash ++ dq ++ escape_dq rest)%string
      else String c (escape_dq rest)
  end.

(** The command line handed to [os.system] on macOS. *)
Definition osascript_command (title message : string) : string :=
  "osascript -e '"
    ++ ("display notification " ++ dq ++ escape_dq message ++ dq
          ++ " with title " ++ dq ++ escape_dq title ++ dq)
    ++ "'".

(** The body of the outer [try] of [show_notification]. *)
Definition desktop_backend (D : Desktop) (n : nat) (title message : string)
  : res pyval :=
  if String.eqb (PLATFORM D) "Windows" then
    if win_notification_available D then
      match show_toast D n title message with
      | None => Ok (JBool true)
      | Some e => Raise e
      end
    else Ok (JBool false)
  else if String.eqb (PLATFORM D) "Darwin" then
    match os_system D n (osascript_command title message) with
    | None => Ok (JBool true)
    | Some _ => Ok (JBool false)
    end
  else if String.eqb (PLATFORM D) "Linux" then
    match linux_notification_method D with
    | method_gi => gi_show D n title message
    | method_notify2 => notify2_show D n title message
    | method_notify_send =>
        match notify_send D n title message with
        | None => Ok (JBool true)
        | Some e => Raise e
        end
    | method_none => Ok (JBool false)
    end
  else Ok (JBool false).

(** A world whose notification back end is that desktop. *)
Definition on_desktop (E : Env) (D : Desktop) : Env :=
  {| username := username E;
     password := password E;
     vin := vin E;
     clock := clock E;
     http := http E;
     status_dump := status_dump E;
     float_repr := float_repr E;
     container_repr := container_repr E;
     notify_backend := desktop_backend D;
     strftime := strftime E;
     disk_fault := disk_fault E |}.

(** Whether every character of a string passes a test. *)
Fixpoint all_chars (p : ascii -> bool) (s : string) : bool :=
  match s with
  | EmptyString => true
  | String c rest => p c && all_chars p rest
  end.

(** Neither quote character nor a backslash. *)
Definition not_quote (c : ascii) : bool :=
  negb (Ascii.eqb c (ascii_of_nat 34) || Ascii.eqb c (ascii_of_nat 39)
        || Ascii.eqb c (ascii_of_nat 92)).

(** A string without quote characters and without a backslash. *)
Definition quote_free (s : string) : bool := all_chars not_quote s.

(** ** Reading the state file back *)

(** What [json.load] makes of a text.  [Malformed]: it raises (bad JSON, or
    bytes the file's encoding rejects).  [Unsupported]: the text uses what
    this model has no value for or does not decide (a float or [NaN] or
    [Infinity] literal, an escape or a non-ASCII byte inside a string, an
    integer of more than 4000 digits, nesting deeper than 64); nothing is
    claimed about such a text. *)
Inductive decoded (A : Type) : Type :=
| Decoded (a : A)
| Malformed
| Unsupported.
Arguments Decoded {A} a.
Arguments Malformed {A}.
Arguments Unsupported {A}.

Definition dq_char : ascii := ascii_of_nat 34.

(** JSON white space: blank, tab, line feed, carriage return. *)
Definition is_ws (c : ascii) : bool :=
  Ascii.eqb c " " || Ascii.eqb c (ascii_of_nat 9)
  || Ascii.eqb c (ascii_of_nat 10) || Ascii.eqb c (ascii_of_nat 13).

Definition is_digit (c : ascii) : bool :=
  (48 <=? nat_of_ascii c)%nat && (nat_of_ascii c <=? 57)%nat.

Fixpoint skip_ws (s : string) : string :=
  match s with
  | String c rest => if is_ws c then skip_ws rest else s
  | EmptyString => EmptyString
  end.

(** The longest run of digits at the head of a text, and what follows. *)
Fixpoint span_digits (s : string) : string * string :=
  match s with
  | String c rest =>
      if is_digit c then
        let (ds, tail) := span_digits rest in (String c ds, tail)
      else (EmptyString, s)
  | EmptyString => (EmptyString, EmptyString)
  end.

(** A character that stands for itself inside a JSON string. *)
Definition plain_char (c : ascii) : bool :=
  negb (Ascii.eqb c dq_char) && negb (Ascii.eqb c (ascii_of_nat 92))
  && (32 <=? nat_of_ascii c)%nat && (nat_of_ascii c <? 128)%nat.

(** The rest of a string literal, after its opening quote. *)
Fixpoint scan_string (s : string) : decoded (string * string) :=
  match s with
  | EmptyString => Malformed
  | String c rest =>
      if Ascii.eqb c dq_char then Decoded (EmptyString, rest)
      else if Ascii.eqb c (ascii_of_nat 92) then Unsupported
      else if (nat_of_ascii c <? 32)%nat then Malformed
      else if (128 <=? nat_of_ascii c)%nat then Unsupported
      else
        match scan_string rest with
        | Decoded (body, tail) => Decoded (String c body, tail)
        | Malformed => Malformed
        | Unsupported => Unsupported
        end
  end.

Fixpoint drop (n : nat) (s : string) : string :=
  match n, s with
  | S k, String _ rest => drop k rest
  | _, _ => s
  end.

(** One of [null], [true], [false] at the head of a text. *)
Definition scan_literal (word : string) (v : pyval) (s : string)
  : decoded (pyval * string) :=
  if String.prefix word s then Decoded (v, drop (String.length word) s)
  else Malformed.

Definition MAX_DIGITS : nat := 4000.
Definition MAX_DEPTH : nat := 64.

(** A number at the head of a text: an optional minus, then [0] or a run of
    digits that does not start with [0]; a fraction or an exponent after it
    makes a float. *)
Definition scan_number (s : string) : decoded (pyval * string) :=
  let '(sign, body) :=
    match s with
    | String c rest =>
        if Ascii.eqb c "-" then ("-", rest) else (EmptyString, s)
    | EmptyString => (EmptyString, s)
    end in
  let '(digits, tail) := span_digits body in
  match digits with
  | EmptyString =>
      match tail with
      | String c _ => if Ascii.eqb c "I" then Unsupported else Malformed
      | EmptyString => Malformed
      end
  | String d ds =>
      if Ascii.eqb d "0" && negb (String.eqb ds EmptyString) then Malformed
      else if (MAX_DIGITS <? String.length digits)%nat then Unsupported
      else
        match tail with
        | String c _ =>
            if Ascii.eqb c "." || Ascii.eqb c "e" || Ascii.eqb c "E"
            then Unsupported
            else
              match NilZero.int_of_string (sign ++ digits) with
              | Some i => Decoded (JInt (Z.of_int i), tail)
              | None => Unsupported
              end
        | EmptyString =>
            match NilZero.int_of_string (sign ++ digits) with
            | Some i => Decoded (JInt (Z.of_int i), tail)
            | None => Unsupported
            end
        end
  end.

(** [scan_once] of the decoder, with the object and the array loops.  A
    [dict] keeps the first position of a repeated key and its last value. *)
Fixpoint scan_value (fuel depth : nat) (s : string) {struct fuel}
  : decoded (pyval * string) :=
  match fuel with
  | O => Unsupported
  | S fuel' =>
      match s with
      | EmptyString => Malformed
      | String c rest =>
          if Ascii.eqb c dq_char then
            match scan_string rest with
            | Decoded (str, tail) => Decoded (JStr str, tail)
            | Malformed => Malformed
            | Unsupported => Unsupported
            end
          else if Ascii.eqb c "{" then
            match depth with
            | O => Unsupported
            | S depth' =>
                match skip_ws rest with
                | String c1 tail1 =>
                    if Ascii.eqb c1 "}" then Decoded (JObj [], tail1)
                    else if Ascii.eqb c1 dq_char then
                      scan_members fuel' depth' tail1 []
                    else Malformed
                | EmptyString => Malformed
                end
            end
          else if Ascii.eqb c "[" then
            match depth with
            | O => Unsupported
            | S depth' =>
                match skip_ws rest with
                | String c1 tail1 =>
                    if Ascii.eqb c1 "]" then Decoded (JArr [], tail1)
                    else scan_elements fuel' depth' (String c1 tail1) []
                | EmptyString => Malformed
                end
            end
          else if Ascii.eqb c "n" then scan_literal "null" JNull s
          else if Ascii.eqb c "t" then scan_literal "true" (JBool true) s
          else if Ascii.eqb c "f" then scan_literal "false" (JBool false) s
          else if Ascii.eqb c "N" then
            if String.prefix "NaN" s then Unsupported else Malformed
          else if Ascii.eqb c "I" then
            if String.prefix "Infinity" s then Unsupported else Malformed
          else if Ascii.eqb c "-" || is_digit c then scan_number s
          else Malformed
      end
  end

with scan_members (fuel depth : nat) (s : string)
       (acc : list (pyval * pyval)) {struct fuel}
  : decoded (pyval * string) :=
  match fuel with
  | O => Unsupported
  | S fuel' =>
      match scan_string s with
      | Decoded (key, tail) =>
          match skip_ws tail with
          | String c1 tail1 =>
              if Ascii.eqb c1 ":" then
                match scan_value fuel' depth (skip_ws tail1) with
                | Decoded (v, tail2) =>
                    let acc' := assoc_set (JStr key) v acc in
                    match skip_ws tail2 with
                    | String c3 tail3 =>
                        if Ascii.eqb c3 "}" then Decoded (JObj acc', tail3)
                        else if Ascii.eqb c3 "," then
                          match skip_ws tail3 with
                          | String c4 tail4 =>
                              if Ascii.eqb c4 dq_char then
                                scan_members fuel' depth tail4 acc'
                              else Malformed
                          | EmptyString => Malformed
                          end
                        else Malformed
                    | EmptyString => Malformed
                    end
                | Malformed => Malformed
                | Unsupported => Unsupported
                end
              else Malformed
          | EmptyString => Malformed
          end
      | Malformed => Malformed
      | Unsupported => Unsupported
      end
  end

with scan_elements (fuel depth : nat) (s : string) (acc : list pyval)
       {struct fuel}
  : decoded (pyval * string) :=
  match fuel with
  | O => Unsupported
  | S fuel' =>
      match scan_value fuel' depth s with
      | Decoded (v, tail) =>
          let acc' := (acc ++ [v])%list in
          match skip_ws tail with
          | String c1 tail1 =>
              if Ascii.eqb c1 "]" then Decoded (JArr acc', tail1)
              else if Ascii.eqb c1 "," then
                scan_elements fuel' depth (skip_ws tail1) acc'
              else Malformed
          | EmptyString => Malformed
          end
      | Malformed => Malformed
      | Unsupported => Unsupported
      end
  end.

(** [json.loads]: one value, white space around it, nothing after it. *)
Definition json_loads (s : string) : decoded pyval :=
  match scan_value (S (String.length s)) MAX_DEPTH (skip_ws s) with
  | Decoded (v, tail) =>
      match skip_ws tail with
      | EmptyString => Decoded v
      | String _ _ => Malformed
      end
  | Malformed => Malformed
  | Unsupported => Unsupported
  end.

(** A stored field as the Python value it is. *)
Definition opt_int (v : option Z) : pyval :=
  match v with
  | Some z => JInt z
  | None => JNull
  end.

(** *** [BatteryMonitor.load_state], on the pair
    [(self.last_range, self.last_charge)] and the content of the state file
    ([None]: no such file).  Every exception is swallowed and leaves what
    was assigned before it.  The result is [None] where the text is
    [Unsupported]. *)
Definition load_state (file : option string) (fields : pyval * pyval)
  : option (pyval * pyval) :=
  match file with
  | None => Some fields
  | Some content =>
      match json_loads content with
      | Decoded data =>
          match py_get1 data "last_range" with
          | Ok r =>
              match py_get1 data "last_charge" with
              | Ok c => Some (r, c)
              | Raise _ => Some (r, snd fields)
              end
          | Raise _ => Some fields
          end
      | Malformed => Some fields
      | Unsupported => None
      end
  end.

(** The two fields after [BatteryMonitor.__init__]: [None], [None], then
    [load_state]. *)
Definition startup_fields (file : option string) : option (pyval * pyval) :=
  load_state file (JNull, JNull).

(** A time stamp made of characters that stand for themselves in JSON, as
    [%Y-%m-%d %H:%M:%S] gives. *)
Definition plain_string (s : string) : bool := all_chars plain_char s.

(** A stored field whose decimal form has at most [MAX_DIGITS] digits. *)
Definition within_digits (v : option Z) : bool :=
  (String.length (json_int_or_null v) <=? MAX_DIGITS)%nat.

(** A text before which a number ends: the end of the input, or a character
    that continues neither its digits nor a fraction or an exponent. *)
Definition ends_number (t : string) : bool :=
  match t with
  | EmptyString => true
  | String c _ =>
      negb (is_digit c || Ascii.eqb c "." || Ascii.eqb c "e" || Ascii.eqb c "E")
  end.

(** A text the decoder reads as the value [v] wherever a number could end
    after it, and which starts with no white space. *)
Definition reads_as (text : string) (v : pyval) : Prop :=
  (forall t, skip_ws (text ++ t) = (text ++ t)%string) /\
  (forall f d t, ends_number t = true ->
     scan_value (S f) d (text ++ t) = Decoded (v, t)).

(** ** Further notions *)

(** A request to one of the two authentication endpoints. *)
Definition is_auth_request (r : request) : bool :=
  match r with
  | GetStatus _ _ => false
  | _ => true
  end.

(** The state in which a call leaves the world. *)
Definition state_after {A} (c : M A) (s : St) : St := snd (c s).

(** The value a sequence of items gives an id: that of the last item whose
    [id_key] entry equals the id. *)
Fixpoint last_value_for (id_key : string) (k : pyval) (items : list pyval)
  : option pyval :=
  match items with
  | [] => None
  | item :: rest =>
      match last_value_for id_key k rest with
      | Some v => Some v
      | None =>
          match py_get1 item id_key, py_get1 item "value" with
          | Ok i, Ok v => if key_eqb k i then Some v else None
          | _, _ => None
          end
      end
  end.

(** The information of the last active indicator filed under a key. *)
Fixpoint last_active_info (k : pyval) (items : list (pyval * pyval))
  : option pyval :=
  match items with
  | [] => None
  | (key, indicator) :: rest =>
      match last_active_info k rest with
      | Some v => Some v
      | None =>
          match py_get1 indicator "value",
                py_get indicator "additionalInfo" (JStr EmptyString) with
          | Ok value, Ok info =>
              if py_eq_int value 1 && key_eqb k key then Some info else None
          | _, _ => None
          end
      end
  end.

(** An entry of the window view: a string id and the two bounds. *)
Definition window_entry (e : pyval * pyval) : Prop :=
  exists id lower upper,
    e = (JStr id,
         JObj [ (JStr "lower_bound", lower); (JStr "upper_bound", upper) ]).

(** A desktop on macOS whose [os.system] never raises. *)
Definition mac_desktop : Desktop :=
  {| PLATFORM := "Darwin";
     win_notification_available := false;
     linux_notification_method := method_none;
     show_toast := fun _ _ _ => None;
     os_system := fun _ _ => None;
     gi_show := fun _ _ _ => Ok (JBool true);
     notify2_show := fun _ _ _ => Ok (JBool true);
     notify_send := fun _ _ _ => None |}.

(** A command endpoint that accepts every command with 202. *)
Definition accepting_commands (E : Env) : CommandEnv :=
  {| client_env := E;
     command_http := fun _ _ _ =>
       Responded (Response 202 EmptyString (Some (JObj []))) |}.

(** A peer whose primary authentication endpoint refuses with 403. *)
Definition login_refused_peer (n : nat) (r : request) : http_outcome :=
  match r with
  | PostFordAuth _ _ => refused 403 "forbidden"
  | PostTokenExchange _ => ok_json exchange_body
  | GetStatus _ _ => ok_json (status_doc (JInt 400) (JInt 80))
  end.

Definition login_refused_env : Env := sample_env login_refused_peer.

(** A peer whose exchange answer lacks [expires_in]. *)
Definition no_expiry_peer (n : nat) (r : request) : http_outcome :=
  match r with
  | PostFordAuth _ _ => ok_json ford_auth_body
  | PostTokenExchange _ =>
      ok_json (JObj [ (JStr "access_token", JStr "bearer-1") ])
  | GetStatus _ _ => ok_json (status_doc (JInt 400) (JInt 80))
  end.

(** A peer whose exchange answer has a string for [expires_in]. *)
Definition bad_expiry_peer (n : nat) (r : request) : http_outcome :=
  match r with
  | PostFordAuth _ _ => ok_json ford_auth_body
  | PostTokenExchange _ =>
      ok_json (JObj [ (JStr "access_token", JStr "bearer-1");
                      (JStr "expires_in", JStr "3600") ])
  | GetStatus _ _ => ok_json (status_doc (JInt 400) (JInt 80))
  end.

(** A world whose telemetry lacks the charge metric. *)
Definition no_charge_env : Env :=
  sample_env
    (healthy_peer
       (ok_json (JObj [ (JStr "metrics",
                         JObj [ (JStr "xevBatteryRange", metric (JInt 400)) ]) ]))).

(** Worlds for the two exchange answers above. *)
Definition no_expiry_env : Env := sample_env no_expiry_peer.
Definition bad_expiry_env : Env := sample_env bad_expiry_peer.

(** A peer whose telemetry drains with every request: the n-th request, if
    it asks for the status, is told [400 - 10 n] km and [80 - n] percent. *)
Definition draining_peer (n : nat) (r : request) : http_outcome :=
  match r with
  | PostFordAuth _ _ => ok_json ford_auth_body
  | PostTokenExchange _ => ok_json exchange_body
  | GetStatus _ _ =>
      ok_json (status_doc (JInt (400 - 10 * Z.of_nat n))
                          (JInt (80 - Z.of_nat n)))
  end.

Definition draining_env : Env := sample_env draining_peer.

Definition door_item (door value : string) : pyval :=
  JObj [ (JStr "vehicleDoor", JStr door); (JStr "value", JStr value) ].

(** A telemetry document whose door list names the driver door twice. *)
Definition doors_doc : pyval :=
  JObj [ (JStr "metrics",
          JObj [ (JStr "doorStatus",
                  JArr [ door_item "DRIVER" "AJAR";
                         door_item "PASSENGER" "CLOSED";
                         door_item "DRIVER" "CLOSED" ]);
                 (JStr "doorLockStatus",
                  JArr [ door_item "ALL_DOORS" "LOCKED" ]) ]) ].

(** A telemetry document with one active and one inactive indicator. *)
Definition indicators_doc : pyval :=
  JObj [ (JStr "metrics",
          JObj [ (JStr "indicators",
                  JObj [ (JStr "tirePressure",
                          JObj [ (JStr "value", JInt 1);
                                 (JStr "additionalInfo", JStr "low") ]);
                         (JStr "checkEngine",
                          JObj [ (JStr "value", JInt 0) ]) ]) ]) ].

(** A telemetry document with an odometer of 1000 km. *)
Definition odometer_doc : pyval :=
  JObj [ (JStr "metrics", JObj [ (JStr "odometer", metric (JInt 1000)) ]) ].

Definition window_item (name side : string) (lower upper : Z) : pyval :=
  JObj [ (JStr "vehicleWindow", JStr name);
         (JStr "vehicleSide", JStr side);
         (JStr "value",
          JObj [ (JStr "doubleRange",
                  JObj [ (JStr "lowerBound", JInt lower);
                         (JStr "upperBound", JInt upper) ]) ]) ].

(** A telemetry document with the two front windows. *)
Definition windows_doc : pyval :=
  JObj [ (JStr "metrics",
          JObj [ (JStr "windowStatus",
                  JArr [ window_item "UNSPECIFIED_FRONT" "DRIVER" 0 0;
                         window_item "UNSPECIFIED_FRONT" "PASSENGER" 0 40 ]) ]) ].

(** The view a projection gives where it succeeds. *)
Definition view_of (r : res pyval) : pyval :=
  match r with
  | Ok v => v
  | Raise _ => JNull
  end.

(** A telemetry document whose battery is at 0 percent. *)
Definition empty_battery_doc : pyval :=
  JObj [ (JStr "metrics",
          JObj [ (JStr "xevBatteryStateOfCharge", metric (JInt 0));
                 (JStr "xevBatteryRange", metric (JInt 0)) ]) ].

(** A telemetry document with one tire pressure and an empty list for the
    system status. *)
Definition empty_system_status_doc : pyval :=
  JObj [ (JStr "metrics",
          JObj [ (JStr "tirePressure",
                  JArr [ JObj [ (JStr "vehicleWheel", JStr "FRONT_LEFT");
                                (JStr "value", JInt 240) ] ]);
                 (JStr "tirePressureSystemStatus", JArr []) ]) ].

Definition empty_system_status_env : Env :=
  sample_env (healthy_peer (ok_json empty_system_status_doc)).

(** * Properties *)

(** ** Stepping through a method *)

Lemma bind_ok {A B} (c : M A) (k : A -> M B) s a s' :
  c s = (Ok a, s') -> bind c k s = k a s'.
Proof. intros H. unfold bind. now rewrite H. Qed.

Lemma bind_raise {A B} (c : M A) (k : A -> M B) s e s' :
  c s = (Raise e, s') -> bind c k s = (Raise e, s').
Proof. intros H. unfold bind. now rewrite H. Qed.

Lemma try_except_ok {A} (c : M A) h s a s' :
  c s = (Ok a, s') -> try_except c h s = (Ok a, s').
Proof. intros H. unfold try_except. now rewrite H. Qed.

Lemma try_except_raise {A} (c : M A) h s e s' :
  c s = (Raise e, s') -> try_except c h s = h e s'.
Proof. intros H. unfold try_except. now rewrite H. Qed.

(** ** Methods that leave the monitor's fields alone *)

Lemma keeps_ret {A} (a : A) : keeps_monitor (ret a).
Proof. intros s. reflexivity. Qed.

Lemma keeps_raise {A} (e : exn) : keeps_monitor (@raise A e).
Proof. intros s. reflexivity. Qed.

Lemma keeps_lift {A} (r : res A) : keeps_monitor (lift r).
Proof. intros s. reflexivity. Qed.

Lemma keeps_gets {A} (f : St -> A) : keeps_monitor (gets f).
Proof. intros s. reflexivity. Qed.

Lemma keeps_modify (f : St -> St) :
  (forall s, monitor_view (f s) = monitor_view s) -> keeps_monitor (modify f).
Proof. intros H s. apply H. Qed.

Lemma keeps_bind {A B} (c : M A) (k : A -> M B) :
  keeps_monitor c -> (forall a, keeps_monitor (k a)) -> keeps_monitor (bind c k).
Proof.
  intros Hc Hk s. unfold bind. specialize (Hc s).
  destruct (c s) as [[a | e] s1]; simpl in *.
  - rewrite Hk. exact Hc.
  - exact Hc.
Qed.

Lemma keeps_try_except {A} (c : M A) (h : exn -> M A) :
  keeps_monitor c -> (forall e, keeps_monitor (h e)) ->
  keeps_monitor (try_except c h).
Proof.
  intros Hc Hh s. unfold try_except. specialize (Hc s).
  destruct (c s) as [[a | e] s1]; simpl in *.
  - exact Hc.
  - rewrite Hh. exact Hc.
Qed.

Lemma keeps_rewrap {A} prefix (c : M A) :
  keeps_monitor c -> keeps_monitor (rewrap prefix c).
Proof.
  intros Hc. apply keeps_try_except; [exact Hc | intros e; apply keeps_raise].
Qed.

Lemma keeps_time_time E : keeps_monitor (time_time E).
Proof. intros s. reflexivity. Qed.

Lemma keeps_http_send E r : keeps_monitor (http_send E r).
Proof.
  intros s. unfold http_send.
  destruct (http E (length (sent s)) r); reflexivity.
Qed.

Lemma keeps_dump_status_file E : keeps_monitor (dump_status_file E).
Proof.
  intros s. unfold dump_status_file.
  destruct (status_dump E (length (sent s))); reflexivity.
Qed.

Create HintDb keeps.

#[local] Hint Resolve keeps_ret keeps_raise keeps_lift keeps_gets
  keeps_time_time keeps_http_send keeps_dump_status_file : keeps.

(** Walks down a method body, leaving only the primitive steps to [auto]. *)
Ltac keeps_walk :=
  repeat first
    [ apply keeps_rewrap
    | apply keeps_try_except; [ | intro ]
    | apply keeps_bind; [ | intro ]
    | apply keeps_modify; intro; reflexivity
    | match goal with
      | |- keeps_monitor (if ?b then _ else _) => destruct b
      end
    | solve [ auto with keeps ] ].

Lemma keeps_token_fresh E tok : keeps_monitor (token_fresh E tok).
Proof. unfold token_fresh. keeps_walk. Qed.

Lemma keeps_request_ford_token E : keeps_monitor (request_ford_token E).
Proof. unfold request_ford_token. keeps_walk. Qed.

Lemma keeps_get_ford_token E : keeps_monitor (get_ford_token E).
Proof.
  unfold get_ford_token.
  apply keeps_bind; [apply keeps_token_fresh | intros [|]].
  - apply keeps_gets.
  - apply keeps_request_ford_token.
Qed.

Lemma keeps_request_autonomic_token E ford :
  keeps_monitor (request_autonomic_token E ford).
Proof. unfold request_autonomic_token. keeps_walk. Qed.

Lemma keeps_get_autonomic_token E : keeps_monitor (get_autonomic_token E).
Proof.
  unfold get_autonomic_token.
  apply keeps_bind; [apply keeps_token_fresh | intros [|]].
  - apply keeps_gets.
  - apply keeps_bind; [apply keeps_get_ford_token | intros ford].
    apply keeps_request_autonomic_token.
Qed.

Lemma keeps_get_vehicle_status E : keeps_monitor (get_vehicle_status E).
Proof.
  unfold get_vehicle_status, get_auth_token.
  apply keeps_bind; [apply keeps_get_autonomic_token | intros token].
  keeps_walk.
Qed.

Lemma keeps_accessor E prefix project :
  keeps_monitor (accessor E prefix project).
Proof.
  unfold accessor.
  apply keeps_try_except.
  - apply keeps_bind; [apply keeps_get_vehicle_status | intros; apply keeps_lift].
  - intros e. apply keeps_ret.
Qed.

(** ** The poll cycle *)

(** Inverts the two lookups and the two roundings behind [reading_of]. *)
Lemma reading_of_inv battery_info r c :
  reading_of battery_info = Some (r, c) ->
  exists raw_range raw_charge,
    py_get1 battery_info "ev_battery_range_miles" = Ok raw_range /\
    py_get1 battery_info "ev_battery_actual_charge" = Ok raw_charge /\
    is_none raw_range || is_none raw_charge = false /\
    py_round raw_range = Ok r /\ py_round raw_charge = Ok c.
Proof.
  unfold reading_of. intros H.
  destruct (py_get1 battery_info "ev_battery_range_miles") as [rr | ?] eqn:Hrr;
    [ | discriminate ].
  destruct (py_get1 battery_info "ev_battery_actual_charge") as [rc | ?] eqn:Hrc;
    [ | discriminate ].
  destruct (is_none rr || is_none rc) eqn:Hnone; [ discriminate | ].
  destruct (py_round rr) as [r' | ?] eqn:Hr; [ | discriminate ].
  destruct (py_round rc) as [c' | ?] eqn:Hc; [ | discriminate ].
  inversion H; subst. exists rr, rc. repeat split; auto.
Qed.

(** With a reading in hand, [check_battery] is its closing comparison, run
    in the state the fetch left behind. *)
Lemma check_battery_on_reading E s s1 battery_info r c :
  get_battery_status E s = (Ok battery_info, s1) ->
  reading_of battery_info = Some (r, c) ->
  check_battery E s =
    try_except (compare_and_notify E r c) (fun _ => ret false) s1.
Proof.
  intros Hfetch Hread.
  destruct (reading_of_inv _ _ _ Hread)
    as (rr & rc & Hrr & Hrc & Hnone & Hr & Hc).
  unfold check_battery, try_except, bind, lift.
  rewrite Hfetch, Hrr, Hrc, Hnone, Hr, Hc. reflexivity.
Qed.

Lemma str_app_assoc (a b c : string) : ((a ++ b) ++ c = a ++ (b ++ c))%string.
Proof. induction a as [ | x a IH]; simpl; [reflexivity | now rewrite IH]. Qed.

Lemma str_app_empty_r (a : string) : (a ++ EmptyString = a)%string.
Proof. induction a as [ | x a IH]; simpl; [reflexivity | now rewrite IH]. Qed.

(** Writing chunks one after the other appends their concatenation. *)
Lemma run_ops_write chunks : forall acc,
  fold_left apply_op (map WriteChunk chunks) (Opened acc)
  = Opened (acc ++ String.concat EmptyString chunks)%string.
Proof.
  induction chunks as [ | ch rest IH]; intros acc.
  - simpl. now rewrite str_app_empty_r.
  - simpl map. simpl fold_left. rewrite IH.
    destruct rest as [ | ch' rest'].
    + simpl. now rewrite str_app_empty_r.
    + rewrite str_app_assoc. reflexivity.
Qed.

(** The file operations of a save, run to the end, leave the closed file
    with exactly the new record. *)
Lemma save_ops_complete r c stamp :
  run_ops (save_ops r c stamp) = Closed (state_record r c stamp).
Proof.
  unfold run_ops, save_ops, state_record.
  cbn [fold_left apply_op]. rewrite fold_left_app, run_ops_write.
  reflexivity.
Qed.

(** [save_state] in terms of the record. *)
Lemma save_state_spec E s :
  save_state E s
  = (Ok tt,
     log_save
       match disk_fault E (saves s) with
       | None =>
           Some (state_record (last_range s) (last_charge s)
                              (strftime E (saves s)))
       | Some O => config_file s
       | Some (S j) =>
           Some (substring 0 j (state_record (last_range s) (last_charge s)
                                             (strftime E (saves s))))
       end s).
Proof.
  unfold save_state. cbv zeta. rewrite save_ops_complete. reflexivity.
Qed.

(** The stores and the save at the end of both arms. *)
Lemma remember_spec E r c s :
  exists s', remember E r c s = (Ok tt, s') /\
    last_range s' = Some r /\ last_charge s' = Some c /\
    saves s' = S (saves s) /\ shown s' = shown s /\ slept s' = slept s /\
    sent s' = sent s /\
    (disk_fault E (saves s) = None ->
     config_file s' = Some (state_record (Some r) (Some c) (strftime E (saves s)))).
Proof.
  unfold remember, bind, modify. rewrite save_state_spec. simpl.
  eexists. split; [reflexivity | ]. simpl. repeat split.
  intros Hd. rewrite Hd. reflexivity.
Qed.

(** The closing comparison never raises, and this is what it does. *)
Lemma compare_and_notify_spec E r c s :
  exists fired s',
    compare_and_notify E r c s = (Ok fired, s') /\
    last_range s' = Some r /\ last_charge s' = Some c /\
    saves s' = S (saves s) /\
    (disk_fault E (saves s) = None ->
     config_file s' = Some (state_record (Some r) (Some c) (strftime E (saves s)))) /\
    match last_range s, last_charge s with
    | Some lr, Some lc =>
        fired = (negb (r =? lr) || negb (c =? lc)) /\
        shown s' =
          (shown s ++
             if fired then [(notification_title, notification_message r c lr lc)]
             else [])%list
    | _, _ => fired = false /\ shown s' = shown s
    end.
Proof.
  unfold compare_and_notify, bind, gets.
  destruct (last_range s) as [lr | ] eqn:Hlr;
    destruct (last_charge s) as [lc | ] eqn:Hlc.
  2-4: destruct (remember_spec E r c s)
         as (s' & Hrem & H1 & H2 & H3 & H4 & H5 & H6 & H7);
       rewrite Hrem; exists false, s'; simpl;
       do 5 (split; [solve [auto] | ]); split; auto.
  destruct (negb (r =? lr) || negb (c =? lc)) eqn:Hchg.
  - unfold show_notification.
    set (s0 := log_shown notification_title (notification_message r c lr lc) s).
    destruct (remember_spec E r c s0)
      as (s' & Hrem & H1 & H2 & H3 & H4 & H5 & H6 & H7).
    exists true, s'.
    destruct (notify_backend E (length (shown s)) notification_title
                (notification_message r c lr lc));
      rewrite Hrem; simpl;
      do 5 (split; [solve [auto] | ]); split; auto.
  - destruct (remember_spec E r c s)
      as (s' & Hrem & H1 & H2 & H3 & H4 & H5 & H6 & H7).
    rewrite Hrem. exists false, s'. simpl.
    do 5 (split; [solve [auto] | ]); split; auto.
    rewrite H4. now rewrite app_nil_r.
Qed.

(** [monitor_view] taken apart. *)
Lemma monitor_view_inv s s' :
  monitor_view s' = monitor_view s ->
  last_range s' = last_range s /\ last_charge s' = last_charge s /\
  shown s' = shown s /\ saves s' = saves s /\
  config_file s' = config_file s /\ slept s' = slept s.
Proof. unfold monitor_view. intros H. inversion H. repeat split; auto. Qed.

Lemma get_battery_status_keeps E s :
  monitor_view (snd (get_battery_status E s)) = monitor_view s.
Proof. apply keeps_accessor. Qed.

(** The change condition as a proposition. *)
Lemma changed_iff r c lr lc :
  negb (r =? lr) || negb (c =? lc) = true <-> (r <> lr \/ c <> lc).
Proof.
  rewrite orb_true_iff, !negb_true_iff, !Z.eqb_neq. reflexivity.
Qed.

(** C1: in a poll cycle that obtains a reading [(r, c)] (both values present
    in the battery view and rounded), [check_battery] asks for a notification
    if and only if the stored state has both [last_range] and [last_charge]
    present and [r] or [c] differs from the stored value.  In every such
    cycle the state is set to the new reading and saved; on a first run,
    with a stored field absent, nothing is shown. *)
Theorem C1_notification_iff_prior_and_changed
    (E : Env) (s s1 : St) (battery_info : pyval) (r c : Z) :
  get_battery_status E s = (Ok battery_info, s1) ->
  reading_of battery_info = Some (r, c) ->
  exists fired s2,
    check_battery E s = (Ok fired, s2) /\
    (fired = true <->
       exists lr lc, last_range s = Some lr /\ last_charge s = Some lc /\
                     (r <> lr \/ c <> lc)) /\
    (exists message,
        shown s2 =
          (shown s ++ if fired then [(notification_title, message)] else [])%list) /\
    last_range s2 = Some r /\ last_charge s2 = Some c /\
    saves s2 = S (saves s) /\
    (last_range s = None \/ last_charge s = None ->
       fired = false /\ shown s2 = shown s).
Proof.
  intros Hfetch Hread.
  rewrite (check_battery_on_reading _ _ _ _ _ _ Hfetch Hread).
  pose proof (get_battery_status_keeps E s) as Hkeep.
  rewrite Hfetch in Hkeep. simpl in Hkeep.
  apply monitor_view_inv in Hkeep.
  destruct Hkeep as (Klr & Klc & Kshown & Ksaves & _ & _).
  destruct (compare_and_notify_spec E r c s1)
    as (fired & s2 & Hrun & H1 & H2 & H3 & _ & Hcase).
  exists fired, s2.
  rewrite (try_except_ok _ _ _ _ _ Hrun).
  rewrite Klr, Klc, Kshown in Hcase. rewrite Ksaves in H3.
  split; [reflexivity | ].
  destruct (last_range s) as [lr | ] eqn:Hlr;
    destruct (last_charge s) as [lc | ] eqn:Hlc.
  - destruct Hcase as [Hfired Hshown].
    split; [ split | ].
    + intros Ht. exists lr, lc. split; [reflexivity | split; [reflexivity | ]].
      apply changed_iff. now rewrite <- Hfired.
    + intros (lr' & lc' & Ea & Eb & Hd).
      inversion Ea; inversion Eb; subst lr' lc'.
      rewrite Hfired. now apply changed_iff.
    + split; [ exists (notification_message r c lr lc); exact Hshown | ].
      do 3 (split; [assumption | ]).
      intros [K | K]; discriminate.
  - destruct Hcase as [Hfired Hshown]. subst fired.
    split; [ split | ].
    + discriminate.
    + intros (lr' & lc' & _ & Eb & _). discriminate.
    + split; [ exists EmptyString; now rewrite app_nil_r | ].
      do 3 (split; [assumption | ]). intros _. now split.
  - destruct Hcase as [Hfired Hshown]. subst fired.
    split; [ split | ].
    + discriminate.
    + intros (lr' & lc' & Ea & _ & _). discriminate.
    + split; [ exists EmptyString; now rewrite app_nil_r | ].
      do 3 (split; [assumption | ]). intros _. now split.
  - destruct Hcase as [Hfired Hshown]. subst fired.
    split; [ split | ].
    + discriminate.
    + intros (lr' & lc' & Ea & _ & _). discriminate.
    + split; [ exists EmptyString; now rewrite app_nil_r | ].
      do 3 (split; [assumption | ]). intros _. now split.
Qed.

(** ** What [json.load] makes of a saved record *)

(** A run of plain characters up to a quote is read as it stands. *)
Lemma scan_string_plain p rest :
  plain_string p = true ->
  scan_string (p ++ String dq_char rest) = Decoded (p, rest).
Proof.
  unfold plain_string.
  induction p as [ | x p IH]; intros H.
  - reflexivity.
  - cbn [all_chars] in H. apply andb_true_iff in H. destruct H as [Hx Hp].
    unfold plain_char in Hx.
    apply andb_true_iff in Hx. destruct Hx as [Hx H128].
    apply andb_true_iff in Hx. destruct Hx as [Hx H32].
    apply andb_true_iff in Hx. destruct Hx as [Hq Hb].
    apply negb_true_iff in Hq, Hb.
    apply Nat.leb_le in H32. apply Nat.ltb_lt in H128.
    cbn [append scan_string]. rewrite Hq, Hb.
    destruct (Nat.ltb_spec (nat_of_ascii x) 32) as [Hlt | _]; [lia | ].
    destruct (Nat.leb_spec 128 (nat_of_ascii x)) as [Hle | _]; [lia | ].
    now rewrite (IH Hp).
Qed.

(** The digits of a decimal number are spanned entirely. *)
Lemma span_digits_uint d t :
  ends_number t = true ->
  span_digits (NilEmpty.string_of_uint d ++ t) = (NilEmpty.string_of_uint d, t).
Proof.
  intros Ht.
  induction d; cbn [NilEmpty.string_of_uint append];
    try (cbn [span_digits]; change (is_digit _) with true; cbv iota;
         rewrite IHd; reflexivity).
  destruct t as [ | c t]; [reflexivity | ].
  cbn [span_digits]. cbn [ends_number] in Ht.
  apply negb_true_iff in Ht.
  repeat (apply orb_false_iff in Ht; destruct Ht as [Ht _]).
  now rewrite Ht.
Qed.

(** The decimal form of a positive number has no leading zero. *)
Lemma to_uint_no_leading_zero p d : Pos.to_uint p <> Decimal.D0 d.
Proof.
  intros H.
  assert (Hn : Decimal.unorm (Pos.to_uint p) = Pos.to_uint p).
  { pose proof (DecimalPos.Unsigned.to_of (Pos.to_uint p)) as Hto.
    rewrite DecimalPos.Unsigned.of_to in Hto. now symmetry. }
  rewrite H in Hn. rewrite DecimalFacts.unorm_D0 in Hn.
  assert (Hd : d <> Decimal.Nil).
  { intros ->. apply (DecimalPos.Unsigned.to_uint_nonzero p). exact H. }
  pose proof (DecimalFacts.nb_digits_unorm d Hd) as Hle. rewrite Hn in Hle.
  cbn [Decimal.nb_digits] in Hle. lia.
Qed.

(** A minus or a digit sends [scan_value] to [scan_number]. *)
Lemma scan_value_number f d c rest :
  Ascii.eqb c "-" || is_digit c = true ->
  scan_value (S f) d (String c rest) = scan_number (String c rest).
Proof.
  intros H. cbn [scan_value].
  repeat match goal with
  | |- context [Ascii.eqb c ?x] =>
      lazymatch x with
      | "-"%char => fail
      | _ => destruct (Ascii.eqb_spec c x) as [-> | _];
             [ vm_compute in H; discriminate | ]
      end
  end.
  now rewrite H.
Qed.

Lemma scan_number_digits sign u t :
  (sign = EmptyString \/ sign = "-") ->
  u <> Decimal.Nil ->
  (u = Decimal.D0 Decimal.Nil \/ forall d, u <> Decimal.D0 d) ->
  ends_number t = true ->
  (String.length (NilEmpty.string_of_uint u) <= MAX_DIGITS)%nat ->
  scan_number (sign ++ NilEmpty.string_of_uint u ++ t)
  = match NilZero.int_of_string (sign ++ NilEmpty.string_of_uint u) with
    | Some i => Decoded (JInt (Z.of_int i), t)
    | None => Unsupported
    end.
Proof.
  intros Hsign Hnil Hlead Ht Hlen.
  assert (Hhead : exists c ds, NilEmpty.string_of_uint u = String c ds
            /\ Ascii.eqb c "-" = false
            /\ (Ascii.eqb c "0" && negb (String.eqb ds EmptyString) = false)).
  { destruct Hlead as [-> | Hlead].
    - exists "0"%char, EmptyString. repeat split.
    - destruct u; try congruence; try (now destruct (Hlead u));
        cbn [NilEmpty.string_of_uint]; eexists _, _; repeat split. }
  destruct Hhead as (c & ds & Hu & Hminus & Hzero).
  assert (Hspan : span_digits (NilEmpty.string_of_uint u ++ t)
                  = (NilEmpty.string_of_uint u, t))
    by now apply span_digits_uint.
  assert (Hmax : (MAX_DIGITS <? String.length (NilEmpty.string_of_uint u))%nat
                 = false) by now apply Nat.ltb_ge.
  unfold scan_number.
  assert (Hsplit :
    match (sign ++ NilEmpty.string_of_uint u ++ t)%string with
    | String c0 rest =>
        if Ascii.eqb c0 "-" then ("-", rest)
        else (EmptyString, (sign ++ NilEmpty.string_of_uint u ++ t)%string)
    | EmptyString => (EmptyString, (sign ++ NilEmpty.string_of_uint u ++ t)%string)
    end = (sign, (NilEmpty.string_of_uint u ++ t)%string)).
  { destruct Hsign as [-> | ->].
    - cbn [append]. rewrite Hu. cbn [append]. now rewrite Hminus.
    - reflexivity. }
  rewrite Hsplit. rewrite Hspan. rewrite Hu in *. rewrite Hzero, Hmax.
  destruct t as [ | x t]; [reflexivity | ].
  cbn [ends_number] in Ht. apply negb_true_iff in Ht.
  apply orb_false_iff in Ht. destruct Ht as [Ht HE].
  apply orb_false_iff in Ht. destruct Ht as [Ht He].
  apply orb_false_iff in Ht. destruct Ht as [_ Hdot].
  now rewrite Hdot, He, HE.
Qed.

(** [scan_number] reads back what [str] wrote for an integer. *)
Lemma scan_number_str_of_Z z t :
  ends_number t = true ->
  (String.length (str_of_Z z) <= MAX_DIGITS)%nat ->
  scan_number (str_of_Z z ++ t) = Decoded (JInt z, t).
Proof.
  intros Ht Hlen. unfold str_of_Z in *.
  destruct z as [ | p | p]; cbn [Z.to_int NilZero.string_of_int] in *.
  - change (NilZero.string_of_uint Decimal.zero ++ t)
      with (EmptyString ++ NilEmpty.string_of_uint (Decimal.D0 Decimal.Nil) ++ t).
    rewrite scan_number_digits; auto; try discriminate.
  - assert (Hu : NilZero.string_of_uint (Pos.to_uint p)
                 = NilEmpty.string_of_uint (Pos.to_uint p)).
    { pose proof (DecimalPos.Unsigned.to_uint_nonnil p).
      now destruct (Pos.to_uint p). }
    rewrite Hu in *.
    change (NilEmpty.string_of_uint (Pos.to_uint p) ++ t)
      with (EmptyString ++ NilEmpty.string_of_uint (Pos.to_uint p) ++ t).
    rewrite scan_number_digits; auto.
    + cbn [append]. rewrite <- Hu.
      change (NilZero.string_of_uint (Pos.to_uint p))
        with (NilZero.string_of_int (Decimal.Pos (Pos.to_uint p))).
      rewrite NilZero.isi.
      * change (Decimal.Pos (Pos.to_uint p)) with (Z.to_int (Z.pos p)).
        now rewrite DecimalZ.of_to.
      * intros [= H]. now apply (DecimalPos.Unsigned.to_uint_nonnil p).
      * discriminate.
    + apply DecimalPos.Unsigned.to_uint_nonnil.
    + right. apply to_uint_no_leading_zero.
  - assert (Hu : NilZero.string_of_uint (Pos.to_uint p)
                 = NilEmpty.string_of_uint (Pos.to_uint p)).
    { pose proof (DecimalPos.Unsigned.to_uint_nonnil p).
      now destruct (Pos.to_uint p). }
    rewrite Hu in *.
    change (String "-" (NilEmpty.string_of_uint (Pos.to_uint p)) ++ t)
      with ("-" ++ NilEmpty.string_of_uint (Pos.to_uint p) ++ t).
    rewrite scan_number_digits; auto.
    + cbn [append]. rewrite <- Hu.
      change (String "-" (NilZero.string_of_uint (Pos.to_uint p)))
        with (NilZero.string_of_int (Decimal.Neg (Pos.to_uint p))).
      rewrite NilZero.isi.
      * change (Decimal.Neg (Pos.to_uint p)) with (Z.to_int (Z.neg p)).
        now rewrite DecimalZ.of_to.
      * discriminate.
      * intros [= H]. now apply (DecimalPos.Unsigned.to_uint_nonnil p).
    + apply DecimalPos.Unsigned.to_uint_nonnil.
    + right. apply to_uint_no_leading_zero.
    + cbn [String.length] in Hlen. lia.
Qed.

Lemma str_of_Z_head z :
  exists c rest, str_of_Z z = String c rest
                 /\ Ascii.eqb c "-" || is_digit c = true.
Proof.
  unfold str_of_Z.
  destruct z as [ | p | p]; cbn [Z.to_int NilZero.string_of_int].
  - eexists _, _. split; reflexivity.
  - pose proof (DecimalPos.Unsigned.to_uint_nonnil p).
    destruct (Pos.to_uint p); try congruence;
      eexists _, _; split; reflexivity.
  - eexists _, _. split; reflexivity.
Qed.

Lemma scan_value_str_of_Z f d z t :
  ends_number t = true ->
  (String.length (str_of_Z z) <= MAX_DIGITS)%nat ->
  scan_value (S f) d (str_of_Z z ++ t) = Decoded (JInt z, t).
Proof.
  intros Ht Hlen.
  destruct (str_of_Z_head z) as (c & rest & Hs & Hc).
  rewrite <- (scan_number_str_of_Z z t Ht Hlen).
  rewrite Hs. cbn [append]. now apply scan_value_number.
Qed.

Lemma skip_ws_str_of_Z z t : skip_ws (str_of_Z z ++ t) = (str_of_Z z ++ t)%string.
Proof.
  destruct (str_of_Z_head z) as (c & rest & Hs & Hc).
  rewrite Hs. cbn [append skip_ws].
  replace (is_ws c) with false; [reflexivity | ].
  unfold is_ws.
  repeat match goal with
  | |- context [Ascii.eqb c ?x] =>
      destruct (Ascii.eqb_spec c x) as [-> | _];
        [ vm_compute in Hc; discriminate | ]
  end.
  reflexivity.
Qed.

(** What [json.dump] writes for a stored field is read back as the field. *)
Lemma field_reads_as v :
  within_digits v = true -> reads_as (json_int_or_null v) (opt_int v).
Proof.
  unfold within_digits. intros Hlen.
  apply Nat.leb_le in Hlen.
  destruct v as [z | ]; cbn [json_int_or_null opt_int] in *; split.
  - apply skip_ws_str_of_Z.
  - intros f d t Ht. now apply scan_value_str_of_Z.
  - reflexivity.
  - intros f d t _. destruct t; reflexivity.
Qed.

(** The record, piece by piece. *)
Lemma record_text r c stamp :
  state_record r c stamp
  = "{" ++ dq ++ "last_range" ++ dq ++ ": " ++ json_int_or_null r
     ++ ", " ++ dq ++ "last_charge" ++ dq ++ ": " ++ json_int_or_null c
     ++ ", " ++ dq ++ "last_update" ++ dq ++ ": " ++ dq ++ stamp ++ dq ++ "}".
Proof.
  unfold state_record, state_chunks, json_quote. cbn [String.concat].
  repeat rewrite str_app_assoc. reflexivity.
Qed.

Lemma string_value f d s t :
  plain_string s = true ->
  scan_value (S f) d (dq ++ s ++ dq ++ t) = Decoded (JStr s, t).
Proof.
  intros Hs.
  change (scan_value (S f) d (dq ++ s ++ dq ++ t))
    with (match scan_string (s ++ String dq_char t) with
          | Decoded (str, tail) => Decoded (JStr str, tail)
          | Malformed => Malformed
          | Unsupported => Unsupported
          end).
  now rewrite scan_string_plain.
Qed.

(** The steps of the object loop over a member [key: value]. *)
Lemma object_open f d rest :
  scan_value (S f) (S d) (String "{" (String dq_char rest))
  = scan_members f d rest [].
Proof. reflexivity. Qed.

Lemma member_more f d key X v rest acc :
  plain_string key = true ->
  skip_ws X = X ->
  scan_value f d X = Decoded (v, String "," (String " " (String dq_char rest))) ->
  scan_members (S f) d (key ++ String dq_char (String ":" (String " " X))) acc
  = scan_members f d rest (assoc_set (JStr key) v acc).
Proof.
  intros Hkey Hws Hv. cbn [scan_members].
  rewrite (scan_string_plain key _ Hkey).
  change (skip_ws (String ":" (String " " X))) with (String ":" (String " " X)).
  change (Ascii.eqb ":" ":") with true. cbv iota.
  change (skip_ws (String " " X)) with (skip_ws X).
  rewrite Hws, Hv. reflexivity.
Qed.

Lemma member_last f d key X v t acc :
  plain_string key = true ->
  skip_ws X = X ->
  scan_value f d X = Decoded (v, String "}" t) ->
  scan_members (S f) d (key ++ String dq_char (String ":" (String " " X))) acc
  = Decoded (JObj (assoc_set (JStr key) v acc), t).
Proof.
  intros Hkey Hws Hv. cbn [scan_members].
  rewrite (scan_string_plain key _ Hkey).
  change (skip_ws (String ":" (String " " X))) with (String ":" (String " " X)).
  change (Ascii.eqb ":" ":") with true. cbv iota.
  change (skip_ws (String " " X)) with (skip_ws X).
  rewrite Hws, Hv. reflexivity.
Qed.

Lemma scan_record f d R C vR vC stamp t :
  reads_as R vR -> reads_as C vC -> plain_string stamp = true ->
  scan_value (S (S (S (S (S f))))) (S d)
    ("{" ++ dq ++ "last_range" ++ dq ++ ": " ++ R
     ++ ", " ++ dq ++ "last_charge" ++ dq ++ ": " ++ C
     ++ ", " ++ dq ++ "last_update" ++ dq ++ ": " ++ dq ++ stamp ++ dq ++ "}" ++ t)
  = Decoded (JObj [ (JStr "last_range", vR); (JStr "last_charge", vC);
                    (JStr "last_update", JStr stamp) ], t).
Proof.
  intros [HRs HRv] [HCs HCv] Hstamp.
  etransitivity; [ apply object_open | ].
  etransitivity;
    [ eapply (member_more _ _ "last_range");
      [ reflexivity | apply HRs | apply HRv; reflexivity ] | ].
  etransitivity;
    [ eapply (member_more _ _ "last_charge");
      [ reflexivity | apply HCs | apply HCv; reflexivity ] | ].
  etransitivity;
    [ eapply (member_last _ _ "last_update");
      [ reflexivity | | ] | ].
  - reflexivity.
  - now apply string_value.
  - reflexivity.
Qed.

(** [json.loads] of a saved record is the dict that was dumped. *)
Lemma json_loads_record r c stamp :
  within_digits r = true -> within_digits c = true ->
  plain_string stamp = true ->
  json_loads (state_record r c stamp)
  = Decoded (JObj [ (JStr "last_range", opt_int r);
                    (JStr "last_charge", opt_int c);
                    (JStr "last_update", JStr stamp) ]).
Proof.
  intros Hr Hc Hstamp. unfold json_loads. rewrite record_text.
  match goal with
  | |- context [scan_value ?a ?b ?t] =>
      assert (Hscan : scan_value a b t
                = Decoded (JObj [ (JStr "last_range", opt_int r);
                                  (JStr "last_charge", opt_int c);
                                  (JStr "last_update", JStr stamp) ],
                           EmptyString))
  end.
  { apply (scan_record _ 63 (json_int_or_null r) (json_int_or_null c)
             (opt_int r) (opt_int c) stamp EmptyString);
      auto using field_reads_as. }
  rewrite Hscan. reflexivity.
Qed.

(** ** The delta message *)

Lemma prefix_app_l n : forall a b,
  String.prefix n a = true -> String.prefix n (a ++ b)%string = true.
Proof.
  induction n as [ | x n IH]; intros a b H.
  - destruct a; destruct b; reflexivity.
  - destruct a as [ | y a]; simpl in H; [discriminate | ].
    simpl. destruct (ascii_dec x y); [ | discriminate ]. now apply IH.
Qed.

Lemma prefix_refl_app n b : String.prefix n (n ++ b)%string = true.
Proof.
  induction n as [ | x n IH]; simpl.
  - destruct b; reflexivity.
  - destruct (ascii_dec x x); [exact IH | congruence].
Qed.

Lemma contains_str_unfold n hay :
  contains_str n hay =
    if String.prefix n hay then true
    else match hay with
         | EmptyString => false
         | String _ rest => contains_str n rest
         end.
Proof. destruct hay; reflexivity. Qed.

Lemma contains_app_l n : forall a b,
  contains_str n a = true -> contains_str n (a ++ b)%string = true.
Proof.
  induction a as [ | x a IH]; intros b H; rewrite contains_str_unfold in H.
  - destruct (String.prefix n EmptyString) eqn:Hp; [ | discriminate ].
    rewrite contains_str_unfold.
    now rewrite (prefix_app_l n EmptyString b Hp).
  - change (String x a ++ b)%string with (String x (a ++ b)).
    rewrite contains_str_unfold.
    destruct (String.prefix n (String x (a ++ b))) eqn:Hq; [reflexivity | ].
    destruct (String.prefix n (String x a)) eqn:Hp.
    + assert (K : String.prefix n (String x (a ++ b)) = true)
        by exact (prefix_app_l n (String x a) b Hp).
      congruence.
    + now apply IH.
Qed.

Lemma contains_app_r n : forall a b,
  contains_str n b = true -> contains_str n (a ++ b)%string = true.
Proof.
  induction a as [ | x a IH]; intros b H; [exact H | ].
  change (String x a ++ b)%string with (String x (a ++ b)).
  rewrite contains_str_unfold.
  destruct (String.prefix n (String x (a ++ b))); [reflexivity | now apply IH].
Qed.

Lemma contains_head n b : contains_str n (n ++ b)%string = true.
Proof. rewrite contains_str_unfold. now rewrite prefix_refl_app. Qed.

Lemma direction_up d : 0 < d -> direction d = "increased".
Proof. intros H. unfold direction. now rewrite (proj2 (Z.gtb_lt d 0) H). Qed.

Lemma direction_down d : d < 0 -> direction d = "decreased".
Proof.
  intros H. unfold direction.
  destruct (d >? 0) eqn:K; [ | reflexivity ].
  apply Z.gtb_lt in K. lia.
Qed.

(** A clause of the message with its final full stop and blank split off. *)
Lemma clause_split (head dir amount unit_ : string) :
  (head ++ dir ++ " by " ++ amount ++ unit_ ++ ". ")%string
  = ((head ++ dir ++ " by " ++ amount ++ unit_) ++ ". ")%string.
Proof. now rewrite !str_app_assoc. Qed.

Lemma range_clause_names_change r lr :
  r <> lr ->
  contains_str
    ("Range has " ++ (if lr <? r then "increased" else "decreased") ++ " by "
       ++ str_of_Z (Z.abs (r - lr)) ++ " miles")
    (range_clause r lr) = true.
Proof.
  intros Hne. unfold range_clause.
  rewrite (proj2 (Z.eqb_neq r lr) Hne). simpl negb. cbv iota.
  replace (direction (r - lr))
    with (if lr <? r then "increased" else "decreased").
  - change " miles. " with (" miles" ++ ". ")%string.
    rewrite clause_split. apply contains_head.
  - destruct (Z.ltb_spec lr r).
    + symmetry. apply direction_up. lia.
    + symmetry. apply direction_down. lia.
Qed.

Lemma charge_clause_names_change c lc :
  c <> lc ->
  contains_str
    ("Charge has " ++ (if lc <? c then "increased" else "decreased") ++ " by "
       ++ str_of_Z (Z.abs (c - lc)) ++ "%")
    (charge_clause c lc) = true.
Proof.
  intros Hne. unfold charge_clause.
  rewrite (proj2 (Z.eqb_neq c lc) Hne). simpl negb. cbv iota.
  replace (direction (c - lc))
    with (if lc <? c then "increased" else "decreased").
  - change "%. " with ("%" ++ ". ")%string.
    rewrite clause_split. apply contains_head.
  - destruct (Z.ltb_spec lc c).
    + symmetry. apply direction_up. lia.
    + symmetry. apply direction_down. lia.
Qed.

(** Whatever the change message holds, the notification message holds. *)
Lemma message_holds_changes n r c lr lc :
  contains_str n (change_message r c lr lc) = true ->
  contains_str n (notification_message r c lr lc) = true.
Proof.
  intros H. unfold notification_message.
  do 8 apply contains_app_r. exact H.
Qed.

(** C6: when the stored state has both values and the reading [(r, c)]
    differs from it, [check_battery] reports a change and asks for one
    notification whose message names every differing field, with
    "increased" or "decreased" as the new value is above or below the stored
    one and with the absolute difference; for stored 250 / 80 and reading
    245 / 82 the message contains "Range has decreased by 5 miles" and
    "Charge has increased by 2%".  Whatever the notification back end of
    [E] answers or raises, the state is set to the reading and saved: with
    no disk fault the file holds the text
    [{"last_range": r, "last_charge": c, "last_update": "<time stamp>"}],
    from which [load_state] reads the reading back into the two fields. *)
Theorem C6_delta_message_and_save_regardless_of_notifier
    (E : Env) (s s1 : St) (battery_info : pyval) (r c lr lc : Z) :
  get_battery_status E s = (Ok battery_info, s1) ->
  reading_of battery_info = Some (r, c) ->
  last_range s = Some lr ->
  last_charge s = Some lc ->
  r <> lr \/ c <> lc ->
  (exists s2,
     check_battery E s = (Ok true, s2) /\
     shown s2 =
       (shown s ++ [(notification_title, notification_message r c lr lc)])%list /\
     last_range s2 = Some r /\ last_charge s2 = Some c /\
     saves s2 = S (saves s) /\
     (disk_fault E (saves s) = None ->
      config_file s2
      = Some ("{" ++ dq ++ "last_range" ++ dq ++ ": " ++ str_of_Z r
                ++ ", " ++ dq ++ "last_charge" ++ dq ++ ": " ++ str_of_Z c
                ++ ", " ++ dq ++ "last_update" ++ dq ++ ": "
                ++ dq ++ strftime E (saves s) ++ dq ++ "}") /\
      (plain_string (strftime E (saves s)) = true ->
       within_digits (Some r) = true ->
       within_digits (Some c) = true ->
       forall fields,
         load_state (config_file s2) fields = Some (JInt r, JInt c)))) /\
  (r <> lr ->
   contains_str
     ("Range has " ++ (if lr <? r then "increased" else "decreased") ++ " by "
        ++ str_of_Z (Z.abs (r - lr)) ++ " miles")
     (notification_message r c lr lc) = true) /\
  (c <> lc ->
   contains_str
     ("Charge has " ++ (if lc <? c then "increased" else "decreased") ++ " by "
        ++ str_of_Z (Z.abs (c - lc)) ++ "%")
     (notification_message r c lr lc) = true) /\
  contains_str "Range has decreased by 5 miles"
    (notification_message 245 82 250 80) = true /\
  contains_str "Charge has increased by 2%"
    (notification_message 245 82 250 80) = true.
Proof.
  intros Hfetch Hread Hlr Hlc Hdiff.
  split; [ | split; [ | split; [ | split ] ] ].
  - rewrite (check_battery_on_reading _ _ _ _ _ _ Hfetch Hread).
    pose proof (get_battery_status_keeps E s) as Hkeep.
    rewrite Hfetch in Hkeep. simpl in Hkeep.
    apply monitor_view_inv in Hkeep.
    destruct Hkeep as (Klr & Klc & Kshown & Ksaves & _ & _).
    destruct (compare_and_notify_spec E r c s1)
      as (fired & s2 & Hrun & H1 & H2 & H3 & H4 & Hcase).
    rewrite Klr, Klc, Hlr, Hlc, Kshown in Hcase.
    destruct Hcase as [Hfired Hshown].
    rewrite (proj2 (changed_iff r c lr lc) Hdiff) in Hfired. subst fired.
    exists s2. rewrite (try_except_ok _ _ _ _ _ Hrun).
    rewrite Ksaves in H3, H4.
    split; [reflexivity | ].
    do 4 (split; [assumption | ]).
    intros Hd. specialize (H4 Hd). rewrite H4. split.
    + f_equal. apply record_text.
    + intros Hstamp Hr Hc fields. unfold load_state.
      rewrite (json_loads_record _ _ _ Hr Hc Hstamp). reflexivity.
  - intros Hne. apply message_holds_changes. unfold change_message.
    apply contains_app_l. now apply range_clause_names_change.
  - intros Hne. apply message_holds_changes. unfold change_message.
    apply contains_app_r. now apply charge_clause_names_change.
  - vm_compute. reflexivity.
  - vm_compute. reflexivity.
Qed.

(** ** Failures of the fetch *)

(** A telemetry answer other than 200 makes [get_vehicle_status] raise. *)
Lemma get_vehicle_status_refused E s s0 token resp :
  get_auth_token E s = (Ok token, s0) ->
  http E (length (sent s0)) (GetStatus (vin E) token) = Responded resp ->
  status_code resp <> 200 ->
  get_vehicle_status E s =
    (Raise (Exn "Exception"
                ("Vehicle status request failed: Status request failed: "
                   ++ str_of_Z (status_code resp) ++ " - " ++ text resp)),
     log_request (GetStatus (vin E) token) s0).
Proof.
  intros Htok Hresp Hcode.
  unfold get_vehicle_status, bind, rewrap, try_except, http_send, raise.
  rewrite Htok, Hresp.
  now rewrite (proj2 (Z.eqb_neq _ _) Hcode).
Qed.

(** A failed fetch comes out of an accessor as a string. *)
Lemma accessor_on_failure E prefix project s e s1 :
  get_vehicle_status E s = (Raise e, s1) ->
  accessor E prefix project s = (Ok (JStr (prefix ++ exn_msg e)), s1).
Proof.
  intros H. unfold accessor, try_except, bind. now rewrite H.
Qed.

(** An exception of the projection itself comes out as a string too. *)
Lemma accessor_on_projection_failure E prefix project s status e s1 :
  get_vehicle_status E s = (Ok status, s1) ->
  project status = Raise e ->
  accessor E prefix project s = (Ok (JStr (prefix ++ exn_msg e)), s1).
Proof.
  intros H Hp. unfold accessor, try_except, bind, lift. now rewrite H, Hp.
Qed.

(** [check_battery] swallows the failure and answers [False]. *)
Lemma check_battery_on_failure E s e s1 :
  get_vehicle_status E s = (Raise e, s1) ->
  check_battery E s = (Ok false, s1).
Proof.
  intros H. unfold check_battery, try_except, bind, get_battery_status.
  rewrite (accessor_on_failure _ _ _ _ _ _ H). reflexivity.
Qed.

Lemma check_battery_never_raises E : never_raises (check_battery E).
Proof.
  intros s. unfold check_battery, try_except.
  match goal with |- context [ match ?c s with _ => _ end ] =>
    destruct (c s) as [[b | e] s'] end; simpl; eauto.
Qed.

(** A pass of the loop never raises, whatever the interval: a failing
    [time.sleep(interval)] lands in the 30 second arm. *)
Lemma run_iteration_never_raises E interval :
  never_raises (run_iteration E interval).
Proof.
  intros s. unfold run_iteration, try_except, bind.
  destruct (check_battery_never_raises E s) as [b Hb].
  destruct (check_battery E s) as [[b' | e] s1]; simpl in Hb; [ | discriminate ].
  unfold time_sleep. destruct (interval <? 0); simpl; eauto.
Qed.

(** So the loop goes on to its next pass, as many passes as one asks for. *)
Lemma run_never_raises E interval n : never_raises (run E interval n).
Proof.
  induction n as [ | n IH]; intros s; simpl.
  - exists tt. reflexivity.
  - unfold bind.
    destruct (run_iteration_never_raises E interval s) as [u Hu].
    destruct (run_iteration E interval s) as [[u' | e] s1]; simpl in Hu;
      [ | discriminate ].
    apply IH.
Qed.

Lemma keeps_get_vehicle_status_at E s :
  monitor_view (snd (get_vehicle_status E s)) = monitor_view s.
Proof. apply keeps_get_vehicle_status. Qed.

(** C2, as the code has it: when the token is obtained and the telemetry
    endpoint answers with a status other than 200 (401 for one), the error
    raised by the fetch is turned into a string by [get_battery_status] and
    the resulting failure is caught inside [check_battery], which answers
    [False]; nothing reaches the [except] arm of [run].  The loop then sleeps
    the configured interval, and the stored reading, the state file, the
    saves and the notifications are as they were before the cycle. *)
Theorem C2_refused_fetch_sleeps_interval_state_unmodified
    (E : Env) (interval : Z) (s s0 : St) (token : pyval) (resp : response) :
  0 <= interval ->
  get_auth_token E s = (Ok token, s0) ->
  http E (length (sent s0)) (GetStatus (vin E) token) = Responded resp ->
  status_code resp <> 200 ->
  let s1 := log_request (GetStatus (vin E) token) s0 in
  check_battery E s = (Ok false, s1) /\
  run_iteration E interval s = (Ok tt, log_sleep interval s1) /\
  slept (log_sleep interval s1) = (slept s ++ [interval])%list /\
  last_range s1 = last_range s /\ last_charge s1 = last_charge s /\
  config_file s1 = config_file s /\ saves s1 = saves s /\
  shown s1 = shown s.
Proof.
  intros Hint Htok Hresp Hcode s1.
  pose proof (get_vehicle_status_refused _ _ _ _ _ Htok Hresp Hcode) as Hfail.
  fold s1 in Hfail.
  pose proof (check_battery_on_failure _ _ _ _ Hfail) as Hcheck.
  pose proof (keeps_get_vehicle_status_at E s) as Hkeep.
  rewrite Hfail in Hkeep. simpl in Hkeep.
  apply monitor_view_inv in Hkeep.
  destruct Hkeep as (Klr & Klc & Kshown & Ksaves & Kfile & Kslept).
  split; [exact Hcheck | ].
  split.
  - unfold run_iteration, try_except, bind. rewrite Hcheck.
    unfold time_sleep.
    destruct (interval <? 0) eqn:Hneg; [ apply Z.ltb_lt in Hneg; lia | ].
    reflexivity.
  - split.
    { change (slept (log_sleep interval s1)) with (slept s1 ++ [interval])%list.
      now rewrite Kslept. }
    repeat split; assumption.
Qed.

(** ** The token cache *)

Lemma Qlt_bool_true a b : Qlt_bool a b = true <-> (a < b)%Q.
Proof.
  unfold Qlt_bool. rewrite negb_true_iff.
  split.
  - intros H. apply Qnot_le_lt. intros K.
    apply Qle_bool_iff in K. congruence.
  - intros H. destruct (Qle_bool b a) eqn:K; [ | reflexivity ].
    apply Qle_bool_iff in K. exfalso. exact (Qlt_not_le _ _ H K).
Qed.

Lemma Qlt_bool_false a b : Qlt_bool a b = false <-> (b <= a)%Q.
Proof.
  unfold Qlt_bool. rewrite negb_false_iff. apply Qle_bool_iff.
Qed.

(** The cache test, spelled out. *)
Lemma token_fresh_spec E tok s :
  token_fresh E tok s =
    if truthy (tok s) then
      (Ok (Qlt_bool (clock E (reads s)) (token_expiration s)), tick_clock s)
    else (Ok false, s).
Proof.
  unfold token_fresh, bind, gets, time_time, ret.
  destruct (truthy (tok s)); reflexivity.
Qed.

(** Once the shared time stamp has passed, no cache test succeeds, and the
    time stamp stays passed in the state the test leaves. *)
Lemma token_fresh_expired E tok s :
  clock_monotone E ->
  (token_expiration s <= clock E (reads s))%Q ->
  exists s1,
    token_fresh E tok s = (Ok false, s1) /\
    (token_expiration s1 <= clock E (reads s1))%Q /\
    sent s1 = sent s /\ ford_token s1 = ford_token s /\
    autonomic_token s1 = autonomic_token s /\
    token_expiration s1 = token_expiration s.
Proof.
  intros Hmono Hexp. rewrite token_fresh_spec.
  destruct (truthy (tok s)).
  - exists (tick_clock s).
    rewrite (proj2 (Qlt_bool_false _ _) Hexp).
    split; [reflexivity | ]. split; [ | repeat split ].
    simpl. eapply Qle_trans; [exact Hexp | ]. apply Hmono. lia.
  - exists s. repeat split; auto.
Qed.

(** The primary authentication sends its one request whatever comes back. *)
Lemma request_ford_token_sent E s :
  sent (snd (request_ford_token E s))
  = (sent s ++ [PostFordAuth (username E) (password E)])%list.
Proof.
  unfold request_ford_token, rewrap, try_except, bind, http_send, lift,
    modify, raise, gets, time_time.
  destruct (http E (length (sent s)) _) as [resp | msg]; [ | reflexivity ].
  destruct (status_code resp =? 200); [ | reflexivity ].
  destruct (response_json resp) as [data | e]; [ | reflexivity ].
  destruct (py_get1 data "status") as [st | e]; [ | reflexivity ].
  destruct (py_eq_int st 200).
  - destruct (py_get1 data "access_token"); reflexivity.
  - destruct (py_get data "message" (JStr "Unknown error")); reflexivity.
Qed.

(** The token exchange sends its one request whatever comes back. *)
Lemma request_autonomic_token_sent E ford s :
  sent (snd (request_autonomic_token E ford s))
  = (sent s ++ [PostTokenExchange ford])%list.
Proof.
  unfold request_autonomic_token, rewrap, try_except, bind, http_send, lift,
    modify, raise, gets, time_time.
  destruct (http E (length (sent s)) _) as [resp | msg]; [ | reflexivity ].
  destruct (status_code resp =? 200); [ | reflexivity ].
  destruct (response_json resp) as [data | e]; [ | reflexivity ].
  destruct (py_get1 data "access_token") as [tok | e]; [ | reflexivity ].
  destruct (py_get data "expires_in" (JInt 3600)) as [v | e]; [ | reflexivity ].
  destruct (py_float_add _ v); reflexivity.
Qed.

(** A successful primary authentication: the token is stored, then the
    shared time stamp is set to the next clock reading plus 300. *)
Lemma request_ford_token_success E s resp kv st :
  http E (length (sent s)) (PostFordAuth (username E) (password E))
  = Responded resp ->
  status_code resp = 200 ->
  json_body resp = Some (JObj kv) ->
  assoc (JStr "status") kv = Some st ->
  py_eq_int st 200 = true ->
  let tok := match assoc (JStr "access_token") kv with
             | Some t => t
             | None => JNull
             end in
  request_ford_token E s =
    (Ok tok,
     set_token_expiration (clock E (reads s) + 300)%Q
       (tick_clock
          (set_ford_token tok
             (log_request (PostFordAuth (username E) (password E)) s)))).
Proof.
  intros Hresp Hcode Hbody Hst Hok tok.
  unfold request_ford_token, rewrap, try_except, bind, http_send, lift,
    modify, raise, gets, time_time, response_json, py_get1, py_get.
  rewrite Hresp, Hcode, Hbody. simpl. rewrite Hst, Hok.
  subst tok. destruct (assoc (JStr "access_token") kv); reflexivity.
Qed.

(** A successful token exchange: the token is stored, then the shared time
    stamp is set to the next clock reading plus [expires_in] minus 60. *)
Lemma request_autonomic_token_success E ford s resp kv v e :
  http E (length (sent s)) (PostTokenExchange ford) = Responded resp ->
  status_code resp = 200 ->
  json_body resp = Some (JObj kv) ->
  assoc (JStr "expires_in") kv = Some v ->
  num_of v = Some e ->
  let tok := match assoc (JStr "access_token") kv with
             | Some t => t
             | None => JNull
             end in
  request_autonomic_token E ford s =
    (Ok tok,
     set_token_expiration (clock E (reads s) + e - 60)%Q
       (tick_clock
          (set_autonomic_token tok
             (log_request (PostTokenExchange ford) s)))).
Proof.
  intros Hresp Hcode Hbody Hv He tok.
  unfold request_autonomic_token, rewrap, try_except, bind, http_send, lift,
    modify, raise, gets, time_time, response_json, py_get1, py_get,
    py_float_add.
  rewrite Hresp, Hcode, Hbody. simpl. rewrite Hv, He.
  subst tok. destruct (assoc (JStr "access_token") kv); reflexivity.
Qed.

(** The primary authentication hands back a token exactly when the outcome
    of its request carries one. *)
Lemma request_ford_token_outcome E s :
  match primary_token_in
          (http E (length (sent s)) (PostFordAuth (username E) (password E)))
  with
  | Some tok => fst (request_ford_token E s) = Ok tok
  | None => exists e, fst (request_ford_token E s) = Raise e
  end.
Proof.
  unfold primary_token_in, request_ford_token, rewrap, try_except, bind,
    http_send, lift, modify, raise, gets, time_time, response_json,
    py_get1, py_get.
  destruct (http E (length (sent s)) _) as [resp | msg];
    [ | simpl; eauto ].
  destruct (status_code resp =? 200); [ | simpl; eauto ].
  destruct (json_body resp) as [data | ]; [ | simpl; eauto ].
  destruct data; simpl; eauto.
  destruct (assoc (JStr "status") kv) as [st | ]; simpl.
  - destruct (py_eq_int st 200); simpl.
    + destruct (assoc (JStr "access_token") kv); reflexivity.
    + destruct (assoc (JStr "message") kv); simpl; eauto.
  - destruct (assoc (JStr "message") kv); simpl; eauto.
Qed.

(** A hit in the exchange token cache. *)
Lemma get_autonomic_token_hit E s :
  truthy (autonomic_token s) = true ->
  (clock E (reads s) < token_expiration s)%Q ->
  get_autonomic_token E s = (Ok (autonomic_token s), tick_clock s).
Proof.
  intros Htok Hnow. unfold get_autonomic_token, bind.
  rewrite token_fresh_spec, Htok.
  now rewrite (proj2 (Qlt_bool_true _ _) Hnow).
Qed.

(** After the time stamp has passed, a call is the two stages, run in a
    state that differs from the initial one in clock readings only. *)
Lemma get_autonomic_token_expired E s :
  clock_monotone E ->
  (token_expiration s <= clock E (reads s))%Q ->
  exists s2,
    sent s2 = sent s /\ ford_token s2 = ford_token s /\
    autonomic_token s2 = autonomic_token s /\
    get_autonomic_token E s =
      bind (request_ford_token E) (request_autonomic_token E) s2.
Proof.
  intros Hmono Hexp.
  destruct (token_fresh_expired E autonomic_token s Hmono Hexp)
    as (s1 & Hfresh1 & Hexp1 & Hsent1 & Hford1 & Hauto1 & _).
  destruct (token_fresh_expired E ford_token s1 Hmono Hexp1)
    as (s2 & Hfresh2 & _ & Hsent2 & Hford2 & Hauto2 & _).
  exists s2.
  split; [congruence | ]. split; [congruence | ]. split; [congruence | ].
  unfold get_autonomic_token, get_ford_token.
  rewrite (bind_ok _ _ _ _ _ Hfresh1).
  unfold bind at 1. unfold bind at 1. rewrite Hfresh2. reflexivity.
Qed.

(** C3: a call of [get_autonomic_token] with a truthy cached exchange token
    and a clock reading before [token_expiration] returns the cached token
    and sends nothing, leaving the cache as it is.  A call made when the
    clock has reached [token_expiration] (clock readings not going backwards)
    sends the primary authentication POST and, when that succeeds, the
    token exchange POST with the token just obtained, and nothing else; when
    the primary authentication fails the call raises after that one POST. *)
Theorem C3_cache_hit_sends_nothing_expired_runs_two_stages (E : Env) (s : St) :
  (truthy (autonomic_token s) = true ->
   (clock E (reads s) < token_expiration s)%Q ->
   exists s',
     get_autonomic_token E s = (Ok (autonomic_token s), s') /\
     sent s' = sent s /\
     autonomic_token s' = autonomic_token s /\
     ford_token s' = ford_token s /\
     token_expiration s' = token_expiration s) /\
  (clock_monotone E ->
   (token_expiration s <= clock E (reads s))%Q ->
   let primary := PostFordAuth (username E) (password E) in
   match primary_token_in (http E (length (sent s)) primary) with
   | Some ford =>
       sent (snd (get_autonomic_token E s))
       = (sent s ++ [primary; PostTokenExchange ford])%list
   | None =>
       sent (snd (get_autonomic_token E s)) = (sent s ++ [primary])%list /\
       exists e, fst (get_autonomic_token E s) = Raise e
   end).
Proof.
  split.
  - intros Htok Hnow. exists (tick_clock s).
    rewrite (get_autonomic_token_hit E s Htok Hnow). repeat split.
  - intros Hmono Hexp primary.
    destruct (get_autonomic_token_expired E s Hmono Hexp)
      as (s2 & Hsent & _ & _ & Hrun).
    rewrite Hrun. clear Hrun.
    pose proof (request_ford_token_outcome E s2) as Hout.
    pose proof (request_ford_token_sent E s2) as Hlog.
    rewrite Hsent in Hout, Hlog. fold primary in Hout, Hlog.
    unfold bind.
    destruct (request_ford_token E s2) as [[ford' | e] s3]; simpl in *.
    + destruct (primary_token_in (http E (length (sent s)) primary))
        as [ford | ].
      * inversion Hout; subst ford'.
        rewrite request_autonomic_token_sent, Hlog.
        now rewrite <- app_assoc.
      * destruct Hout as [e K]. discriminate.
    + destruct (primary_token_in (http E (length (sent s)) primary))
        as [ford | ].
      * discriminate.
      * split; [exact Hlog | eauto].
Qed.

(** C7: after a token exchange answered with 200 and a JSON object whose
    [expires_in] is the number [e], the exchange token is the response's
    [access_token] and [token_expiration] is the clock reading taken at that
    point plus [e] minus 60; after a primary authentication answered with
    200 and a JSON object whose [status] is 200, the primary token is the
    response's [access_token] and [token_expiration] is the clock reading
    taken at that point plus 300. *)
Theorem C7_expiry_is_now_plus_expires_in_minus_60_and_primary_300
    (E : Env) (s : St) :
  (forall ford resp kv v e,
     http E (length (sent s)) (PostTokenExchange ford) = Responded resp ->
     status_code resp = 200 ->
     json_body resp = Some (JObj kv) ->
     assoc (JStr "expires_in") kv = Some v ->
     num_of v = Some e ->
     exists tok s',
       request_autonomic_token E ford s = (Ok tok, s') /\
       py_get1 (JObj kv) "access_token" = Ok tok /\
       autonomic_token s' = tok /\
       token_expiration s' = (clock E (reads s) + e - 60)%Q) /\
  (forall resp kv st,
     http E (length (sent s)) (PostFordAuth (username E) (password E))
     = Responded resp ->
     status_code resp = 200 ->
     json_body resp = Some (JObj kv) ->
     assoc (JStr "status") kv = Some st ->
     py_eq_int st 200 = true ->
     exists tok s',
       request_ford_token E s = (Ok tok, s') /\
       py_get1 (JObj kv) "access_token" = Ok tok /\
       ford_token s' = tok /\
       token_expiration s' = (clock E (reads s) + 300)%Q).
Proof.
  split.
  - intros ford resp kv v e Hresp Hcode Hbody Hv He.
    pose proof (request_autonomic_token_success E ford s resp kv v e
                  Hresp Hcode Hbody Hv He) as Hrun.
    cbv zeta in Hrun. rewrite Hrun.
    eexists. eexists. split; [reflexivity | ].
    split; [ | split; reflexivity ].
    unfold py_get1, py_get.
    destruct (assoc (JStr "access_token") kv); reflexivity.
  - intros resp kv st Hresp Hcode Hbody Hst Hok.
    pose proof (request_ford_token_success E s resp kv st
                  Hresp Hcode Hbody Hst Hok) as Hrun.
    cbv zeta in Hrun. rewrite Hrun.
    eexists. eexists. split; [reflexivity | ].
    split; [ | split; reflexivity ].
    unfold py_get1, py_get.
    destruct (assoc (JStr "access_token") kv); reflexivity.
Qed.

(** The two cache tests in a row, once the time stamp has passed. *)
Lemma cache_tests_expired E s :
  clock_monotone E ->
  (token_expiration s <= clock E (reads s))%Q ->
  exists s1 s2,
    token_fresh E autonomic_token s = (Ok false, s1) /\
    token_fresh E ford_token s1 = (Ok false, s2) /\
    sent s2 = sent s.
Proof.
  intros Hmono Hexp.
  destruct (token_fresh_expired E autonomic_token s Hmono Hexp)
    as (s1 & Hfresh1 & Hexp1 & Hsent1 & _).
  destruct (token_fresh_expired E ford_token s1 Hmono Hexp1)
    as (s2 & Hfresh2 & _ & Hsent2 & _).
  exists s1, s2. repeat split; congruence.
Qed.

(** C10, as the code has it: one time stamp serves both tokens, and a
    successful exchange sets it to the exchange token's expiry, whatever the
    primary token's window was.  When the exchange token's cache test fails
    with the time stamp passed, the primary token's cache test fails too
    (clock readings not going backwards) and the refresh runs both stages.
    When it fails only because no exchange token is cached, while a primary
    token is cached and the time stamp has not passed, the primary token's
    cache test succeeds: the cached primary token is used again and only
    the exchange request is sent. *)
Theorem C10_shared_expiry_primary_reused_while_window_open
    (E : Env) (s : St) :
  (forall ford resp kv v e,
     http E (length (sent s)) (PostTokenExchange ford) = Responded resp ->
     status_code resp = 200 ->
     json_body resp = Some (JObj kv) ->
     assoc (JStr "expires_in") kv = Some v ->
     num_of v = Some e ->
     token_expiration (snd (request_autonomic_token E ford s))
     = (clock E (reads s) + e - 60)%Q) /\
  (clock_monotone E ->
   (token_expiration s <= clock E (reads s))%Q ->
   exists s1 s2,
     token_fresh E autonomic_token s = (Ok false, s1) /\
     token_fresh E ford_token s1 = (Ok false, s2) /\
     get_autonomic_token E s
     = bind (request_ford_token E) (request_autonomic_token E) s2 /\
     exists rest,
       sent (snd (get_autonomic_token E s))
       = (sent s ++ PostFordAuth (username E) (password E) :: rest)%list) /\
  (truthy (autonomic_token s) = false ->
   truthy (ford_token s) = true ->
   (clock E (reads s) < token_expiration s)%Q ->
   token_fresh E autonomic_token s = (Ok false, s) /\
   token_fresh E ford_token s = (Ok true, tick_clock s) /\
   get_autonomic_token E s
   = request_autonomic_token E (ford_token s) (tick_clock s) /\
   sent (snd (get_autonomic_token E s))
   = (sent s ++ [PostTokenExchange (ford_token s)])%list).
Proof.
  split; [ | split ].
  - intros ford resp kv v e Hresp Hcode Hbody Hv He.
    pose proof (request_autonomic_token_success E ford s resp kv v e
                  Hresp Hcode Hbody Hv He) as Hrun.
    cbv zeta in Hrun. now rewrite Hrun.
  - intros Hmono Hexp.
    destruct (cache_tests_expired E s Hmono Hexp)
      as (s1 & s2 & Hfresh1 & Hfresh2 & Hsent).
    exists s1, s2.
    assert (Hrun : get_autonomic_token E s
                   = bind (request_ford_token E) (request_autonomic_token E) s2).
    { unfold get_autonomic_token, get_ford_token.
      rewrite (bind_ok _ _ _ _ _ Hfresh1).
      unfold bind at 1. unfold bind at 1. now rewrite Hfresh2. }
    split; [exact Hfresh1 | ]. split; [exact Hfresh2 | ].
    split; [exact Hrun | ].
    rewrite Hrun. unfold bind.
    pose proof (request_ford_token_sent E s2) as Hlog. rewrite Hsent in Hlog.
    destruct (request_ford_token E s2) as [[ford | e] s3]; simpl in *.
    + exists [PostTokenExchange ford].
      rewrite request_autonomic_token_sent, Hlog. now rewrite <- app_assoc.
    + exists []. exact Hlog.
  - intros Hnone Hford Hnow.
    assert (H1 : token_fresh E autonomic_token s = (Ok false, s))
      by (rewrite token_fresh_spec; now rewrite Hnone).
    assert (H2 : token_fresh E ford_token s = (Ok true, tick_clock s))
      by (rewrite token_fresh_spec, Hford;
          now rewrite (proj2 (Qlt_bool_true _ _) Hnow)).
    assert (Hrun : get_autonomic_token E s
                   = request_autonomic_token E (ford_token s) (tick_clock s)).
    { unfold get_autonomic_token, get_ford_token.
      rewrite (bind_ok _ _ _ _ _ H1).
      unfold bind at 1. unfold bind at 1. now rewrite H2. }
    split; [exact H1 | ]. split; [exact H2 | ]. split; [exact Hrun | ].
    rewrite Hrun. now rewrite request_autonomic_token_sent.
Qed.

(** ** Kilometres to miles *)

Lemma round_half_even_zero q : Qnum q = 0 -> round_half_even q = 0.
Proof.
  intros H. unfold round_half_even. rewrite H.
  rewrite Z.div_0_l, Z.mod_0_l by discriminate. reflexivity.
Qed.

(** [round] picks an integer at distance at most one half. *)
Lemma round_half_even_nearest q :
  (inject_Z (round_half_even q) - (1 # 2) <= q)%Q /\
  (q <= inject_Z (round_half_even q) + (1 # 2))%Q.
Proof.
  destruct q as [n d]. unfold round_half_even. cbv zeta. cbn [Qnum Qden].
  pose proof (Z.div_mod n (Zpos d) ltac:(discriminate)) as Hdm.
  pose proof (Z.mod_pos_bound n (Zpos d) ltac:(reflexivity)) as Hb.
  set (f := n / Zpos d) in *. set (r := n mod Zpos d) in *.
  set (m := match 2 * r ?= Z.pos d with
            | Eq => if Z.even f then f else f + 1
            | Lt => f
            | Gt => f + 1
            end).
  assert (Hm : (2 * m - 1) * Zpos d <= 2 * n <= (2 * m + 1) * Zpos d).
  { subst m. destruct (2 * r ?= Zpos d) eqn:Hc.
    - apply Z.compare_eq in Hc. destruct (Z.even f); nia.
    - rewrite Z.compare_lt_iff in Hc. nia.
    - rewrite Z.compare_gt_iff in Hc. nia. }
  clearbody m. unfold Qle, Qminus, Qplus, Qopp, inject_Z. cbn [Qnum Qden].
  rewrite ?Pos2Z.inj_mul. split; nia.
Qed.

(** ** Binary64 rounding *)

Lemma pow2_pos e : (0 < pow2 e)%Q.
Proof. apply Qpower_0_lt. reflexivity. Qed.

Lemma pow2_add a b : (pow2 (a + b) == pow2 a * pow2 b)%Q.
Proof. apply Qpower_plus. discriminate. Qed.

Lemma pow2_opp e : (pow2 (- e) * pow2 e == 1)%Q.
Proof. rewrite <- pow2_add. now replace (- e + e) with 0 by lia. Qed.

(** The nearest grid point is within half a grid step. *)
Lemma b64_nearest_half_step q :
  (Qabs (b64_nearest q - q) <= pow2 (grid_exponent q) * (1 # 2))%Q.
Proof.
  unfold b64_nearest. cbv zeta. rewrite Qred_correct.
  set (e := grid_exponent q).
  pose proof (round_half_even_nearest (q * pow2 (- e))) as [Hlo Hhi].
  set (m := inject_Z (round_half_even (q * pow2 (- e)))) in *.
  pose proof (pow2_pos e) as Hpos.
  pose proof (pow2_opp e) as Hinv.
  set (a := pow2 e) in *. set (b := pow2 (- e)) in *.
  assert (Hq : (q == q * b * a)%Q).
  { rewrite <- Qmult_assoc, Hinv. ring. }
  apply Qabs_Qle_condition. split.
  - assert (H : ((q * b - (m + (1 # 2))) * a <= 0)%Q) by nra.
    nra.
  - assert (H : (0 <= (q * b - (m - (1 # 2))) * a)%Q) by nra.
    nra.
Qed.

(** A grid step is at most [2^-52] of the number, or the smallest step. *)
Lemma grid_step_small q :
  (pow2 (grid_exponent q) <= Qabs q * pow2 (-52) + pow2 (-1074))%Q.
Proof.
  unfold grid_exponent.
  set (K := 2 ^ 1127).
  set (A := Z.abs (Qnum q) * K / Zpos (Qden q)).
  pose proof (Qabs_nonneg q) as Hq0.
  pose proof (pow2_pos (-52)) as H52.
  pose proof (pow2_pos (-1074)) as H1074.
  destruct (Z.max_spec (Z.log2 A - 1179) (-1074)) as [[Hlt ->] | [Hle ->]].
  - nra.
  - assert (HA : 0 < A).
    { destruct (Z.le_gt_cases A 0) as [H0 | H0]; [ | exact H0 ].
      rewrite (Z.log2_nonpos A H0) in Hle. lia. }
    pose proof (Z.log2_spec A HA) as [Hlog _].
    pose proof (Z.mul_div_le (Z.abs (Qnum q) * K) (Zpos (Qden q))
                  ltac:(reflexivity)) as Hdiv.
    fold A in Hdiv.
    assert (HZ : 2 ^ Z.log2 A * Zpos (Qden q) <= Z.abs (Qnum q) * K).
    { eapply Z.le_trans; [ | exact Hdiv ]. rewrite Z.mul_comm.
      apply Z.mul_le_mono_nonneg_l; [lia | exact Hlog]. }
    assert (HQ : (pow2 (Z.log2 A) <= Qabs q * pow2 1127)%Q).
    { unfold pow2 at 1 2.
      rewrite <- (Zpower_Qpower 2 (Z.log2 A)) by apply Z.log2_nonneg.
      rewrite <- (Zpower_Qpower 2 1127) by lia. fold K.
      destruct q as [n d]. cbn [Qabs Qnum Qden] in *.
      unfold Qle, Qmult, inject_Z. cbn [Qnum Qden].
      rewrite Pos.mul_1_r, Z.mul_1_r. exact HZ. }
    replace (Z.log2 A - 1179) with (Z.log2 A + (-1179)) by lia.
    rewrite pow2_add.
    assert (Hk : (pow2 1127 * pow2 (-1179) == pow2 (-52))%Q).
    { rewrite <- pow2_add. reflexivity. }
    pose proof (pow2_pos (-1179)) as H1179.
    set (a := pow2 (Z.log2 A)) in *. set (c := pow2 (-1179)) in *.
    set (k := pow2 1127) in *. set (u := pow2 (-52)) in *.
    set (aq := Qabs q) in *.
    assert (H1 : (a * c <= aq * k * c)%Q).
    { apply Qmult_le_compat_r; [exact HQ | now apply Qlt_le_weak]. }
    assert (H2 : (aq * k * c == aq * u)%Q).
    { rewrite <- Qmult_assoc, Hk. reflexivity. }
    rewrite H2 in H1. nra.
Qed.

(** Rounding to binary64 moves a number by at most one part in [2^53], or
    by half the smallest step. *)
Lemma b64_nearest_error q :
  (Qabs (b64_nearest q - q) <= Qabs q * pow2 (-53) + pow2 (-1075))%Q.
Proof.
  pose proof (b64_nearest_half_step q) as H1.
  pose proof (grid_step_small q) as H2.
  assert (Ha : (pow2 (-52) * (1 # 2) == pow2 (-53))%Q) by reflexivity.
  assert (Hb : (pow2 (-1074) * (1 # 2) == pow2 (-1075))%Q) by reflexivity.
  set (g := pow2 (grid_exponent q)) in *.
  set (d := Qabs (b64_nearest q - q)) in *.
  set (aq := Qabs q) in *.
  set (u := pow2 (-52)) in *. set (u' := pow2 (-53)) in *.
  set (n := pow2 (-1074)) in *. set (n' := pow2 (-1075)) in *.
  assert (H3 : (g * (1 # 2) <= aq * u' + n')%Q).
  { rewrite <- Ha, <- Hb. nra. }
  nra.
Qed.

Lemma Qabs_cases t :
  (0 <= t /\ Qabs t == t)%Q \/ (t <= 0 /\ Qabs t == - t)%Q.
Proof.
  destruct (Qlt_le_dec t 0) as [H | H].
  - right. split; [now apply Qlt_le_weak | apply Qabs_neg; now apply Qlt_le_weak].
  - left. split; [exact H | now apply Qabs_pos].
Qed.

Lemma b64_Some q x :
  b64 q = Some x -> x = b64_nearest q /\ (Qabs x < pow2 1024)%Q.
Proof.
  unfold b64. cbv zeta.
  destruct (Qle_bool (pow2 1024) (Qabs (b64_nearest q))) eqn:Hb;
    [discriminate | ].
  intros H. inversion H; subst x. split; [reflexivity | ].
  apply Qnot_le_lt. intros Hle. apply Qle_bool_iff in Hle. congruence.
Qed.

Lemma b64_finite q :
  (Qabs (b64_nearest q) < pow2 1024)%Q -> b64 q = Some (b64_nearest q).
Proof.
  intros H. unfold b64. cbv zeta.
  destruct (Qle_bool (pow2 1024) (Qabs (b64_nearest q))) eqn:Hb;
    [ | reflexivity ].
  apply Qle_bool_iff in Hb. exfalso. revert Hb. now apply Qlt_not_le.
Qed.

(** Zero is a float. *)
Lemma b64_nearest_zero q : Qnum q = 0 -> b64_nearest q = 0%Q.
Proof.
  intros H. unfold b64_nearest. cbv zeta.
  rewrite round_half_even_zero by (cbn [Qmult Qnum]; rewrite H; reflexivity).
  change 0%Q with (Qred 0). apply Qred_complete. ring.
Qed.

Lemma b64_zero q : Qnum q = 0 -> b64 q = Some 0%Q.
Proof.
  intros H. unfold b64. cbv zeta. rewrite (b64_nearest_zero q H). reflexivity.
Qed.

(** A finite float times [0.621371] is a finite float. *)
Lemma product_is_finite x :
  (Qabs x < pow2 1024)%Q ->
  b64 (x * KM_TO_MILES) = Some (b64_nearest (x * KM_TO_MILES)).
Proof.
  intros Hx. apply b64_finite.
  pose proof (b64_nearest_error (x * KM_TO_MILES)) as He.
  rewrite Qabs_Qmult in He.
  rewrite (Qabs_pos KM_TO_MILES) in He by discriminate.
  apply Qabs_Qle_condition in He. destruct He as [Hlo Hhi].
  set (p := b64_nearest (x * KM_TO_MILES)) in *.
  assert (Hn : (pow2 (-1075) <= (1 # 4) * pow2 1024)%Q)
    by (vm_compute; discriminate).
  change (pow2 (-53)) with (1 # 9007199254740992)%Q in *.
  unfold KM_TO_MILES in *.
  set (n := pow2 (-1075)) in *. set (W := pow2 1024) in *.
  destruct (Qabs_cases x) as [[Hs Ha] | [Hs Ha]];
    destruct (Qabs_cases p) as [[Hs' Ha'] | [Hs' Ha']];
    rewrite Ha in *; rewrite Ha'; lra.
Qed.

(** The float product [km * 0.621371] against the product of the numbers:
    they differ by at most one part in [2^50], or by the smallest float. *)
Lemma float_product_error q x p :
  b64 q = Some x ->
  b64 (x * KM_TO_MILES) = Some p ->
  (Qabs (p - q * (621371 # 1000000))
   <= Qabs q * pow2 (-50) + pow2 (-1073))%Q.
Proof.
  intros Hx Hp.
  apply b64_Some in Hx. destruct Hx as [-> _].
  apply b64_Some in Hp. destruct Hp as [-> _].
  pose proof (b64_nearest_error q) as Hq.
  pose proof (b64_nearest_error (b64_nearest q * KM_TO_MILES)) as He.
  set (x := b64_nearest q) in *.
  set (p := b64_nearest (x * KM_TO_MILES)) in *.
  rewrite Qabs_Qmult in He.
  rewrite (Qabs_pos KM_TO_MILES) in He by discriminate.
  apply Qabs_Qle_condition in He. destruct He as [Hlo Hhi].
  apply Qabs_Qle_condition in Hq. destruct Hq as [Hlo' Hhi'].
  apply Qabs_Qle_condition.
  assert (Hn : (pow2 (-1073) == 4 * pow2 (-1075))%Q) by reflexivity.
  rewrite Hn.
  pose proof (pow2_pos (-1075)) as Hn0.
  change (pow2 (-53)) with (1 # 9007199254740992)%Q in *.
  change (pow2 (-50)) with (1 # 1125899906842624)%Q in *.
  unfold KM_TO_MILES in *.
  set (n := pow2 (-1075)) in *.
  destruct (Qabs_cases x) as [[Hs Ha] | [Hs Ha]];
    destruct (Qabs_cases q) as [[Hs' Ha'] | [Hs' Ha']];
    rewrite Ha in *; rewrite Ha' in *; split; lra.
Qed.

(** Two numbers within [d] of each other round to the same integer, unless
    one of them is within [d] of a tie. *)
Lemma round_half_even_stable (p e d : Q) :
  (Qabs (p - e) <= d)%Q ->
  (forall h : Z, (d < Qabs (e - (inject_Z h + (1 # 2))))%Q) ->
  round_half_even p = round_half_even e.
Proof.
  intros Hpe Hfar.
  pose proof (round_half_even_nearest e) as [Hn1 Hn2].
  pose proof (round_half_even_nearest p) as [Hm1 Hm2].
  set (n := round_half_even e) in *. set (m := round_half_even p) in *.
  apply Qabs_Qle_condition in Hpe. destruct Hpe as [Hpe1 Hpe2].
  pose proof (Hfar n) as Hup. pose proof (Hfar (n + - 1)) as Hdown.
  rewrite inject_Z_plus in Hdown.
  change (inject_Z (- 1)) with (- (1))%Q in Hdown.
  assert (H1 : (inject_Z n < inject_Z (m + 1))%Q).
  { rewrite inject_Z_plus. change (inject_Z 1) with 1%Q.
    destruct (Qabs_cases (e - (inject_Z n + - (1) + (1 # 2)))) as [[Hs Ha] | [Hs Ha]];
      rewrite Ha in Hdown; lra. }
  assert (H2 : (inject_Z m < inject_Z (n + 1))%Q).
  { rewrite inject_Z_plus. change (inject_Z 1) with 1%Q.
    destruct (Qabs_cases (e - (inject_Z n + (1 # 2)))) as [[Hs Ha] | [Hs Ha]];
      rewrite Ha in Hup; lra. }
  rewrite <- Zlt_Qlt in H1, H2. lia.
Qed.

(** A falsy number is zero. *)
Lemma falsy_number_zero v q :
  num_of v = Some q -> truthy v = false -> Qnum q = 0.
Proof.
  destruct v; simpl; intros Hn Ht; inversion Hn; subst; clear Hn.
  - now subst.
  - apply negb_false_iff, Z.eqb_eq in Ht. now subst.
  - apply negb_false_iff, Qeq_bool_iff in Ht.
    unfold Qeq in Ht. simpl in Ht. lia.
Qed.

(** The miles entry, for a range metric that holds a number within the
    range of the floats. *)
Lemma range_miles_of_number metrics km q x :
  metric_value metrics "xevBatteryRange" = Ok km ->
  num_of km = Some q ->
  b64 q = Some x ->
  b64 (x * KM_TO_MILES) = Some (b64_nearest (x * KM_TO_MILES)) /\
  range_miles metrics
  = Ok (round_half_even (b64_nearest (x * KM_TO_MILES))).
Proof.
  intros Hkm Hq Hx.
  pose proof (b64_Some q x Hx) as [Hxq Hfin].
  pose proof (product_is_finite x Hfin) as Hp.
  split; [exact Hp | ].
  unfold range_miles. rewrite Hkm. cbn [res_bind].
  unfold py_or. destruct (truthy km) eqn:Ht.
  - unfold py_mul_float. rewrite Hq, Hx, Hp. reflexivity.
  - pose proof (falsy_number_zero km q Hq Ht) as Hz.
    rewrite (b64_nearest_zero q Hz) in Hxq. subst x.
    rewrite (b64_nearest_zero (0 * KM_TO_MILES)) by reflexivity.
    vm_compute. reflexivity.
Qed.

(** A number beyond the range of the floats makes the product raise. *)
Lemma range_miles_out_of_range metrics km q :
  metric_value metrics "xevBatteryRange" = Ok km ->
  num_of km = Some q ->
  b64 q = None ->
  exists e, range_miles metrics = Raise e /\ exn_class e = "OverflowError".
Proof.
  intros Hkm Hq Hx.
  unfold range_miles. rewrite Hkm. cbn [res_bind].
  unfold py_or. destruct (truthy km) eqn:Ht.
  - unfold py_mul_float. rewrite Hq, Hx.
    destruct km; try discriminate Hq; eexists; split; reflexivity.
  - pose proof (falsy_number_zero km q Hq Ht) as Hz.
    rewrite (b64_zero q Hz) in Hx. discriminate Hx.
Qed.

(** Takes a successful chain of [res_bind]s apart, one link at a time. *)
Ltac res_step H :=
  match type of H with
  | res_bind ?r _ = Ok _ =>
      let x := fresh "x" in
      let Hx := fresh "Hx" in
      destruct r as [x | ?] eqn:Hx; cbn [res_bind] in H; [ | discriminate H ]
  | Ok _ = Ok _ => inversion H; subst; clear H
  end.

(** C8 on the code: for a range metric holding the number [q] of kilometres
    the miles entry of the battery view is [round(x * 0.621371)] computed in
    binary64: [x] is the float for [q], the factor is the float nearest to
    0.621371, their product [p] is rounded to a float, and [round] takes
    the integer nearest to [p], a tie going to the even neighbour.  [p] is
    within one part in [2^50] of [q * 0.621371], so the entry is within one
    half and that much of the product of the numbers, and it is the integer
    nearest to that product unless the product is this close to a tie.  A
    number beyond the range of the floats raises [OverflowError] instead.
    A raw range of 100.0 km gives exactly 62 miles. *)
Theorem C8_range_miles_rounds_the_float_product
    (status metrics km : pyval) (q : Q) :
  metrics_of status = Ok metrics ->
  metric_value metrics "xevBatteryRange" = Ok km ->
  num_of km = Some q ->
  (forall x,
     b64 q = Some x ->
     exists p,
       b64 (x * KM_TO_MILES) = Some p /\
       range_miles metrics = Ok (round_half_even p) /\
       (forall view,
          battery_projection status = Ok view ->
          py_get1 view "ev_battery_range_miles"
          = Ok (JInt (round_half_even p))) /\
       (inject_Z (round_half_even p) - (1 # 2) <= p)%Q /\
       (p <= inject_Z (round_half_even p) + (1 # 2))%Q /\
       (Qabs (p - q * (621371 # 1000000))
        <= Qabs q * pow2 (-50) + pow2 (-1073))%Q /\
       (Qabs (inject_Z (round_half_even p) - q * (621371 # 1000000))
        <= (1 # 2) + Qabs q * pow2 (-50) + pow2 (-1073))%Q /\
       ((forall h : Z,
           (Qabs q * pow2 (-50) + pow2 (-1073)
            < Qabs (q * (621371 # 1000000) - (inject_Z h + (1 # 2))))%Q) ->
        round_half_even p = round_half_even (q * (621371 # 1000000)))) /\
  (b64 q = None ->
   exists e,
     range_miles metrics = Raise e /\ exn_class e = "OverflowError") /\
  b64 (621371 # 1000000) = Some KM_TO_MILES /\
  res_bind (battery_projection (status_doc (JFloat (100 # 1)) (JInt 80)))
           (fun view => py_get1 view "ev_battery_range_miles")
  = Ok (JInt 62).
Proof.
  intros Hmetrics Hkm Hq.
  split; [ | split; [ | split ] ].
  - intros x Hx.
    pose proof (range_miles_of_number metrics km q x Hkm Hq Hx)
      as [Hp Hmiles].
    set (p := b64_nearest (x * KM_TO_MILES)) in *.
    exists p. split; [exact Hp | ]. split; [exact Hmiles | ].
    pose proof (round_half_even_nearest p) as [Hlo Hhi].
    pose proof (float_product_error q x p Hx Hp) as Herr.
    split; [ | split; [exact Hlo | split; [exact Hhi | split; [exact Herr | ] ] ] ].
    + intros view Hview. unfold battery_projection in Hview.
      rewrite Hmetrics in Hview. cbn [res_bind] in Hview.
      do 4 res_step Hview.
      rewrite Hmiles in Hview. cbn [res_bind] in Hview.
      repeat res_step Hview. reflexivity.
    + split.
      * apply Qabs_Qle_condition in Herr. destruct Herr as [He1 He2].
        apply Qabs_Qle_condition.
        set (m := inject_Z (round_half_even p)) in *.
        set (d := (Qabs q * pow2 (-50))%Q) in *.
        set (d' := pow2 (-1073)) in *.
        split; lra.
      * intros Hfar. exact (round_half_even_stable _ _ _ Herr Hfar).
  - intros Hx. exact (range_miles_out_of_range metrics km q Hkm Hq Hx).
  - vm_compute. reflexivity.
  - vm_compute. reflexivity.
Qed.

(** ** Absent metrics *)

(** An absent metric reads as [None]. *)
Lemma metric_value_absent kv name :
  assoc (JStr name) kv = None -> metric_value (JObj kv) name = Ok JNull.
Proof.
  intros H. unfold metric_value, py_get. rewrite H. reflexivity.
Qed.

(** C4 on the code: with the range metric absent, [get_battery_status]
    marks [ev_battery_range_km] as [None] but reports the number 0 for
    [ev_battery_range_miles]; the monitor takes that 0 for a reading, and
    with 250 miles stored it announces a drop of 250 miles. *)
Theorem C4_absent_range_gives_zero_miles (kv : list (pyval * pyval)) :
  assoc (JStr "xevBatteryRange") kv = None ->
  metric_value (JObj kv) "xevBatteryRange" = Ok JNull /\
  range_miles (JObj kv) = Ok 0 /\
  res_bind (battery_projection (status_doc_no_range (JInt 80)))
           (fun view => py_get1 view "ev_battery_range_km") = Ok JNull /\
  res_bind (battery_projection (status_doc_no_range (JInt 80)))
           (fun view => py_get1 view "ev_battery_range_miles") = Ok (JInt 0) /\
  res_bind (battery_projection (status_doc_no_range (JInt 80)))
           (fun view => Ok (reading_of view)) = Ok (Some (0, 80)) /\
  shown (snd (check_battery no_range_env seen_250_80))
  = [(notification_title, notification_message 0 80 250 80)] /\
  contains_str "Range has decreased by 250 miles"
    (notification_message 0 80 250 80) = true.
Proof.
  intros Habsent.
  split; [ now apply metric_value_absent | ].
  split.
  - unfold range_miles. rewrite (metric_value_absent kv _ Habsent).
    vm_compute. reflexivity.
  - repeat split; vm_compute; reflexivity.
Qed.

(** ** Saving the state file *)

Lemma concat_cons x xs :
  String.concat EmptyString (x :: xs)
  = (x ++ String.concat EmptyString xs)%string.
Proof.
  destruct xs as [ | y ys]; simpl; [ now rewrite str_app_empty_r | reflexivity ].
Qed.

Lemma prefix_empty s : String.prefix EmptyString s = true.
Proof. destruct s; reflexivity. Qed.

Lemma prefix_app_same x : forall a b,
  String.prefix a b = true -> String.prefix (x ++ a) (x ++ b)%string = true.
Proof.
  induction x as [ | ch x IH]; intros a b H; simpl; [exact H | ].
  destruct (ascii_dec ch ch); [now apply IH | congruence].
Qed.

(** What the first chunks spell is the beginning of what all chunks spell. *)
Lemma concat_firstn_prefix chunks : forall j,
  String.prefix (String.concat EmptyString (firstn j chunks))
                (String.concat EmptyString chunks) = true.
Proof.
  induction chunks as [ | ch rest IH]; intros j.
  - rewrite firstn_nil. reflexivity.
  - destruct j as [ | j].
    + simpl firstn. apply prefix_empty.
    + simpl firstn. rewrite !concat_cons. apply prefix_app_same. apply IH.
Qed.

Lemma prefix_length : forall a b,
  String.prefix a b = true -> (String.length a <= String.length b)%nat.
Proof.
  induction a as [ | x a IH]; intros b H; [simpl; lia | ].
  destruct b as [ | y b]; [discriminate H | ].
  simpl in H. destruct (ascii_dec x y); [ | discriminate H ].
  simpl. apply IH in H. lia.
Qed.

Lemma prefix_trans : forall a b c,
  String.prefix a b = true -> String.prefix b c = true ->
  String.prefix a c = true.
Proof.
  induction a as [ | x a IH]; intros b c Hab Hbc; [apply prefix_empty | ].
  destruct b as [ | y b]; [discriminate Hab | ].
  destruct c as [ | z c]; [discriminate Hbc | ].
  simpl in *.
  destruct (ascii_dec x y); [ | discriminate Hab ].
  destruct (ascii_dec y z); [ | discriminate Hbc ].
  subst. destruct (ascii_dec z z); [ | congruence ].
  now apply (IH b c).
Qed.

(** The first characters of a text are a beginning of it. *)
Lemma substring_prefix : forall t n,
  String.prefix (substring 0 n t) t = true.
Proof.
  induction t as [ | x t IH]; intros n.
  - destruct n; reflexivity.
  - destruct n as [ | n]; [reflexivity | ].
    simpl. destruct (ascii_dec x x); [apply IH | congruence].
Qed.

(** A save stopped between its open and its close has written the first
    chunks to the file object, which is still open. *)
Lemma run_ops_stopped r c stamp k :
  (1 <= k < length (save_ops r c stamp))%nat ->
  run_ops (firstn k (save_ops r c stamp))
  = Opened (written_after (k - 1) r c stamp).
Proof.
  intros Hk. unfold save_ops in *.
  destruct k as [ | j]; [lia | ].
  cbn [length] in Hk. rewrite length_app, length_map in Hk.
  cbn [length] in Hk.
  cbn [firstn]. rewrite firstn_app, length_map.
  replace (j - length (state_chunks r c stamp))%nat with 0%nat by lia.
  cbn [firstn]. rewrite app_nil_r, firstn_map.
  unfold run_ops. cbn [fold_left apply_op]. rewrite run_ops_write.
  replace (S j - 1)%nat with j by lia. reflexivity.
Qed.

(** What is at the path once a save has opened the file. *)
Lemma at_path_opened flushed old t :
  exists left,
    at_path flushed old (Opened t) = Some left /\
    String.prefix left t = true /\
    ((String.length t < CHUNK_SIZE)%nat -> left = EmptyString).
Proof.
  unfold at_path. destruct (Nat.ltb_spec (String.length t) CHUNK_SIZE).
  - exists EmptyString. repeat split. apply prefix_empty.
  - eexists. split; [reflexivity | ]. split; [apply substring_prefix | lia].
Qed.

(** C5, as the code has it: [save_state] writes in place, through a
    buffered file object.  Opening the state file for writing empties it at
    its own path, the record is written to the file object, and it reaches
    the path when the file object is closed.  A process killed before the
    open leaves the old content.  Killed after the open and before the end
    of the close it leaves, at that very path, the empty file whenever the
    record is shorter than the buffer, and in any case a beginning of the
    new record; only when all operations are done is the new record there.
    [save_state] itself never raises: with no fault it leaves the complete
    new record, when the open fails the old content, and after a later fault
    a beginning of the new record. *)
Theorem C5_save_writes_in_place
    (flushed : nat -> nat) (old : option string) (r c : option Z)
    (stamp : string) (k : nat) :
  file_when_killed flushed 0 old r c stamp = old /\
  file_when_killed flushed 1 old r c stamp = Some EmptyString /\
  ((1 <= k < length (save_ops r c stamp))%nat ->
   (String.length (state_record r c stamp) < CHUNK_SIZE)%nat ->
   file_when_killed flushed k old r c stamp = Some EmptyString) /\
  ((1 <= k)%nat ->
   exists left,
     file_when_killed flushed k old r c stamp = Some left /\
     String.prefix left (state_record r c stamp) = true) /\
  ((length (save_ops r c stamp) <= k)%nat ->
   file_when_killed flushed k old r c stamp = Some (state_record r c stamp)) /\
  (forall E s,
     let record :=
       state_record (last_range s) (last_charge s) (strftime E (saves s)) in
     fst (save_state E s) = Ok tt /\
     (disk_fault E (saves s) = None ->
      config_file (snd (save_state E s)) = Some record /\
      config_file (snd (save_state E s))
      = file_when_killed flushed (length (save_ops (last_range s)
                                            (last_charge s)
                                            (strftime E (saves s))))
                         (config_file s) (last_range s) (last_charge s)
                         (strftime E (saves s))) /\
     (disk_fault E (saves s) = Some 0%nat ->
      config_file (snd (save_state E s)) = config_file s) /\
     (forall j, disk_fault E (saves s) = Some (S j) ->
      exists left,
        config_file (snd (save_state E s)) = Some left /\
        String.prefix left record = true)).
Proof.
  assert (Hall : forall n, (length (save_ops r c stamp) <= n)%nat ->
            file_when_killed flushed n old r c stamp
            = Some (state_record r c stamp)).
  { intros n Hn. unfold file_when_killed.
    rewrite firstn_all2 by exact Hn. now rewrite save_ops_complete. }
  assert (Hopen : forall n, (1 <= n < length (save_ops r c stamp))%nat ->
            exists left,
              file_when_killed flushed n old r c stamp = Some left /\
              String.prefix left (state_record r c stamp) = true /\
              ((String.length (state_record r c stamp) < CHUNK_SIZE)%nat ->
               left = EmptyString)).
  { intros n Hn. unfold file_when_killed.
    rewrite (run_ops_stopped r c stamp n Hn).
    destruct (at_path_opened flushed old (written_after (n - 1) r c stamp))
      as (left & Hleft & Hpre & Hshort).
    pose proof (concat_firstn_prefix (state_chunks r c stamp) (n - 1))
      as Hchunks.
    fold (written_after (n - 1) r c stamp) in Hchunks.
    fold (state_record r c stamp) in Hchunks.
    exists left. split; [exact Hleft | ]. split.
    - exact (prefix_trans _ _ _ Hpre Hchunks).
    - intros Hlen. apply Hshort.
      apply prefix_length in Hchunks. lia. }
  split; [reflexivity | ]. split; [reflexivity | ].
  split; [ | split; [ | split ] ].
  - intros Hk Hlen. destruct (Hopen k Hk) as (left & Hleft & _ & Hshort).
    rewrite Hleft, (Hshort Hlen). reflexivity.
  - intros Hk.
    destruct (Nat.lt_ge_cases k (length (save_ops r c stamp))) as [Hlt | Hge].
    + destruct (Hopen k (conj Hk Hlt)) as (left & Hleft & Hpre & _).
      exists left. split; assumption.
    + exists (state_record r c stamp). split; [now apply Hall | ].
      rewrite <- (str_app_empty_r (state_record r c stamp)) at 2.
      rewrite <- (str_app_empty_r (state_record r c stamp)) at 1.
      apply prefix_app_same. reflexivity.
  - exact (Hall k).
  - intros E s record. rewrite save_state_spec. cbn [fst snd].
    split; [reflexivity | ]. split; [ | split ].
    + intros Hd. rewrite Hd. cbn [config_file log_save].
      split; [reflexivity | ].
      unfold file_when_killed. rewrite firstn_all, save_ops_complete.
      reflexivity.
    + intros Hd. rewrite Hd. reflexivity.
    + intros j Hd. rewrite Hd. cbn [config_file log_save].
      eexists. split; [reflexivity | ]. apply substring_prefix.
Qed.

(** ** Accessors never raise *)

(** Runs [res_step] down a projection until its dict literal shows. *)
Ltac dict_literal :=
  let H := fresh "H" in
  intros ? ? H; repeat res_step H; eexists; reflexivity.

Lemma battery_projection_dict : returns_dict battery_projection.
Proof. unfold battery_projection. dict_literal. Qed.

Lemma door_projection_dict : returns_dict door_projection.
Proof. unfold door_projection. dict_literal. Qed.

Lemma tire_projection_dict : returns_dict tire_projection.
Proof. unfold tire_projection. dict_literal. Qed.

Lemma location_projection_dict : returns_dict location_projection.
Proof. unfold location_projection. dict_literal. Qed.

Lemma climate_projection_dict : returns_dict climate_projection.
Proof. unfold climate_projection. dict_literal. Qed.

Lemma vehicle_info_projection_dict : returns_dict vehicle_info_projection.
Proof. unfold vehicle_info_projection. dict_literal. Qed.

Lemma warning_projection_dict : returns_dict warning_projection.
Proof. unfold warning_projection. dict_literal. Qed.

Lemma charging_projection_dict : returns_dict charging_projection.
Proof. unfold charging_projection. dict_literal. Qed.

Lemma trip_projection_dict : returns_dict trip_projection.
Proof. unfold trip_projection. dict_literal. Qed.

Lemma summary_of_dict E a b c d e f v :
  summary_of E a b c d e f = Ok v -> exists kv, v = JObj kv.
Proof.
  unfold summary_of. intros H. repeat res_step H. eexists. reflexivity.
Qed.

(** An accessor built on a dict projection always returns a dict or a
    string: the [except] arm turns every exception into a string. *)
Lemma accessor_total E prefix project :
  returns_dict project -> total_dict_or_str (accessor E prefix project).
Proof.
  intros Hdict s. unfold accessor, try_except, bind, lift, ret.
  destruct (get_vehicle_status E s) as [[status | e] s1].
  - destruct (project status) as [v | e] eqn:Hp.
    + destruct (Hdict status v Hp) as [kv ->]. eauto.
    + eauto.
  - eauto.
Qed.

(** An accessor whatever its projection: it returns. *)
Lemma accessor_returns E prefix project s :
  exists v s', accessor E prefix project s = (Ok v, s').
Proof.
  unfold accessor, try_except, bind, lift, ret.
  destruct (get_vehicle_status E s) as [[status | e] s1].
  - destruct (project status) as [v | e]; eauto.
  - eauto.
Qed.

(** The six accessors the summary calls, one after the other. *)
Lemma summary_inputs E s :
  exists vi bi di ci li ti s1 s6,
    get_vehicle_info E s = (Ok vi, s1) /\
    get_status_summary E s =
      try_except
        (lift (summary_of E vi bi di ci li ti))
        (fun e => ret (JStr ("Unable to retrieve status summary: "
                               ++ exn_msg e))) s6.
Proof.
  destruct (accessor_returns E "Unable to retrieve vehicle information: "
              vehicle_info_projection s) as (vi & s1 & H1).
  destruct (accessor_returns E "Unable to retrieve battery information: "
              battery_projection s1) as (bi & s2 & H2).
  destruct (accessor_returns E "Unable to retrieve door information: "
              door_projection s2) as (di & s3 & H3).
  destruct (accessor_returns E "Unable to retrieve climate information: "
              climate_projection s3) as (ci & s4 & H4).
  destruct (accessor_returns E "Unable to retrieve location information: "
              location_projection s4) as (li & s5 & H5).
  destruct (accessor_returns E "Unable to retrieve tire information: "
              tire_projection s5) as (ti & s6 & H6).
  exists vi, bi, di, ci, li, ti, s1, s6.
  split; [exact H1 | ].
  unfold get_status_summary, get_vehicle_info, get_battery_status,
    get_door_status, get_climate_status, get_location, get_tire_status.
  unfold try_except at 1. unfold try_except at 1.
  unfold bind at 1. rewrite H1.
  unfold bind at 1. rewrite H2.
  unfold bind at 1. rewrite H3.
  unfold bind at 1. rewrite H4.
  unfold bind at 1. rewrite H5.
  unfold bind at 1. rewrite H6.
  reflexivity.
Qed.

Lemma get_status_summary_total E : total_dict_or_str (get_status_summary E).
Proof.
  intros s.
  destruct (summary_inputs E s)
    as (vi & bi & di & ci & li & ti & s1 & s6 & _ & Hrun).
  rewrite Hrun. unfold try_except, lift, ret.
  destruct (summary_of E vi bi di ci li ti) as [v | e] eqn:Hs.
  - destruct (summary_of_dict _ _ _ _ _ _ _ _ Hs) as [kv ->]. eauto.
  - eauto.
Qed.

(** When the first fetch fails, the summary is a string as well. *)
Lemma get_status_summary_on_failure E s e s1 :
  get_vehicle_status E s = (Raise e, s1) ->
  answers_string s (get_status_summary E).
Proof.
  intros Hfail.
  destruct (summary_inputs E s)
    as (vi & bi & di & ci & li & ti & s1' & s6 & Hvi & Hrun).
  unfold get_vehicle_info in Hvi.
  rewrite (accessor_on_failure _ _ _ _ _ _ Hfail) in Hvi.
  inversion Hvi; subst vi s1'.
  unfold answers_string. rewrite Hrun. unfold try_except, lift, ret.
  simpl. eauto.
Qed.

(** C9: each of the ten projection accessors returns in every state and in
    every world, and what it returns is a dict or a string; no exception
    leaves it.  When the status fetch raises (an authentication or a
    transport failure among them), each of them returns a string; in the
    nine accessors built on one fetch that string is the accessor's prefix
    followed by [str(e)], for an exception [e] of the fetch and for one of
    the projection alike. *)
Theorem C9_projection_accessors_never_raise (E : Env) :
  Forall total_dict_or_str (projection_accessors E) /\
  (forall s e s1,
     get_vehicle_status E s = (Raise e, s1) ->
     Forall (answers_string s) (projection_accessors E)) /\
  (forall prefix project s e s1,
     get_vehicle_status E s = (Raise e, s1) ->
     accessor E prefix project s = (Ok (JStr (prefix ++ exn_msg e)), s1)) /\
  (forall prefix project s status e s1,
     get_vehicle_status E s = (Ok status, s1) ->
     project status = Raise e ->
     accessor E prefix project s = (Ok (JStr (prefix ++ exn_msg e)), s1)).
Proof.
  split; [ | split; [ | split; [ | apply accessor_on_projection_failure ] ] ].
  - unfold projection_accessors.
    repeat (apply Forall_cons || apply Forall_nil).
    + apply accessor_total, battery_projection_dict.
    + apply accessor_total, door_projection_dict.
    + apply accessor_total, tire_projection_dict.
    + apply accessor_total, location_projection_dict.
    + apply accessor_total, climate_projection_dict.
    + apply accessor_total, vehicle_info_projection_dict.
    + apply accessor_total, warning_projection_dict.
    + apply accessor_total, charging_projection_dict.
    + apply accessor_total, trip_projection_dict.
    + apply get_status_summary_total.
  - intros s e s1 Hfail. unfold projection_accessors.
    repeat (apply Forall_cons || apply Forall_nil);
      try (eexists; eexists; apply (accessor_on_failure _ _ _ _ _ _ Hfail)).
    eapply get_status_summary_on_failure. exact Hfail.
  - intros prefix project s e s1 Hfail.
    now apply accessor_on_failure.
Qed.

(** * The properties on concrete worlds *)

Lemma ten_second_clock_monotone net : clock_monotone (sample_env net).
Proof.
  intros i j Hij. simpl. unfold ten_second_clock.
  rewrite <- Zle_Qle. lia.
Qed.

(** C1 on a monitor that has seen 250 / 80 and now reads 245 / 82. *)
Lemma C1_witness_reading_245_82 :
  exists fired s2,
    check_battery reading_245_82_env seen_250_80 = (Ok fired, s2) /\
    (fired = true <->
       exists lr lc, last_range seen_250_80 = Some lr /\
                     last_charge seen_250_80 = Some lc /\
                     (245 <> lr \/ 82 <> lc)) /\
    (exists message,
        shown s2 =
          (shown seen_250_80
             ++ if fired then [(notification_title, message)] else [])%list) /\
    last_range s2 = Some 245 /\ last_charge s2 = Some 82 /\
    saves s2 = S (saves seen_250_80) /\
    (last_range seen_250_80 = None \/ last_charge seen_250_80 = None ->
       fired = false /\ shown s2 = shown seen_250_80).
Proof.
  eapply (C1_notification_iff_prior_and_changed reading_245_82_env seen_250_80).
  - vm_compute. reflexivity.
  - vm_compute. reflexivity.
Defined.

(** C1 on a first run: nothing stored, so nothing is shown. *)
Lemma C1_first_run_is_silent :
  fst (check_battery reading_245_82_env init_state) = Ok false /\
  shown (snd (check_battery reading_245_82_env init_state)) = [] /\
  last_range (snd (check_battery reading_245_82_env init_state)) = Some 245 /\
  last_charge (snd (check_battery reading_245_82_env init_state)) = Some 82.
Proof. vm_compute. repeat split. Qed.

(** C2 as stated fails where the telemetry endpoint answers 401 and the
    interval is 60: no exception leaves [check_battery], and the loop sleeps
    60 seconds, not the 30 of the fault arm. *)
Lemma C2_counterexample_401_sleeps_interval_not_30 :
  http unauthorized_env 2
       (GetStatus (vin unauthorized_env) (JStr "bearer-1"))
  = refused 401 "unauthorized" /\
  fst (check_battery unauthorized_env seen_250_80) = Ok false /\
  slept (snd (run_iteration unauthorized_env 60 seen_250_80)) = [60] /\
  slept (snd (run_iteration unauthorized_env 60 seen_250_80))
  <> [FAULT_DELAY].
Proof.
  repeat split; try (vm_compute; reflexivity).
  vm_compute. discriminate.
Qed.

(** The amended C2 in that world. *)
Lemma C2_witness_unauthorized :
  let s1 :=
    log_request (GetStatus (vin unauthorized_env) (JStr "bearer-1"))
      (snd (get_auth_token unauthorized_env seen_250_80)) in
  check_battery unauthorized_env seen_250_80 = (Ok false, s1) /\
  run_iteration unauthorized_env 60 seen_250_80
  = (Ok tt, log_sleep 60 s1) /\
  slept (log_sleep 60 s1) = (slept seen_250_80 ++ [60])%list /\
  last_range s1 = last_range seen_250_80 /\
  last_charge s1 = last_charge seen_250_80 /\
  config_file s1 = config_file seen_250_80 /\
  saves s1 = saves seen_250_80 /\
  shown s1 = shown seen_250_80.
Proof.
  apply (C2_refused_fetch_sleeps_interval_state_unmodified
           unauthorized_env 60 seen_250_80
           (snd (get_auth_token unauthorized_env seen_250_80))
           (JStr "bearer-1") (Response 401 "unauthorized" None)).
  - lia.
  - vm_compute. reflexivity.
  - vm_compute. reflexivity.
  - simpl. discriminate.
Defined.

(** C3 on a fresh cache (after one refresh) and on an empty one. *)
Lemma C3_witness_hit_and_refresh :
  (exists s',
     get_autonomic_token reading_245_82_env after_refresh
     = (Ok (JStr "bearer-1"), s') /\
     sent s' = sent after_refresh /\
     autonomic_token s' = autonomic_token after_refresh /\
     ford_token s' = ford_token after_refresh /\
     token_expiration s' = token_expiration after_refresh) /\
  sent (snd (get_autonomic_token reading_245_82_env init_state))
  = [ PostFordAuth (username reading_245_82_env) (password reading_245_82_env);
      PostTokenExchange (JStr "ford-jwt") ].
Proof.
  split.
  - apply (proj1 (C3_cache_hit_sends_nothing_expired_runs_two_stages
                    reading_245_82_env after_refresh)).
    + vm_compute. reflexivity.
    + vm_compute. reflexivity.
  - apply (proj2 (C3_cache_hit_sends_nothing_expired_runs_two_stages
                    reading_245_82_env init_state)).
    + apply ten_second_clock_monotone.
    + vm_compute. discriminate.
Defined.

(** C4 on the empty metrics dict. *)
Lemma C4_witness_empty_metrics :
  metric_value (JObj []) "xevBatteryRange" = Ok JNull /\
  range_miles (JObj []) = Ok 0.
Proof.
  pose proof (C4_absent_range_gives_zero_miles [] eq_refl) as H.
  split; [ exact (proj1 H) | exact (proj1 (proj2 H)) ].
Defined.

(** On a status with no metric at all every projection returns its view:
    absence alone makes none of them raise. *)
Lemma projections_tolerate_empty_status :
  Forall (fun project => exists kv, project (JObj []) = Ok (JObj kv))
    [ battery_projection; door_projection; tire_projection;
      location_projection; climate_projection; vehicle_info_projection;
      warning_projection; charging_projection; trip_projection ].
Proof.
  repeat (apply Forall_cons || apply Forall_nil); eexists; vm_compute; reflexivity.
Qed.

(** With every battery metric absent, every entry of the battery view is
    [None], the miles entry apart. *)
Lemma battery_view_of_empty_status :
  battery_projection (JObj [])
  = Ok (JObj
          [ (JStr "main_battery_charge", JNull);
            (JStr "ev_battery_charge", JNull);
            (JStr "ev_battery_actual_charge", JNull);
            (JStr "ev_battery_range_km", JNull);
            (JStr "ev_battery_range_miles", JInt 0);
            (JStr "ev_battery_capacity_kwh", JNull);
            (JStr "ev_battery_energy_remaining_kwh", JNull);
            (JStr "ev_battery_temperature", JNull);
            (JStr "ev_battery_voltage", JNull);
            (JStr "ev_battery_performance", JNull);
            (JStr "ev_time_to_full_charge", JNull) ]).
Proof. vm_compute. reflexivity. Qed.

(** C5 as stated fails from the open to the close: with the open done, and
    still with every chunk written and the file object not yet closed, the
    path holds the empty file, neither the old record nor the new one. *)
Lemma C5_counterexample_killed_after_open :
  file_when_killed (fun n => n) 1 (Some old_record) (Some 245) (Some 82)
                   stamp_after
  = Some EmptyString /\
  file_when_killed (fun n => n) 14 (Some old_record) (Some 245) (Some 82)
                   stamp_after
  = Some EmptyString /\
  Some EmptyString <> Some old_record /\
  Some EmptyString <> Some (state_record (Some 245) (Some 82) stamp_after).
Proof.
  split; [ reflexivity | split; [ reflexivity | ] ].
  split; vm_compute; discriminate.
Qed.

(** The amended C5 for a kill after all fourteen operations before the
    close: the record is written to the file object, the path has the empty
    file. *)
Lemma C5_witness_killed_before_close :
  file_when_killed (fun n => n) 14 (Some old_record) (Some 245) (Some 82)
                   stamp_after
  = Some EmptyString.
Proof.
  apply (proj1 (proj2 (proj2
           (C5_save_writes_in_place (fun n => n) (Some old_record)
                                    (Some 245) (Some 82) stamp_after 14)))).
  - change (1 <= 14 < 15)%nat. lia.
  - apply Nat.ltb_lt. vm_compute. reflexivity.
Defined.

(** A back end that displays and one that raises leave the monitor with
    the same stored reading, the same file and the same notification. *)
Lemma same_state_whatever_the_notifier :
  monitor_view (snd (check_battery reading_245_82_env seen_250_80))
  = monitor_view
      (snd (check_battery reading_245_82_broken_notifier_env seen_250_80)).
Proof. vm_compute. reflexivity. Qed.

(** C6 with a notification back end that raises: the reading is stored,
    written out and read back. *)
Lemma C6_witness_reading_245_82 :
  (exists s2,
     check_battery reading_245_82_broken_notifier_env seen_250_80
     = (Ok true, s2) /\
     shown s2 =
       (shown seen_250_80
          ++ [(notification_title, notification_message 245 82 250 80)])%list /\
     last_range s2 = Some 245 /\ last_charge s2 = Some 82 /\
     saves s2 = S (saves seen_250_80) /\
     config_file s2
     = Some ("{" ++ dq ++ "last_range" ++ dq ++ ": 245, "
               ++ dq ++ "last_charge" ++ dq ++ ": 82, "
               ++ dq ++ "last_update" ++ dq ++ ": "
               ++ dq ++ "2025-01-01 00:00:00" ++ dq ++ "}") /\
     load_state (config_file s2) (JNull, JNull) = Some (JInt 245, JInt 82)) /\
  contains_str "Range has decreased by 5 miles"
    (notification_message 245 82 250 80) = true /\
  contains_str "Charge has increased by 2%"
    (notification_message 245 82 250 80) = true.
Proof.
  edestruct (C6_delta_message_and_save_regardless_of_notifier
               reading_245_82_broken_notifier_env seen_250_80)
    with (r := 245) (c := 82) (lr := 250) (lc := 80)
    as (Ha & _ & _ & Hb & Hc).
  - vm_compute. reflexivity.
  - vm_compute. reflexivity.
  - reflexivity.
  - reflexivity.
  - left. discriminate.
  - split; [ | split; [exact Hb | exact Hc] ].
    destruct Ha as (s2 & Hrun & Hshown & Hr & Hch & Hsaves & Hfile).
    destruct (Hfile eq_refl) as [Htext Hload].
    exists s2. do 5 (split; [assumption | ]).
    split; [exact Htext | ].
    exact (Hload eq_refl eq_refl eq_refl (JNull, JNull)).
Defined.

(** C7 on the answers of the healthy peer. *)
Lemma C7_witness_healthy_peer :
  (exists tok s',
     request_autonomic_token reading_245_82_env (JStr "ford-jwt") init_state
     = (Ok tok, s') /\
     tok = JStr "bearer-1" /\
     token_expiration s' = (clock reading_245_82_env 0 + 3600 - 60)%Q) /\
  (exists tok s',
     request_ford_token reading_245_82_env init_state = (Ok tok, s') /\
     tok = JStr "ford-jwt" /\
     token_expiration s' = (clock reading_245_82_env 0 + 300)%Q).
Proof.
  pose proof (C7_expiry_is_now_plus_expires_in_minus_60_and_primary_300
                reading_245_82_env init_state) as [Hx Hp].
  split.
  - destruct (Hx (JStr "ford-jwt") (Response 200 EmptyString (Some exchange_body))
                 [ (JStr "access_token", JStr "bearer-1");
                   (JStr "expires_in", JInt 3600) ]
                 (JInt 3600) (inject_Z 3600)
                 eq_refl eq_refl eq_refl eq_refl eq_refl)
      as (tok & s' & Hrun & Htok & _ & Hexp).
    exists tok, s'. split; [exact Hrun | ]. split; [ | exact Hexp ].
    inversion Htok. reflexivity.
  - destruct (Hp (Response 200 EmptyString (Some ford_auth_body))
                 [ (JStr "status", JInt 200);
                   (JStr "access_token", JStr "ford-jwt") ]
                 (JInt 200) eq_refl eq_refl eq_refl eq_refl eq_refl)
      as (tok & s' & Hrun & Htok & _ & Hexp).
    exists tok, s'. split; [exact Hrun | ]. split; [ | exact Hexp ].
    inversion Htok. reflexivity.
Defined.

(** C8 as worded fails on a raw range of 348.42308379374 km: the product
    of the numbers is 216.50000000000002..., whose nearest integer is 217,
    but the float product is exactly 216.5 and [round] takes the even
    neighbour 216. *)
Lemma C8_counterexample_float_product_is_a_tie :
  b64 (34842308379374 # 100000000000) = Some (6129523712268619 # 17592186044416) /\
  b64 ((6129523712268619 # 17592186044416) * KM_TO_MILES) = Some (433 # 2) /\
  res_bind (battery_projection
              (status_doc (JFloat (34842308379374 # 100000000000)) (JInt 80)))
           (fun view => py_get1 view "ev_battery_range_miles")
  = Ok (JInt 216) /\
  (inject_Z 216 + (1 # 2)
   < (34842308379374 # 100000000000) * (621371 # 1000000))%Q /\
  ((34842308379374 # 100000000000) * (621371 # 1000000)
   < inject_Z 217 + (1 # 2))%Q /\
  round_half_even ((34842308379374 # 100000000000) * (621371 # 1000000))
  = 217.
Proof.
  repeat split; vm_compute; reflexivity.
Qed.

(** C8 on a raw range of 100.0 km. *)
Lemma C8_witness_100_km :
  exists p : Q,
    b64 ((100 # 1) * KM_TO_MILES) = Some p /\
    range_miles
      (JObj [ (JStr "xevBatteryRange", metric (JFloat (100 # 1)));
              (JStr "xevBatteryActualStateOfCharge", metric (JInt 80)) ])
    = Ok (round_half_even p) /\
    round_half_even p = 62.
Proof.
  destruct (proj1 (C8_range_miles_rounds_the_float_product
                     (status_doc (JFloat (100 # 1)) (JInt 80))
                     (JObj [ (JStr "xevBatteryRange",
                              metric (JFloat (100 # 1)));
                             (JStr "xevBatteryActualStateOfCharge",
                              metric (JInt 80)) ])
                     (JFloat (100 # 1)) (100 # 1)
                     eq_refl eq_refl eq_refl)
                  (100 # 1) eq_refl)
    as (p & Hp & Hmiles & _).
  exists p. split; [exact Hp | ]. split; [exact Hmiles | ].
  vm_compute in Hp. inversion Hp. reflexivity.
Defined.

(** C9 where the telemetry endpoint answers 401: a string comes back. *)
Lemma C9_witness_unauthorized :
  Forall (answers_string seen_250_80) (projection_accessors unauthorized_env).
Proof.
  eapply (proj1 (proj2 (C9_projection_accessors_never_raise unauthorized_env))).
  vm_compute. reflexivity.
Defined.

(** C10 as stated fails after a failed exchange: the exchange token's
    cache test fails, the primary token's cache test succeeds on the token
    of the earlier refresh, and the new refresh sends the exchange request
    only. *)
Lemma C10_counterexample_primary_token_reused :
  sent after_failed_exchange
  = [ PostFordAuth (username exchange_down_env) (password exchange_down_env);
      PostTokenExchange (JStr "ford-jwt") ] /\
  fst (token_fresh exchange_down_env autonomic_token after_failed_exchange)
  = Ok false /\
  fst (token_fresh exchange_down_env ford_token
         (snd (token_fresh exchange_down_env autonomic_token
                 after_failed_exchange)))
  = Ok true /\
  sent (snd (get_autonomic_token exchange_down_env after_failed_exchange))
  = (sent after_failed_exchange ++ [PostTokenExchange (JStr "ford-jwt")])%list.
Proof. vm_compute. repeat split. Qed.

(** The amended C10 in that state. *)
Lemma C10_witness_after_failed_exchange :
  token_fresh exchange_down_env autonomic_token after_failed_exchange
  = (Ok false, after_failed_exchange) /\
  token_fresh exchange_down_env ford_token after_failed_exchange
  = (Ok true, tick_clock after_failed_exchange) /\
  get_autonomic_token exchange_down_env after_failed_exchange
  = request_autonomic_token exchange_down_env
      (ford_token after_failed_exchange) (tick_clock after_failed_exchange) /\
  sent (snd (get_autonomic_token exchange_down_env after_failed_exchange))
  = (sent after_failed_exchange
       ++ [PostTokenExchange (ford_token after_failed_exchange)])%list.
Proof.
  apply (proj2 (proj2 (C10_shared_expiry_primary_reused_while_window_open
                         exchange_down_env after_failed_exchange))).
  - vm_compute. reflexivity.
  - vm_compute. reflexivity.
  - vm_compute. reflexivity.
Defined.

(** * Further properties of the code *)

(** ** What a fetch sends *)

(** Whatever the telemetry endpoint answers, the fetch leaves the state the
    token call left, with its one request logged. *)
Lemma fetch_state E s token s0 :
  get_auth_token E s = (Ok token, s0) ->
  snd (get_vehicle_status E s) = log_request (GetStatus (vin E) token) s0.
Proof.
  intros H.
  unfold get_vehicle_status, bind, rewrap, try_except, http_send, raise, lift,
    dump_status_file, ret.
  rewrite H.
  destruct (http E (length (sent s0)) _) as [resp | msg]; [ | reflexivity ].
  destruct (status_code resp =? 200); [ | reflexivity ].
  destruct (response_json resp); [ | reflexivity ].
  destruct (status_dump E _); reflexivity.
Qed.

(** Without a token there is no fetch. *)
Lemma fetch_without_token E s e s1 :
  get_auth_token E s = (Raise e, s1) ->
  get_vehicle_status E s = (Raise e, s1).
Proof.
  intros H. unfold get_vehicle_status, bind. now rewrite H.
Qed.

(** An accessor leaves the state its fetch left. *)
Lemma accessor_state E prefix project s :
  snd (accessor E prefix project s) = snd (get_vehicle_status E s).
Proof.
  unfold accessor, try_except, bind, lift, ret.
  destruct (get_vehicle_status E s) as [[status | e] s1]; simpl.
  - destruct (project status); reflexivity.
  - reflexivity.
Qed.

(** The state a cache test leaves sends nothing and keeps the cache. *)
Lemma token_fresh_frame E tok s :
  let s1 := snd (token_fresh E tok s) in
  sent s1 = sent s /\ ford_token s1 = ford_token s /\
  autonomic_token s1 = autonomic_token s /\
  token_expiration s1 = token_expiration s /\
  monitor_view s1 = monitor_view s.
Proof.
  rewrite token_fresh_spec. destruct (truthy (tok s)); simpl; repeat split.
Qed.

(** The requests of a token call: none, the exchange, or both stages; never
    a telemetry request. *)
Lemma token_call_requests E s :
  exists new,
    sent (snd (get_auth_token E s)) = (sent s ++ new)%list /\
    forallb is_auth_request new = true /\ (length new <= 2)%nat.
Proof.
  unfold get_auth_token, get_autonomic_token, bind.
  pose proof (token_fresh_frame E autonomic_token s) as F1. cbv zeta in F1.
  destruct (token_fresh E autonomic_token s) as [[hit | e] s1] eqn:H1;
    simpl in F1; destruct F1 as (S1 & _).
  2: { exists []. rewrite app_nil_r. simpl. auto. }
  destruct hit.
  { exists []. simpl. rewrite app_nil_r. auto. }
  unfold get_ford_token, bind.
  pose proof (token_fresh_frame E ford_token s1) as F2. cbv zeta in F2.
  destruct (token_fresh E ford_token s1) as [[hit2 | e] s2] eqn:H2;
    simpl in F2; destruct F2 as (S2 & _).
  2: { exists []. simpl. rewrite app_nil_r. split; [congruence | auto]. }
  destruct hit2.
  - unfold gets.
    exists [PostTokenExchange (ford_token s2)].
    rewrite request_autonomic_token_sent. simpl.
    split; [congruence | auto].
  - pose proof (request_ford_token_sent E s2) as Hlog.
    destruct (request_ford_token E s2) as [[ford | e] s3]; simpl in Hlog.
    + exists [PostFordAuth (username E) (password E); PostTokenExchange ford].
      rewrite request_autonomic_token_sent, Hlog, <- app_assoc. simpl.
      split; [congruence | auto].
    + exists [PostFordAuth (username E) (password E)]. simpl.
      split; [congruence | auto].
Qed.

(** X1: a fetch made while the exchange token is cached and the clock is
    before [token_expiration] sends exactly one request, the telemetry GET
    with the cached token as bearer; it reads the clock once and leaves the
    cache as it is, whatever the endpoint answers. *)
Theorem X1_warm_fetch_sends_one_get (E : Env) (s : St) :
  truthy (autonomic_token s) = true ->
  (clock E (reads s) < token_expiration s)%Q ->
  let s' := snd (get_vehicle_status E s) in
  sent s' = (sent s ++ [GetStatus (vin E) (autonomic_token s)])%list /\
  reads s' = S (reads s) /\
  autonomic_token s' = autonomic_token s /\
  ford_token s' = ford_token s /\
  token_expiration s' = token_expiration s.
Proof.
  intros Htok Hnow s'. subst s'.
  rewrite (fetch_state E s (autonomic_token s) (tick_clock s)).
  - repeat split.
  - apply get_autonomic_token_hit; assumption.
Qed.

(** X2: when the token call raises, no telemetry request is sent: the fetch
    raises the same exception in the same state, the requests added are
    authentication requests only (two at most), the battery accessor
    returns its prefix followed by the error text and [check_battery]
    answers [False]. *)
Theorem X2_no_fetch_without_token (E : Env) (s s1 : St) (e : exn) :
  get_auth_token E s = (Raise e, s1) ->
  get_vehicle_status E s = (Raise e, s1) /\
  get_battery_status E s
  = (Ok (JStr ("Unable to retrieve battery information: " ++ exn_msg e)), s1) /\
  check_battery E s = (Ok false, s1) /\
  exists new,
    sent s1 = (sent s ++ new)%list /\
    forallb is_auth_request new = true /\ (length new <= 2)%nat.
Proof.
  intros H.
  pose proof (fetch_without_token E s e s1 H) as Hf.
  split; [exact Hf | ].
  split; [ now apply accessor_on_failure | ].
  split; [ now apply (check_battery_on_failure E s e s1) | ].
  pose proof (token_call_requests E s) as Hreq. rewrite H in Hreq.
  exact Hreq.
Qed.

(** ** Refused logins and odd exchange answers *)

(** With nothing cached, a token call starts with the primary
    authentication, in the initial state itself. *)
Lemma cold_token_call E s :
  truthy (autonomic_token s) = false ->
  truthy (ford_token s) = false ->
  get_auth_token E s
  = bind (request_ford_token E) (request_autonomic_token E) s.
Proof.
  intros Ha Hf.
  unfold get_auth_token, get_autonomic_token, get_ford_token.
  unfold bind at 1. rewrite token_fresh_spec, Ha.
  unfold bind at 1. unfold bind at 1. rewrite token_fresh_spec, Hf.
  reflexivity.
Qed.

(** The primary authentication, refused at the HTTP level. *)
Lemma request_ford_token_refused E s resp :
  http E (length (sent s)) (PostFordAuth (username E) (password E))
  = Responded resp ->
  status_code resp <> 200 ->
  request_ford_token E s
  = (Raise (Exn "Exception"
              ("Ford token request failed: Ford authentication failed: "
                 ++ str_of_Z (status_code resp) ++ " - " ++ text resp)),
     log_request (PostFordAuth (username E) (password E)) s).
Proof.
  intros Hresp Hcode.
  unfold request_ford_token, rewrap, try_except, bind, http_send, raise.
  rewrite Hresp. now rewrite (proj2 (Z.eqb_neq _ _) Hcode).
Qed.

(** The primary authentication, refused inside a 200 answer. *)
Lemma request_ford_token_rejected E s resp kv st :
  http E (length (sent s)) (PostFordAuth (username E) (password E))
  = Responded resp ->
  status_code resp = 200 ->
  json_body resp = Some (JObj kv) ->
  py_get1 (JObj kv) "status" = Ok st ->
  py_eq_int st 200 = false ->
  request_ford_token E s
  = (Raise (Exn "Exception"
              ("Ford token request failed: Ford authentication failed: "
                 ++ py_str E (match assoc (JStr "message") kv with
                              | Some m => m
                              | None => JStr "Unknown error"
                              end))),
     log_request (PostFordAuth (username E) (password E)) s).
Proof.
  intros Hresp Hcode Hbody Hst Hno.
  unfold request_ford_token, rewrap, try_except, bind, http_send, raise, lift,
    response_json, py_get1, py_get in *.
  rewrite Hresp, Hcode, Hbody. simpl.
  destruct (assoc (JStr "status") kv); inversion Hst; subst st;
    rewrite Hno; destruct (assoc (JStr "message") kv); reflexivity.
Qed.

(** X3: on a first call (nothing cached), a primary authentication that is
    refused, with an HTTP status other than 200 or with a [status] other
    than 200 inside a 200 answer, ends the poll after that one request: no
    exchange and no telemetry request follow, the cache stays empty, and the
    battery accessor returns the three prefixes of the layers it went
    through followed by the status and body, or by the answer's [message]
    ("Unknown error" when there is none). *)
Theorem X3_refused_login_text_and_single_request
    (E : Env) (s : St) (resp : response) :
  truthy (autonomic_token s) = false ->
  truthy (ford_token s) = false ->
  http E (length (sent s)) (PostFordAuth (username E) (password E))
  = Responded resp ->
  let s1 := log_request (PostFordAuth (username E) (password E)) s in
  (status_code resp <> 200 ->
   get_battery_status E s
   = (Ok (JStr ("Unable to retrieve battery information: "
                  ++ "Ford token request failed: "
                  ++ "Ford authentication failed: "
                  ++ str_of_Z (status_code resp) ++ " - " ++ text resp)),
      s1)) /\
  (forall kv st,
     status_code resp = 200 ->
     json_body resp = Some (JObj kv) ->
     py_get1 (JObj kv) "status" = Ok st ->
     py_eq_int st 200 = false ->
     get_battery_status E s
     = (Ok (JStr ("Unable to retrieve battery information: "
                    ++ "Ford token request failed: "
                    ++ "Ford authentication failed: "
                    ++ py_str E (match assoc (JStr "message") kv with
                                 | Some m => m
                                 | None => JStr "Unknown error"
                                 end))),
        s1)) /\
  sent s1 = (sent s ++ [PostFordAuth (username E) (password E)])%list /\
  ford_token s1 = ford_token s /\ autonomic_token s1 = autonomic_token s.
Proof.
  intros Ha Hf Hresp s1.
  split; [ | split; [ | repeat split ] ].
  - intros Hcode.
    assert (Htok : get_auth_token E s
                   = (Raise (Exn "Exception"
                               ("Ford token request failed: "
                                  ++ "Ford authentication failed: "
                                  ++ str_of_Z (status_code resp) ++ " - "
                                  ++ text resp)), s1)).
    { rewrite (cold_token_call E s Ha Hf).
      apply bind_raise. now apply request_ford_token_refused. }
    unfold get_battery_status.
    rewrite (accessor_on_failure E _ _ s _ s1 (fetch_without_token E s _ s1 Htok)).
    reflexivity.
  - intros kv st Hcode Hbody Hst Hno.
    assert (Htok : get_auth_token E s
                   = (Raise (Exn "Exception"
                               ("Ford token request failed: "
                                  ++ "Ford authentication failed: "
                                  ++ py_str E (match assoc (JStr "message") kv with
                                               | Some m => m
                                               | None => JStr "Unknown error"
                                               end))), s1)).
    { rewrite (cold_token_call E s Ha Hf).
      apply bind_raise. now apply (request_ford_token_rejected E s resp kv st). }
    unfold get_battery_status.
    rewrite (accessor_on_failure E _ _ s _ s1 (fetch_without_token E s _ s1 Htok)).
    reflexivity.
Qed.

(** The exchange with no [expires_in] in its answer. *)
Lemma request_autonomic_token_default E ford s resp kv :
  http E (length (sent s)) (PostTokenExchange ford) = Responded resp ->
  status_code resp = 200 ->
  json_body resp = Some (JObj kv) ->
  assoc (JStr "expires_in") kv = None ->
  token_expiration (snd (request_autonomic_token E ford s))
  = (clock E (reads s) + inject_Z 3600 - 60)%Q /\
  exists tok, fst (request_autonomic_token E ford s) = Ok tok.
Proof.
  intros Hresp Hcode Hbody Hnone.
  unfold request_autonomic_token, rewrap, try_except, bind, http_send, lift,
    modify, raise, gets, time_time, response_json, py_get1, py_get,
    py_float_add.
  rewrite Hresp, Hcode, Hbody. simpl. rewrite Hnone.
  destruct (assoc (JStr "access_token") kv); simpl; eauto.
Qed.

(** X4: when the exchange answer carries no [expires_in], the exchange
    still succeeds and the token is cached for an hour less the margin:
    [token_expiration] is the clock reading plus 3540 seconds. *)
Theorem X4_missing_expires_in_means_3540_seconds
    (E : Env) (ford : pyval) (s : St) (resp : response)
    (kv : list (pyval * pyval)) :
  http E (length (sent s)) (PostTokenExchange ford) = Responded resp ->
  status_code resp = 200 ->
  json_body resp = Some (JObj kv) ->
  assoc (JStr "expires_in") kv = None ->
  (exists tok, fst (request_autonomic_token E ford s) = Ok tok) /\
  (token_expiration (snd (request_autonomic_token E ford s))
   == clock E (reads s) + 3540)%Q.
Proof.
  intros Hresp Hcode Hbody Hnone.
  destruct (request_autonomic_token_default E ford s resp kv
              Hresp Hcode Hbody Hnone) as [Hexp Hok].
  split; [exact Hok | ].
  rewrite Hexp. ring.
Qed.

(** X5: an exchange answered with 200 and an [expires_in] that is no
    number raises, but only after the new exchange token has been stored:
    the token is cached under the time stamp that was there before (the
    primary token's window), and while the clock is before that time stamp
    the next call returns this token without any request. *)
Theorem X5_bad_expires_in_raises_but_caches_the_token
    (E : Env) (ford : pyval) (s : St) (resp : response)
    (kv : list (pyval * pyval)) (tok v : pyval) :
  http E (length (sent s)) (PostTokenExchange ford) = Responded resp ->
  status_code resp = 200 ->
  json_body resp = Some (JObj kv) ->
  assoc (JStr "access_token") kv = Some tok ->
  assoc (JStr "expires_in") kv = Some v ->
  num_of v = None ->
  let s' := snd (request_autonomic_token E ford s) in
  (exists e, fst (request_autonomic_token E ford s) = Raise e) /\
  autonomic_token s' = tok /\
  token_expiration s' = token_expiration s /\
  (truthy tok = true ->
   (clock E (reads s') < token_expiration s)%Q ->
   exists s'', get_autonomic_token E s' = (Ok tok, s'') /\ sent s'' = sent s').
Proof.
  intros Hresp Hcode Hbody Htok Hv Hnum s'.
  assert (Hrun : request_autonomic_token E ford s
                 = (Raise (Exn "Exception"
                             ("Autonomic token request failed: "
                                ++ "unsupported operand type(s) for +: 'float' and '"
                                ++ type_name v ++ "'")),
                    tick_clock (set_autonomic_token tok
                                  (log_request (PostTokenExchange ford) s)))).
  { unfold request_autonomic_token, rewrap, try_except, bind, http_send, lift,
      modify, raise, gets, time_time, response_json, py_get1, py_get,
      py_float_add.
    rewrite Hresp, Hcode, Hbody. simpl. rewrite Htok, Hv, Hnum. reflexivity. }
  subst s'. rewrite Hrun. simpl.
  split; [eauto | ]. split; [reflexivity | ]. split; [reflexivity | ].
  intros Htruthy Hnow.
  eexists. split.
  - apply get_autonomic_token_hit; [exact Htruthy | exact Hnow].
  - reflexivity.
Qed.

(** ** The summary and its fetches *)

(** An accessor run on a warm cache: one GET, one clock reading, the cache
    untouched. *)
Lemma warm_accessor E prefix project s :
  truthy (autonomic_token s) = true ->
  (clock E (reads s) < token_expiration s)%Q ->
  let s' := snd (accessor E prefix project s) in
  sent s' = (sent s ++ [GetStatus (vin E) (autonomic_token s)])%list /\
  reads s' = S (reads s) /\
  autonomic_token s' = autonomic_token s /\
  token_expiration s' = token_expiration s.
Proof.
  intros Htok Hnow s'. subst s'.
  rewrite accessor_state.
  rewrite (fetch_state E s (autonomic_token s) (tick_clock s)).
  - repeat split.
  - apply get_autonomic_token_hit; assumption.
Qed.

(** The six accessors of the summary and the states between them. *)
Lemma summary_chain E s :
  let s1 := snd (get_vehicle_info E s) in
  let s2 := snd (get_battery_status E s1) in
  let s3 := snd (get_door_status E s2) in
  let s4 := snd (get_climate_status E s3) in
  let s5 := snd (get_location E s4) in
  let s6 := snd (get_tire_status E s5) in
  snd (get_status_summary E s) = s6.
Proof.
  intros s1 s2 s3 s4 s5 s6.
  destruct (accessor_returns E "Unable to retrieve vehicle information: "
              vehicle_info_projection s) as (vi & t1 & H1).
  destruct (accessor_returns E "Unable to retrieve battery information: "
              battery_projection t1) as (bi & t2 & H2).
  destruct (accessor_returns E "Unable to retrieve door information: "
              door_projection t2) as (di & t3 & H3).
  destruct (accessor_returns E "Unable to retrieve climate information: "
              climate_projection t3) as (ci & t4 & H4).
  destruct (accessor_returns E "Unable to retrieve location information: "
              location_projection t4) as (li & t5 & H5).
  destruct (accessor_returns E "Unable to retrieve tire information: "
              tire_projection t5) as (ti & t6 & H6).
  subst s1 s2 s3 s4 s5 s6.
  unfold get_status_summary, get_vehicle_info, get_battery_status,
    get_door_status, get_climate_status, get_location, get_tire_status.
  rewrite H1. simpl snd. rewrite H2. simpl snd. rewrite H3. simpl snd.
  rewrite H4. simpl snd. rewrite H5. simpl snd. rewrite H6. simpl snd.
  unfold try_except at 1.
  unfold bind at 1. rewrite H1.
  unfold bind at 1. rewrite H2.
  unfold bind at 1. rewrite H3.
  unfold bind at 1. rewrite H4.
  unfold bind at 1. rewrite H5.
  unfold bind at 1. rewrite H6.
  unfold lift, ret.
  destruct (summary_of E vi bi di ci li ti); reflexivity.
Qed.

(** X6: [get_status_summary] fetches the raw status six times, once in each
    accessor it calls.  With the exchange token cached and the clock before
    [token_expiration] through its six readings, the summary sends exactly
    six telemetry GETs with that token and nothing else, whatever the
    answers are. *)
Theorem X6_summary_sends_six_gets (E : Env) (s : St) :
  clock_monotone E ->
  truthy (autonomic_token s) = true ->
  (clock E (reads s + 5) < token_expiration s)%Q ->
  sent (snd (get_status_summary E s))
  = (sent s ++ repeat (GetStatus (vin E) (autonomic_token s)) 6)%list.
Proof.
  intros Hmono Htok Hlate.
  assert (Hwarm : forall i, (i <= 5)%nat ->
                    (clock E (reads s + i) < token_expiration s)%Q).
  { intros i Hi. eapply Qle_lt_trans; [ | exact Hlate ].
    apply Hmono. lia. }
  rewrite summary_chain. cbv zeta.
  unfold get_vehicle_info, get_battery_status, get_door_status,
    get_climate_status, get_location, get_tire_status.
  set (g := GetStatus (vin E) (autonomic_token s)).
  destruct (warm_accessor E "Unable to retrieve vehicle information: "
              vehicle_info_projection s Htok)
    as (S1 & R1 & A1 & X1).
  { rewrite <- (Nat.add_0_r (reads s)). apply Hwarm. lia. }
  set (s1 := snd (accessor E "Unable to retrieve vehicle information: "
                    vehicle_info_projection s)) in *.
  destruct (warm_accessor E "Unable to retrieve battery information: "
              battery_projection s1)
    as (S2 & R2 & A2 & X2).
  { now rewrite A1. }
  { rewrite R1, X1. replace (S (reads s)) with (reads s + 1)%nat by lia.
    apply Hwarm. lia. }
  set (s2 := snd (accessor E "Unable to retrieve battery information: "
                    battery_projection s1)) in *.
  destruct (warm_accessor E "Unable to retrieve door information: "
              door_projection s2)
    as (S3 & R3 & A3 & X3).
  { now rewrite A2, A1. }
  { rewrite R2, R1, X2, X1.
    replace (S (S (reads s))) with (reads s + 2)%nat by lia.
    apply Hwarm. lia. }
  set (s3 := snd (accessor E "Unable to retrieve door information: "
                    door_projection s2)) in *.
  destruct (warm_accessor E "Unable to retrieve climate information: "
              climate_projection s3)
    as (S4 & R4 & A4 & X4).
  { now rewrite A3, A2, A1. }
  { rewrite R3, R2, R1, X3, X2, X1.
    replace (S (S (S (reads s)))) with (reads s + 3)%nat by lia.
    apply Hwarm. lia. }
  set (s4 := snd (accessor E "Unable to retrieve climate information: "
                    climate_projection s3)) in *.
  destruct (warm_accessor E "Unable to retrieve location information: "
              location_projection s4)
    as (S5 & R5 & A5 & X5).
  { now rewrite A4, A3, A2, A1. }
  { rewrite R4, R3, R2, R1, X4, X3, X2, X1.
    replace (S (S (S (S (reads s))))) with (reads s + 4)%nat by lia.
    apply Hwarm. lia. }
  set (s5 := snd (accessor E "Unable to retrieve location information: "
                    location_projection s4)) in *.
  destruct (warm_accessor E "Unable to retrieve tire information: "
              tire_projection s5)
    as (S6 & _).
  { now rewrite A5, A4, A3, A2, A1. }
  { rewrite R5, R4, R3, R2, R1, X5, X4, X3, X2, X1.
    replace (S (S (S (S (S (reads s)))))) with (reads s + 5)%nat by lia.
    apply Hwarm. lia. }
  rewrite S6, S5, S4, S3, S2, S1, A5, A4, A3, A2, A1.
  fold g. rewrite <- !app_assoc. reflexivity.
Qed.

(** ** Cycles of the monitor *)

(** Two entries of the battery view, read off a successful projection. *)
Lemma battery_view_entries status metrics view :
  metrics_of status = Ok metrics ->
  battery_projection status = Ok view ->
  py_get1 view "ev_battery_actual_charge"
  = metric_value metrics "xevBatteryActualStateOfCharge" /\
  exists z, py_get1 view "ev_battery_range_miles" = Ok (JInt z).
Proof.
  intros Hm Hview. unfold battery_projection in Hview.
  rewrite Hm in Hview. cbn [res_bind] in Hview.
  do 2 res_step Hview.
  destruct (metric_value metrics "xevBatteryActualStateOfCharge")
    as [charge | e] eqn:Hc; cbn [res_bind] in Hview; [ | discriminate ].
  repeat res_step Hview.
  split; [ reflexivity | eexists; reflexivity ].
Qed.

(** A projection that succeeded had its metrics. *)
Lemma battery_projection_metrics status view :
  battery_projection status = Ok view ->
  exists metrics, metrics_of status = Ok metrics.
Proof.
  unfold battery_projection. intros H.
  destruct (metrics_of status) as [m | e]; [eauto | discriminate].
Qed.

(** X7: the monitor compares each reading with the previous one.  After a
    cycle that obtained the reading [(r, c)], a following cycle that
    obtains [(r', c')] asks for a notification if and only if [r'] differs
    from [r] or [c'] from [c]; its message is built from those two readings,
    and a repeated reading shows nothing. *)
Theorem X7_next_cycle_compares_with_previous_reading
    (E : Env) (s s1 s3 : St) (view view' : pyval) (r c r' c' : Z) :
  get_battery_status E s = (Ok view, s1) ->
  reading_of view = Some (r, c) ->
  let s2 := snd (check_battery E s) in
  get_battery_status E s2 = (Ok view', s3) ->
  reading_of view' = Some (r', c') ->
  exists fired s4,
    check_battery E s2 = (Ok fired, s4) /\
    (fired = true <-> (r' <> r \/ c' <> c)) /\
    shown s4
    = (shown s2 ++
         if fired then [(notification_title, notification_message r' c' r c)]
         else [])%list /\
    last_range s4 = Some r' /\ last_charge s4 = Some c'.
Proof.
  intros Hfetch Hread s2 Hfetch' Hread'.
  assert (Hs2 : last_range s2 = Some r /\ last_charge s2 = Some c).
  { subst s2. rewrite (check_battery_on_reading _ _ _ _ _ _ Hfetch Hread).
    destruct (compare_and_notify_spec E r c s1)
      as (fired & t & Hrun & H1 & H2 & _).
    rewrite (try_except_ok _ _ _ _ _ Hrun). simpl. auto. }
  destruct Hs2 as [Hlr Hlc].
  rewrite (check_battery_on_reading _ _ _ _ _ _ Hfetch' Hread').
  pose proof (get_battery_status_keeps E s2) as Hkeep.
  rewrite Hfetch' in Hkeep. simpl in Hkeep.
  apply monitor_view_inv in Hkeep.
  destruct Hkeep as (Klr & Klc & Kshown & _).
  destruct (compare_and_notify_spec E r' c' s3)
    as (fired & s4 & Hrun & H1 & H2 & _ & _ & Hcase).
  rewrite Klr, Klc, Hlr, Hlc, Kshown in Hcase.
  destruct Hcase as [Hfired Hshown].
  exists fired, s4. rewrite (try_except_ok _ _ _ _ _ Hrun).
  split; [reflexivity | ].
  split; [ rewrite Hfired; apply changed_iff | ].
  split; [exact Hshown | ]. split; assumption.
Qed.

(** X8: when the status is fetched but carries no
    [xevBatteryActualStateOfCharge] metric, the cycle is skipped:
    [check_battery] answers [False] and shows, stores and saves nothing, so
    the stored reading stays the baseline of the next comparison. *)
Theorem X8_missing_charge_skips_the_cycle
    (E : Env) (s s1 : St) (status : pyval) (kv : list (pyval * pyval)) :
  get_vehicle_status E s = (Ok status, s1) ->
  metrics_of status = Ok (JObj kv) ->
  assoc (JStr "xevBatteryActualStateOfCharge") kv = None ->
  check_battery E s = (Ok false, s1) /\ monitor_view s1 = monitor_view s.
Proof.
  intros Hfetch Hm Habsent.
  split.
  - unfold check_battery, get_battery_status, accessor.
    unfold try_except at 1. unfold bind at 1. unfold try_except at 1.
    unfold bind at 1. rewrite Hfetch. unfold lift at 1.
    destruct (battery_projection status) as [view | e] eqn:Hview.
    + destruct (battery_view_entries status (JObj kv) view Hm Hview)
        as [Hcharge [z Hmiles]].
      rewrite (metric_value_absent kv _ Habsent) in Hcharge.
      unfold bind, lift. rewrite Hmiles, Hcharge. reflexivity.
    + reflexivity.
  - pose proof (keeps_get_vehicle_status_at E s) as Hkeep.
    now rewrite Hfetch in Hkeep.
Qed.

(** X9: in every battery view the projection builds, the miles entry is an
    [int], never [None]; so whether the monitor has a reading depends on
    the charge entry alone: there is none exactly when the charge is [None]
    or cannot be rounded. *)
Theorem X9_reading_depends_on_charge_alone (status view : pyval) :
  battery_projection status = Ok view ->
  (exists z, py_get1 view "ev_battery_range_miles" = Ok (JInt z)) /\
  (reading_of view = None <->
     exists raw,
       py_get1 view "ev_battery_actual_charge" = Ok raw /\
       (raw = JNull \/ exists e, py_round raw = Raise e)).
Proof.
  intros Hview.
  destruct (battery_projection_metrics status view Hview) as [metrics Hm].
  destruct (battery_view_entries status metrics view Hm Hview)
    as [Hcharge [z Hmiles]].
  split; [eauto | ].
  destruct (battery_projection_dict status view Hview) as [entries ->].
  unfold reading_of. rewrite Hmiles.
  destruct (py_get1 (JObj entries) "ev_battery_actual_charge")
    as [raw | e] eqn:Hraw.
  - split.
    + intros H. exists raw. split; [reflexivity | ].
      destruct raw; simpl in H; try discriminate;
        (now left) || (right; eexists; reflexivity).
    + intros (raw' & Heq & Hcase). inversion Heq; subst raw'.
      destruct Hcase as [-> | [e He]]; [reflexivity | ].
      destruct raw; simpl in He; try discriminate; reflexivity.
  - unfold py_get1, py_get in Hraw.
    destruct (assoc (JStr "ev_battery_actual_charge") entries); discriminate.
Qed.

(** ** The loop *)

Lemma compare_and_notify_slept E r c s :
  slept (snd (compare_and_notify E r c s)) = slept s.
Proof.
  unfold compare_and_notify, bind, gets, show_notification, remember, modify,
    save_state, ret.
  destruct (last_range s); destruct (last_charge s); try reflexivity.
  destruct (negb (r =? z) || negb (c =? z0)); [ | reflexivity ].
  destruct (notify_backend E _ _ _); reflexivity.
Qed.

Lemma check_battery_slept E s :
  slept (snd (check_battery E s)) = slept s.
Proof.
  pose proof (get_battery_status_keeps E s) as Hkeep.
  apply monitor_view_inv in Hkeep. destruct Hkeep as (_ & _ & _ & _ & _ & K).
  unfold check_battery, try_except, bind, lift, ret.
  destruct (get_battery_status E s) as [[view | e] s1]; simpl in K;
    [ | exact K ].
  destruct (py_get1 view "ev_battery_range_miles") as [rr | ?]; [ | exact K ].
  destruct (py_get1 view "ev_battery_actual_charge") as [rc | ?]; [ | exact K ].
  destruct (is_none rr || is_none rc); [exact K | ].
  destruct (py_round rr) as [r | ?]; [ | exact K ].
  destruct (py_round rc) as [c | ?]; [ | exact K ].
  pose proof (compare_and_notify_slept E r c s1) as Hc.
  destruct (compare_and_notify E r c s1) as [[b | e] s2]; simpl in *; congruence.
Qed.

(** One pass with a usable interval: one sleep of that length. *)
Lemma run_iteration_slept E interval s :
  0 <= interval ->
  fst (run_iteration E interval s) = Ok tt /\
  slept (snd (run_iteration E interval s)) = (slept s ++ [interval])%list.
Proof.
  intros Hint.
  pose proof (check_battery_slept E s) as Hs.
  destruct (check_battery_never_raises E s) as [b Hb].
  unfold run_iteration, try_except, bind.
  destruct (check_battery E s) as [[b' | e] s1]; simpl in *; [ | discriminate ].
  unfold time_sleep.
  destruct (interval <? 0) eqn:Hneg; [ apply Z.ltb_lt in Hneg; lia | ].
  simpl. now rewrite Hs.
Qed.

(** X10: the loop never stops on a failure and never uses the 30 second
    arm for a failed poll: with a non-negative interval, [n] passes of
    [run] return with exactly [n] sleeps added, each of the configured
    interval, whatever the network, the disk and the notifier do. *)
Theorem X10_n_passes_sleep_n_intervals (E : Env) (interval : Z) (n : nat) :
  0 <= interval ->
  forall s,
    fst (run E interval n s) = Ok tt /\
    slept (snd (run E interval n s)) = (slept s ++ repeat interval n)%list.
Proof.
  intros Hint. induction n as [ | n IH]; intros s.
  - simpl. now rewrite app_nil_r.
  - destruct (run_iteration_slept E interval s Hint) as [Hok Hsl].
    simpl run. unfold bind.
    destruct (run_iteration E interval s) as [[u | e] s1]; simpl in *;
      [ | discriminate ].
    destruct (IH s1) as [IH1 IH2].
    split; [exact IH1 | ].
    rewrite IH2, Hsl, <- app_assoc. reflexivity.
Qed.

(** ** Mileage and windows *)

Lemma get_mileage_string E s :
  exists msg s', get_mileage E s = (Ok (JStr msg), s').
Proof.
  unfold get_mileage, accessor, try_except, bind, lift, ret.
  destruct (get_vehicle_status E s) as [[status | e] s1]; [ | eauto ].
  destruct (mileage_projection status) as [v | e] eqn:Hv; [ | eauto ].
  unfold mileage_projection in Hv.
  do 2 res_step Hv.
  destruct (negb (is_none x0)).
  - repeat res_step Hv. eauto.
  - inversion Hv. eauto.
Qed.

(** X11: [get_mileage] always returns a sentence (a string, never a dict
    and never an exception), and it agrees with [get_vehicle_info] on the
    same status: where the vehicle view has [odometer_miles = m] the
    sentence is "Vehicle has m miles on it.", and where it has [None] the
    sentence is "Odometer information not available".  An odometer of 0 is
    a value (0 miles), not an absence. *)
Theorem X11_mileage_agrees_with_vehicle_info (status : pyval) :
  (forall view,
     vehicle_info_projection status = Ok view ->
     (exists m,
        py_get1 view "odometer_miles" = Ok (JInt m) /\
        mileage_projection status
        = Ok (JStr ("Vehicle has " ++ str_of_Z m ++ " miles on it."))) \/
     (py_get1 view "odometer_miles" = Ok JNull /\
      py_get1 view "odometer_km" = Ok JNull /\
      mileage_projection status
      = Ok (JStr "Odometer information not available"))) /\
  (forall E s, exists msg s', get_mileage E s = (Ok (JStr msg), s')) /\
  mileage_projection
    (JObj [ (JStr "metrics", JObj [ (JStr "odometer", metric (JInt 0)) ]) ])
  = Ok (JStr "Vehicle has 0 miles on it.").
Proof.
  split; [ | split; [ intros E s; apply get_mileage_string | reflexivity ] ].
  intros view Hview. unfold vehicle_info_projection in Hview.
  do 3 res_step Hview.
  repeat res_step Hview.
  unfold mileage_projection. rewrite Hx. cbn [res_bind].
  rewrite Hx0. cbn [res_bind].
  unfold miles_or_none in Hx1.
  destruct (is_none x0) eqn:Hnone.
  - right. inversion Hx1; subst. destruct x0; try discriminate.
    simpl. auto.
  - left. simpl negb. cbv iota.
    destruct (py_mul_float x0 KM_TO_MILES) as [p | e]; cbn [res_bind] in *;
      [ | discriminate ].
    simpl in Hx1. inversion Hx1; subst.
    eexists. split; reflexivity.
Qed.

Lemma assoc_set_window_entries k v kv :
  Forall window_entry kv -> window_entry (k, v) ->
  Forall window_entry (assoc_set k v kv).
Proof.
  intros Hkv (id & lo & up & Heq). inversion Heq; subst k v. clear Heq.
  induction kv as [ | [k' v'] rest IH]; cbn [assoc_set].
  - constructor; [ | constructor ]. now exists id, lo, up.
  - inversion Hkv as [ | ? ? Hhead Hrest ]; subst.
    destruct (key_eqb (JStr id) k').
    + constructor; [ | exact Hrest ].
      destruct Hhead as (id' & lo' & up' & Heq). inversion Heq; subst.
      now exists id', lo, up.
    + constructor; [exact Hhead | now apply IH].
Qed.

Lemma collect_windows_entries E items : forall acc kv,
  Forall window_entry acc ->
  collect_windows E items acc = Ok kv ->
  Forall window_entry kv.
Proof.
  induction items as [ | window rest IH]; intros acc kv Hacc H; simpl in H.
  - now inversion H; subst.
  - do 6 res_step H.
    unfold py_setitem in H. simpl hashable in H. cbn [res_bind] in H.
    eapply IH; [ | exact H ].
    apply assoc_set_window_entries; [exact Hacc | ].
    eexists. eexists. eexists. reflexivity.
Qed.

(** X12: the window view holds only complete entries: every key is a
    string (the window name and side joined by an underscore) and every
    value is a dict with exactly the two entries [lower_bound] and
    [upper_bound]; without a [windowStatus] metric the view is the empty
    dict.  The accessor on top of it returns a dict or a string. *)
Theorem X12_window_view_entries_are_complete (E : Env) (status : pyval) :
  (forall view,
     window_projection E status = Ok view ->
     exists kv, view = JObj kv /\ Forall window_entry kv) /\
  (forall kv,
     metrics_of status = Ok (JObj kv) ->
     assoc (JStr "windowStatus") kv = None ->
     window_projection E status = Ok (JObj [])) /\
  total_dict_or_str (get_window_status E).
Proof.
  split; [ | split ].
  - intros view H. unfold window_projection in H.
    do 4 res_step H. inversion H; subst.
    eexists. split; [reflexivity | ].
    eapply collect_windows_entries; [ constructor | eassumption ].
  - intros kv Hm Habs. unfold window_projection. rewrite Hm.
    cbn [res_bind]. unfold py_get. rewrite Habs. reflexivity.
  - apply accessor_total. intros st v H.
    unfold window_projection in H. do 4 res_step H. inversion H. eauto.
Qed.

(** ** Dicts built in a loop *)

(** What makes two keys the same key of a dict. *)
Lemma key_eqb_cases a b :
  key_eqb a b = true <->
  (a = JNull /\ b = JNull) \/
  (exists s, a = JStr s /\ b = JStr s) \/
  (exists x y, num_of a = Some x /\ num_of b = Some y /\ (x == y)%Q).
Proof.
  split.
  - destruct a, b; cbn [key_eqb num_of]; intros H; try discriminate;
      try (left; split; reflexivity);
      try (right; left; apply String.eqb_eq in H; subst; eauto);
      right; right; apply Qeq_bool_iff in H; eauto.
  - intros [[-> ->] | [(s & -> & ->) | (x & y & Hx & Hy & Hxy)]].
    + reflexivity.
    + cbn [key_eqb]. apply String.eqb_refl.
    + destruct a, b; cbn [key_eqb num_of] in *; try discriminate;
        inversion Hx; inversion Hy; subst; now apply Qeq_bool_iff.
Qed.

Lemma key_eqb_sym a b : key_eqb a b = true -> key_eqb b a = true.
Proof.
  rewrite !key_eqb_cases.
  intros [[-> ->] | [(s & -> & ->) | (x & y & Hx & Hy & Hxy)]]; eauto.
  right; right. exists y, x. repeat split; auto. now symmetry.
Qed.

Lemma key_eqb_trans a b c :
  key_eqb a b = true -> key_eqb b c = true -> key_eqb a c = true.
Proof.
  rewrite !key_eqb_cases.
  intros [[Ea Eb] | [(s & Ea & Eb) | (x & y & Hx & Hy & Hxy)]]
         [[Eb' Ec] | [(s' & Eb' & Ec) | (x' & y' & Hx' & Hy' & Hxy')]].
  - left. now split.
  - subst. discriminate.
  - subst. discriminate.
  - subst. discriminate.
  - right; left. subst. inversion Eb'; subst. eauto.
  - subst. discriminate.
  - subst. discriminate.
  - subst. discriminate.
  - right; right. exists x, y'. repeat split; auto.
    rewrite Hy in Hx'. inversion Hx'; subst. now rewrite Hxy.
Qed.

(** Lookup after an update: the updated key reads the new value, every
    other key reads what it read before. *)
Lemma assoc_assoc_set k k' v kv :
  assoc k (assoc_set k' v kv) = if key_eqb k k' then Some v else assoc k kv.
Proof.
  induction kv as [ | [k2 v2] rest IH]; cbn [assoc_set assoc].
  - reflexivity.
  - destruct (key_eqb k' k2) eqn:H12; cbn [assoc].
    + destruct (key_eqb k k2) eqn:H2.
      * rewrite (key_eqb_trans k k2 k' H2 (key_eqb_sym _ _ H12)). reflexivity.
      * destruct (key_eqb k k') eqn:H1; [ | reflexivity ].
        rewrite (key_eqb_trans k k' k2 H1 H12) in H2. discriminate.
    + destruct (key_eqb k k2) eqn:H2.
      * destruct (key_eqb k k') eqn:H1; [ | reflexivity ].
        rewrite (key_eqb_trans k' k k2 (key_eqb_sym _ _ H1) H2) in H12.
        discriminate.
      * exact IH.
Qed.

Lemma collect_by_lookup id_key items : forall acc kv,
  collect_by id_key items acc = Ok kv ->
  forall k,
    assoc k kv = match last_value_for id_key k items with
                 | Some v => Some v
                 | None => assoc k acc
                 end.
Proof.
  induction items as [ | item rest IH]; intros acc kv H k.
  - simpl in H. inversion H; subst. reflexivity.
  - cbn [collect_by] in H.
    destruct (py_get1 item id_key) as [i | ?] eqn:Hi; cbn [res_bind] in H;
      [ | discriminate ].
    destruct (py_get1 item "value") as [v | ?] eqn:Hv; cbn [res_bind] in H;
      [ | discriminate ].
    unfold py_setitem in H.
    destruct (hashable i); cbn [res_bind] in H; [ | discriminate ].
    rewrite (IH _ _ H k). cbn [last_value_for]. rewrite Hi, Hv.
    destruct (last_value_for id_key k rest); [reflexivity | ].
    rewrite assoc_assoc_set. destruct (key_eqb k i); reflexivity.
Qed.

(** X13: the [doors] and [locks] dicts of the door view answer a lookup
    for a door id with the value of the last item of the corresponding
    status list that names that id (later items overwrite earlier ones),
    and with nothing for an id no item names. *)
Theorem X13_door_view_holds_last_value_per_door
    (status metrics door_seq lock_seq view : pyval)
    (door_items lock_items : list pyval) :
  metrics_of status = Ok metrics ->
  py_get metrics "doorStatus" (JArr []) = Ok door_seq ->
  py_iter door_seq = Ok door_items ->
  py_get metrics "doorLockStatus" (JArr []) = Ok lock_seq ->
  py_iter lock_seq = Ok lock_items ->
  door_projection status = Ok view ->
  exists doors locks,
    py_get1 view "doors" = Ok (JObj doors) /\
    py_get1 view "locks" = Ok (JObj locks) /\
    (forall k, assoc k doors = last_value_for "vehicleDoor" k door_items) /\
    (forall k, assoc k locks = last_value_for "vehicleDoor" k lock_items).
Proof.
  intros Hm Hd Hdi Hl Hli Hview.
  unfold door_projection in Hview.
  rewrite Hm in Hview. cbn [res_bind] in Hview.
  rewrite Hd in Hview. cbn [res_bind] in Hview.
  rewrite Hdi in Hview. cbn [res_bind] in Hview.
  destruct (collect_by "vehicleDoor" door_items []) as [doors | ?] eqn:Hdoors;
    cbn [res_bind] in Hview; [ | discriminate ].
  rewrite Hl in Hview. cbn [res_bind] in Hview.
  rewrite Hli in Hview. cbn [res_bind] in Hview.
  destruct (collect_by "vehicleDoor" lock_items []) as [locks | ?] eqn:Hlocks;
    cbn [res_bind] in Hview; [ | discriminate ].
  repeat res_step Hview.
  exists doors, locks.
  split; [reflexivity | ]. split; [reflexivity | ].
  split; intros k.
  - rewrite (collect_by_lookup _ _ _ _ Hdoors k).
    destruct (last_value_for "vehicleDoor" k door_items); reflexivity.
  - rewrite (collect_by_lookup _ _ _ _ Hlocks k).
    destruct (last_value_for "vehicleDoor" k lock_items); reflexivity.
Qed.

Lemma collect_active_lookup items : forall acc kv,
  collect_active items acc = Ok kv ->
  forall k,
    assoc k kv = match last_active_info k items with
                 | Some v => Some v
                 | None => assoc k acc
                 end.
Proof.
  induction items as [ | [key ind] rest IH]; intros acc kv H k.
  - simpl in H. inversion H; subst. reflexivity.
  - cbn [collect_active] in H.
    destruct (py_get1 ind "value") as [value | ?] eqn:Hval;
      cbn [res_bind] in H; [ | discriminate ].
    cbn [last_active_info]. rewrite Hval.
    destruct (py_eq_int value 1) eqn:Hact.
    + destruct (py_get ind "additionalInfo" (JStr EmptyString))
        as [info | ?] eqn:Hinfo; cbn [res_bind] in H; [ | discriminate ].
      unfold py_setitem in H.
      destruct (hashable key); cbn [res_bind] in H; [ | discriminate ].
      rewrite (IH _ _ H k).
      destruct (last_active_info k rest); [reflexivity | ].
      rewrite assoc_assoc_set. simpl andb.
      destruct (key_eqb k key); reflexivity.
    + rewrite (IH _ _ H k).
      destruct (last_active_info k rest); [reflexivity | ].
      simpl andb.
      destruct (py_get ind "additionalInfo" (JStr EmptyString)); reflexivity.
Qed.

(** An entry found by [last_active_info] belongs to an active indicator. *)
Lemma last_active_info_sound k items info :
  last_active_info k items = Some info ->
  exists key ind value,
    In (key, ind) items /\ key_eqb k key = true /\
    py_get1 ind "value" = Ok value /\ py_eq_int value 1 = true /\
    py_get ind "additionalInfo" (JStr EmptyString) = Ok info.
Proof.
  induction items as [ | [key ind] rest IH]; cbn [last_active_info];
    [ discriminate | ].
  destruct (last_active_info k rest) as [v | ] eqn:Hrest.
  - intros H. inversion H; subst.
    destruct (IH eq_refl) as (key' & ind' & value & Hin & Hrestk).
    exists key', ind', value. split; [now right | exact Hrestk].
  - destruct (py_get1 ind "value") as [value | ?] eqn:Hv; [ | discriminate ].
    destruct (py_get ind "additionalInfo" (JStr EmptyString))
      as [i | ?] eqn:Hi; [ | discriminate ].
    destruct (py_eq_int value 1) eqn:Ha; [ | discriminate ].
    destruct (key_eqb k key) eqn:Hk; [ | discriminate ].
    intros H. inversion H; subst.
    exists key, ind, value. repeat split; auto. now left.
Qed.

(** X14: the warning view reports active indicators only.  A lookup in it
    answers with the [additionalInfo] (or the empty string) of the last
    indicator filed under that key whose value equals [True]; so every
    entry of the view comes from an indicator of the status whose value is
    [True], and an indicator whose value is anything else adds nothing. *)
Theorem X14_warning_view_holds_active_indicators_only
    (status metrics indicators view : pyval)
    (items : list (pyval * pyval)) :
  metrics_of status = Ok metrics ->
  py_get metrics "indicators" (JObj []) = Ok indicators ->
  py_items indicators = Ok items ->
  warning_projection status = Ok view ->
  exists active,
    view = JObj active /\
    (forall k, assoc k active = last_active_info k items) /\
    (forall k info,
       assoc k active = Some info ->
       exists key ind value,
         In (key, ind) items /\ key_eqb k key = true /\
         py_get1 ind "value" = Ok value /\ py_eq_int value 1 = true /\
         py_get ind "additionalInfo" (JStr EmptyString) = Ok info).
Proof.
  intros Hm Hi Hitems Hview.
  unfold warning_projection in Hview.
  rewrite Hm in Hview. cbn [res_bind] in Hview.
  rewrite Hi in Hview. cbn [res_bind] in Hview.
  rewrite Hitems in Hview. cbn [res_bind] in Hview.
  destruct (collect_active items []) as [active | ?] eqn:Hact;
    cbn [res_bind] in Hview; [ | discriminate ].
  inversion Hview; subst view.
  assert (Hlook : forall k, assoc k active = last_active_info k items).
  { intros k. rewrite (collect_active_lookup _ _ _ Hact k).
    destruct (last_active_info k items); reflexivity. }
  exists active. split; [reflexivity | ]. split; [exact Hlook | ].
  intros k info Hk. rewrite Hlook in Hk.
  now apply last_active_info_sound.
Qed.

(** ** Commands *)

(** X15: [execute_command] never posts a command without a token.  When
    the token call raises, it raises the same exception and posts nothing;
    the command "status" posts nothing either; every other command is
    posted exactly once, with the token the call just obtained as bearer,
    and succeeds with the answer's JSON body for status 200 or 202 and
    raises "Command execution failed: Command failed: <status> - <body>"
    for any other status. *)
Theorem X15_commands_are_posted_once_with_the_token
    (C : CommandEnv) (command : string) (s : St)
    (posted : list (string * pyval)) :
  let '(result, (s', posted')) := execute_command C command (s, posted) in
  (forall e s1,
     get_auth_token (client_env C) s = (Raise e, s1) ->
     result = Raise e /\ posted' = posted /\ s' = s1) /\
  (command = "status" -> posted' = posted) /\
  (forall token s1,
     get_auth_token (client_env C) s = (Ok token, s1) ->
     command <> "status" ->
     posted' = (posted ++ [(command, token)])%list /\ s' = s1 /\
     forall resp,
       command_http C (length posted) command token = Responded resp ->
       (status_code resp = 200 \/ status_code resp = 202 ->
        forall v, json_body resp = Some v -> result = Ok v) /\
       (status_code resp <> 200 -> status_code resp <> 202 ->
        result
        = Raise (Exn "Exception"
                   ("Command execution failed: Command failed: "
                      ++ str_of_Z (status_code resp) ++ " - " ++ text resp)))).
Proof.
  unfold execute_command.
  destruct (get_auth_token (client_env C) s) as [[token | e] s1] eqn:Htok.
  - destruct (String.eqb_spec command "status") as [Heq | Hne].
    + destruct (get_vehicle_status (client_env C) s1) as [r s2].
      split; [ intros e s1' H; discriminate | ].
      split; [ reflexivity | ].
      intros token' s1' _ Hno. contradiction.
    + destruct (command_http C (length posted) command token)
        as [resp | msg] eqn:Hcmd.
      * destruct ((status_code resp =? 200) || (status_code resp =? 202))
          eqn:Hcode.
        -- destruct (response_json resp) as [v | e] eqn:Hjson;
             (split; [ intros e' s1' H; discriminate | ];
              split; [ intros; contradiction | ];
              intros token' s1' H _; inversion H; subst token' s1';
              split; [reflexivity | ]; split; [reflexivity | ];
              intros resp' Hr; rewrite Hcmd in Hr; inversion Hr; subst resp'; split).
           ++ intros _ v' Hv. unfold response_json in Hjson.
              rewrite Hv in Hjson. now inversion Hjson.
           ++ intros H200 H202. apply orb_true_iff in Hcode.
              destruct Hcode as [K | K]; apply Z.eqb_eq in K; contradiction.
           ++ intros _ v' Hv. unfold response_json in Hjson.
              rewrite Hv in Hjson. discriminate.
           ++ intros H200 H202. apply orb_true_iff in Hcode.
              destruct Hcode as [K | K]; apply Z.eqb_eq in K; contradiction.
        -- split; [ intros e' s1' H; discriminate | ].
           split; [ intros; contradiction | ].
           intros token' s1' H _; inversion H; subst token' s1'.
           split; [reflexivity | ]. split; [reflexivity | ].
           intros resp' Hr; rewrite Hcmd in Hr; inversion Hr; subst resp'. split.
           ++ apply orb_false_iff in Hcode. destruct Hcode as [K1 K2].
              apply Z.eqb_neq in K1, K2. intros [K | K]; contradiction.
           ++ intros _ _. reflexivity.
      * split; [ intros e' s1' H; discriminate | ].
        split; [ intros; contradiction | ].
        intros token' s1' H _; inversion H; subst token' s1'.
        split; [reflexivity | ]. split; [reflexivity | ].
        intros resp' Hr. rewrite Hcmd in Hr. discriminate.
  - split.
    + intros e' s1' H. inversion H; subst. auto.
    + split; [ reflexivity | ]. intros token s1' H. discriminate.
Qed.

(** ** Notifications on macOS *)

Lemma all_chars_app p a b :
  all_chars p (a ++ b) = all_chars p a && all_chars p b.
Proof.
  induction a as [ | x a IH]; simpl; [reflexivity | ].
  rewrite IH. now rewrite andb_assoc.
Qed.

(** The decimal form of an unsigned number is made of digits. *)
Lemma digits_of_uint p d :
  (forall c, is_digit c = true -> p c = true) ->
  all_chars p (NilEmpty.string_of_uint d) = true.
Proof.
  intros Hp. induction d; simpl; try reflexivity;
    rewrite IHd, andb_true_r; apply Hp; reflexivity.
Qed.

(** The decimal form of an integer: digits after an optional minus. *)
Lemma chars_of_str_of_Z p z :
  (forall c, is_digit c = true -> p c = true) ->
  p "-"%char = true ->
  all_chars p (str_of_Z z) = true.
Proof.
  intros Hp Hminus. unfold str_of_Z.
  assert (Hu : forall d, all_chars p (NilZero.string_of_uint d) = true).
  { intros d. unfold NilZero.string_of_uint.
    destruct d; try apply (digits_of_uint p _ Hp).
    simpl. rewrite andb_true_r. apply Hp. reflexivity. }
  destruct (Z.to_int z) as [d | d]; simpl.
  - apply Hu.
  - rewrite Hminus. apply Hu.
Qed.

Lemma digit_not_quote c : is_digit c = true -> not_quote c = true.
Proof.
  unfold is_digit, not_quote. intros H.
  apply andb_true_iff in H. destruct H as [H1 H2].
  apply Nat.leb_le in H1, H2.
  destruct (Ascii.eqb_spec c (ascii_of_nat 34)) as [-> | _];
    [ vm_compute in H1; lia | ].
  destruct (Ascii.eqb_spec c (ascii_of_nat 39)) as [-> | _];
    [ vm_compute in H1; lia | ].
  destruct (Ascii.eqb_spec c (ascii_of_nat 92)) as [-> | _];
    [ vm_compute in H2; lia | ].
  reflexivity.
Qed.

Lemma quote_free_str_of_Z z : quote_free (str_of_Z z) = true.
Proof.
  apply chars_of_str_of_Z; [ apply digit_not_quote | reflexivity ].
Qed.

Lemma quote_free_direction d : quote_free (direction d) = true.
Proof. unfold direction. destruct (d >? 0); reflexivity. Qed.

(** The messages of the monitor hold no quote and no backslash. *)
Lemma quote_free_notification_message r c lr lc :
  quote_free (notification_message r c lr lc) = true.
Proof.
  unfold notification_message, change_message, range_clause, charge_clause,
    quote_free.
  destruct (negb (r =? lr)); destruct (negb (c =? lc));
    repeat rewrite all_chars_app;
    repeat (rewrite (quote_free_str_of_Z _ : all_chars not_quote _ = true));
    repeat (rewrite (quote_free_direction _ : all_chars not_quote _ = true));
    reflexivity.
Qed.

(** Escaping leaves a text without double quotes as it is. *)
Lemma escape_dq_quote_free s : quote_free s = true -> escape_dq s = s.
Proof.
  unfold quote_free.
  induction s as [ | x s IH]; simpl; [reflexivity | ].
  intros H. apply andb_true_iff in H. destruct H as [Hx Hs].
  unfold not_quote in Hx. apply negb_true_iff in Hx.
  apply orb_false_iff in Hx. destruct Hx as [Hx _].
  apply orb_false_iff in Hx. destruct Hx as [Hx _].
  rewrite Hx. now rewrite IH.
Qed.

(** X16: on macOS the command line handed to [os.system] for a battery
    notification is the [osascript] call with the message and the title
    standing in it unchanged: a message the monitor builds holds no double
    quote, no single quote and no backslash, so nothing in it ends the
    AppleScript string or the shell's single quotes.  [show_notification]
    then answers [True] when [os.system] returns, whatever the exit
    status, and [False] when it raises. *)
Theorem X16_mac_command_carries_the_message_unchanged
    (D : Desktop) (n : nat) (r c lr lc : Z) :
  PLATFORM D = "Darwin" ->
  let message := notification_message r c lr lc in
  let command :=
    ("osascript -e 'display notification " ++ dq ++ message ++ dq
       ++ " with title " ++ dq ++ "Ford EV Battery Update" ++ dq ++ "'")%string in
  quote_free message = true /\
  osascript_command notification_title message = command /\
  desktop_backend D n notification_title message
  = match os_system D n command with
    | None => Ok (JBool true)
    | Some _ => Ok (JBool false)
    end.
Proof.
  intros Hmac message command.
  pose proof (quote_free_notification_message r c lr lc) as Hq.
  fold message in Hq.
  assert (Hcmd : osascript_command notification_title message = command).
  { unfold osascript_command, command.
    rewrite (escape_dq_quote_free message Hq).
    rewrite (escape_dq_quote_free notification_title eq_refl).
    unfold notification_title. rewrite !str_app_assoc. reflexivity. }
  split; [exact Hq | ]. split; [exact Hcmd | ].
  unfold desktop_backend. rewrite Hmac. simpl String.eqb. cbv iota.
  now rewrite Hcmd.
Qed.

(** ** Saves that are cut short, and restarts *)

(** The object loop on a text that stops early. *)
Lemma member_cut f d key X v tail acc :
  plain_string key = true ->
  skip_ws X = X ->
  scan_value f d X = Decoded (v, tail) ->
  tail = EmptyString \/ tail = ", " ->
  scan_members (S f) d (key ++ String dq_char (String ":" (String " " X))) acc
  = Malformed.
Proof.
  intros Hkey Hws Hv Htail. cbn [scan_members].
  rewrite (scan_string_plain key _ Hkey).
  change (skip_ws (String ":" (String " " X))) with (String ":" (String " " X)).
  change (Ascii.eqb ":" ":") with true. cbv iota.
  change (skip_ws (String " " X)) with (skip_ws X).
  rewrite Hws, Hv. destruct Htail as [-> | ->]; reflexivity.
Qed.

Lemma member_key_cut f d key acc :
  plain_string key = true ->
  scan_members (S f) d (key ++ String dq_char EmptyString) acc = Malformed.
Proof.
  intros Hkey. cbn [scan_members].
  now rewrite (scan_string_plain key _ Hkey).
Qed.

Lemma member_value_cut f d key acc :
  plain_string key = true ->
  scan_members (S (S f)) d
    (key ++ String dq_char (String ":" (String " " EmptyString))) acc
  = Malformed.
Proof.
  intros Hkey. cbn [scan_members].
  now rewrite (scan_string_plain key _ Hkey).
Qed.

Ltac first_member HRs HRv :=
  etransitivity;
    [ eapply (member_more _ _ "last_range");
      [ reflexivity | apply HRs | apply HRv; reflexivity ] | ].
Ltac second_member HCs HCv :=
  etransitivity;
    [ eapply (member_more _ _ "last_charge");
      [ reflexivity | apply HCs | apply HCv; reflexivity ] | ].

(** Every proper beginning of a record, chunk by chunk, is rejected by
    [json.loads]. *)
Lemma cut_record_is_malformed j r c stamp :
  (j < length (state_chunks r c stamp))%nat ->
  within_digits r = true -> within_digits c = true ->
  plain_string stamp = true ->
  json_loads (written_after j r c stamp) = Malformed.
Proof.
  intros Hk Hr Hc Hstamp.
  destruct (field_reads_as r Hr) as [HRs HRv].
  destruct (field_reads_as c Hc) as [HCs HCv].
  change (length (state_chunks r c stamp)) with 13%nat in Hk.
  assert (HRs0 : skip_ws (json_int_or_null r) = json_int_or_null r).
  { rewrite <- (str_app_empty_r (json_int_or_null r)). apply HRs. }
  assert (HRv0 : forall f d, scan_value (S f) d (json_int_or_null r)
                             = Decoded (opt_int r, EmptyString)).
  { intros f d. rewrite <- (str_app_empty_r (json_int_or_null r)).
    now apply HRv. }
  assert (HCs0 : skip_ws (json_int_or_null c) = json_int_or_null c).
  { rewrite <- (str_app_empty_r (json_int_or_null c)). apply HCs. }
  assert (HCv0 : forall f d, scan_value (S f) d (json_int_or_null c)
                             = Decoded (opt_int c, EmptyString)).
  { intros f d. rewrite <- (str_app_empty_r (json_int_or_null c)).
    now apply HCv. }
  assert (Hcases : In j (seq 0 13)) by (cbn [seq In]; lia).
  clear Hk. cbn [seq In] in Hcases.
  unfold written_after, state_chunks, json_quote.
  repeat (destruct Hcases as [<- | Hcases]); [ .. | destruct Hcases ];
    cbn [firstn String.concat];
    repeat rewrite str_app_assoc; unfold json_loads;
    match goal with
    | |- context [scan_value ?a ?b ?t] =>
        assert (Hscan : scan_value a b t = Malformed);
          [ | rewrite Hscan; reflexivity ]
    end.
  - reflexivity.
  - reflexivity.
  - reflexivity.
  - reflexivity.
  - etransitivity; [ apply object_open | ].
    eapply (member_cut _ _ "last_range");
      [ reflexivity | apply HRs0 | apply HRv0 | now left ].
  - etransitivity; [ apply object_open | ].
    eapply (member_cut _ _ "last_range");
      [ reflexivity | apply HRs | apply HRv; reflexivity | now right ].
  - etransitivity; [ apply object_open | ].
    first_member HRs HRv.
    now apply (member_key_cut _ _ "last_charge").
  - etransitivity; [ apply object_open | ].
    first_member HRs HRv.
    now apply (member_value_cut _ _ "last_charge").
  - etransitivity; [ apply object_open | ].
    first_member HRs HRv.
    eapply (member_cut _ _ "last_charge");
      [ reflexivity | apply HCs0 | apply HCv0 | now left ].
  - etransitivity; [ apply object_open | ].
    first_member HRs HRv.
    eapply (member_cut _ _ "last_charge");
      [ reflexivity | apply HCs | apply HCv; reflexivity | now right ].
  - etransitivity; [ apply object_open | ].
    first_member HRs HRv. second_member HCs HCv.
    now apply (member_key_cut _ _ "last_update").
  - etransitivity; [ apply object_open | ].
    first_member HRs HRv. second_member HCs HCv.
    now apply (member_value_cut _ _ "last_update").
  - etransitivity; [ apply object_open | ].
    first_member HRs HRv. second_member HCs HCv.
    eapply (member_cut _ _ "last_update");
      [ reflexivity | | | now left ].
    + reflexivity.
    + apply (string_value _ _ stamp EmptyString Hstamp).
Qed.

(** X17: save then load is the identity on the two stored fields.  When
    [save_state] runs with no disk fault, [load_state] on the file it
    leaves assigns [last_range] and [last_charge] the very values that were
    saved, [None] included, whatever the fields held before.  The time
    stamp is made of plain characters, as [strftime] gives, and the stored
    integers have at most 4000 digits. *)
Theorem X17_saved_state_is_read_back (E : Env) (s : St) (fields : pyval * pyval) :
  disk_fault E (saves s) = None ->
  plain_string (strftime E (saves s)) = true ->
  within_digits (last_range s) = true ->
  within_digits (last_charge s) = true ->
  fst (save_state E s) = Ok tt /\
  load_state (config_file (state_after (save_state E) s)) fields
  = Some (opt_int (last_range s), opt_int (last_charge s)).
Proof.
  intros Hfault Hstamp Hr Hc. split; [reflexivity | ].
  unfold state_after. rewrite save_state_spec, Hfault.
  cbn [snd config_file log_save].
  unfold load_state. rewrite json_loads_record by assumption.
  reflexivity.
Qed.

(** X18: a monitor restarted after a save that was cut short starts
    without a baseline.  When the process is killed after at least one and
    before the last file operation of a save whose record is shorter than
    the buffer, the file is empty; [json.load] rejects it, [load_state]
    swallows the error and leaves both fields as they were; after [__init__]
    both are [None], whatever the old file held.  The same holds of a file
    with any proper beginning of the record, chunk by chunk. *)
Theorem X18_killed_save_loses_the_baseline
    (flushed : nat -> nat) (k : nat) (old : option string) (r c : option Z)
    (stamp : string) (fields : pyval * pyval) :
  (1 <= k < length (save_ops r c stamp))%nat ->
  within_digits r = true -> within_digits c = true ->
  plain_string stamp = true ->
  ((String.length (state_record r c stamp) < CHUNK_SIZE)%nat ->
   file_when_killed flushed k old r c stamp = Some EmptyString /\
   load_state (file_when_killed flushed k old r c stamp) fields
   = Some fields /\
   startup_fields (file_when_killed flushed k old r c stamp)
   = Some (JNull, JNull)) /\
  (forall j,
     (j < length (state_chunks r c stamp))%nat ->
     load_state (Some (written_after j r c stamp)) fields = Some fields /\
     startup_fields (Some (written_after j r c stamp)) = Some (JNull, JNull)).
Proof.
  intros Hk Hr Hc Hstamp. split.
  - intros Hlen. unfold file_when_killed.
    rewrite (run_ops_stopped r c stamp k Hk).
    destruct (at_path_opened flushed old (written_after (k - 1) r c stamp))
      as (left & Hleft & _ & Hshort).
    pose proof (concat_firstn_prefix (state_chunks r c stamp) (k - 1))
      as Hchunks.
    fold (written_after (k - 1) r c stamp) in Hchunks.
    fold (state_record r c stamp) in Hchunks.
    apply prefix_length in Hchunks.
    rewrite Hleft, Hshort by lia. repeat split.
  - intros j Hj.
    pose proof (cut_record_is_malformed j r c stamp Hj Hr Hc Hstamp) as Hbad.
    unfold startup_fields, load_state. rewrite Hbad. now split.
Qed.

(** X19: [load_state] assigns both fields or neither.  Whenever it ends
    with the fields changed, the file held a JSON object and each field is
    that object's entry, or [None] where the object has no such key; a
    missing file, a text [json.load] rejects and a JSON value that is not an
    object leave both fields as they were. *)
Theorem X19_load_replaces_both_fields_or_none
    (file : option string) (fields loaded : pyval * pyval) :
  load_state file fields = Some loaded ->
  loaded = fields \/
  exists content kv,
    file = Some content /\ json_loads content = Decoded (JObj kv) /\
    loaded = (match assoc (JStr "last_range") kv with
              | Some v => v | None => JNull end,
              match assoc (JStr "last_charge") kv with
              | Some v => v | None => JNull end).
Proof.
  unfold load_state. destruct file as [content | ]; [ | intros [= <-]; now left ].
  destruct (json_loads content) as [data | | ] eqn:Hdata;
    [ | intros [= <-]; now left | discriminate ].
  destruct data as [ | b | z | q | str | items | kv ];
    try (cbn; intros [= <-]; now left).
  unfold py_get1, py_get. intros H. right. exists content, kv.
  split; [reflexivity | ]. split; [exact Hdata | ].
  destruct (assoc (JStr "last_range") kv);
    destruct (assoc (JStr "last_charge") kv); now inversion H.
Qed.

(** ** The summary *)

(** X20: the summary shows a reading that is falsy as "Not available".  The
    [ev_charge] line is [f"{charge}%"] only for a truthy
    [ev_battery_charge]; for [None], and for a charge of 0 percent, which
    the battery view hands over as the value 0, the line is
    "Not available". *)
Theorem X20_summary_shows_falsy_charge_as_not_available
    (E : Env) (status metrics charge vi bi di ci li ti summary : pyval) :
  metrics_of status = Ok metrics ->
  metric_value metrics "xevBatteryStateOfCharge" = Ok charge ->
  battery_projection status = Ok bi ->
  summary_of E vi bi di ci li ti = Ok summary ->
  py_get1 bi "ev_battery_charge" = Ok charge /\
  exists section,
    py_get1 summary "battery_status" = Ok section /\
    py_get1 section "ev_charge"
    = Ok (if truthy charge then JStr (py_str E charge ++ "%")
          else JStr "Not available") /\
    (charge = JInt 0 -> py_get1 section "ev_charge" = Ok (JStr "Not available")).
Proof.
  intros Hm Hcharge Hbi Hsum.
  unfold battery_projection in Hbi. rewrite Hm in Hbi. cbn [res_bind] in Hbi.
  res_step Hbi. rewrite Hcharge in Hbi. cbn [res_bind] in Hbi.
  repeat res_step Hbi.
  split; [ reflexivity | ].
  unfold summary_of in Hsum.
  do 5 res_step Hsum.
  destruct (item_with_unit E _ "ev_battery_charge" "%") as [ev | ?] eqn:Hev;
    cbn [res_bind] in Hsum; [ | discriminate ].
  repeat res_step Hsum.
  eexists. split; [ reflexivity | ].
  assert (Hline : ev = if truthy charge then JStr (py_str E charge ++ "%")
                       else JStr "Not available").
  { unfold item_with_unit in Hev.
    change (py_getitem _ "ev_battery_charge") with (Ok charge : res pyval) in Hev.
    cbn [res_bind] in Hev.
    destruct (truthy charge); cbn [res_bind] in Hev; now inversion Hev. }
  split.
  - now rewrite <- Hline.
  - intros ->. now rewrite Hline.
Qed.

(** The values of a dict built by the status loop. *)
Lemma tires_line_statuses (pressures system : pyval) (kvs : list (pyval * pyval)) :
  tires_line (JObj [ (JStr "pressures", pressures);
                     (JStr "statuses", JObj kvs);
                     (JStr "system_status", system) ])
  = Ok (JStr (if forallb (fun st => py_eq_str st "NORMAL")
                         (filter truthy (map snd kvs))
              then "All Normal" else "Check Tire Status")).
Proof. reflexivity. Qed.

(** X21: the summary's [tires] line is "All Normal" exactly when every
    status of the tire view that is truthy equals "NORMAL"; a status of
    [None] is passed over.  In particular a telemetry document without a
    [tirePressureStatus] metric, which gives no status at all, is summed up
    as "All Normal". *)
Theorem X21_tires_line_ignores_missing_statuses (status tire : pyval) :
  tire_projection status = Ok tire ->
  exists statuses,
    py_get1 tire "statuses" = Ok (JObj statuses) /\
    (tires_line tire = Ok (JStr "All Normal") <->
       forall v, In v (map snd statuses) -> truthy v = true ->
                 v = JStr "NORMAL") /\
    (tires_line tire = Ok (JStr "All Normal")
     \/ tires_line tire = Ok (JStr "Check Tire Status")) /\
    (forall kv,
       metrics_of status = Ok (JObj kv) ->
       assoc (JStr "tirePressureStatus") kv = None ->
       statuses = [] /\ tires_line tire = Ok (JStr "All Normal")).
Proof.
  intros Htire. unfold tire_projection in Htire.
  destruct (metrics_of status) as [metrics | ?] eqn:Hm;
    cbn [res_bind] in Htire; [ | discriminate ].
  do 3 res_step Htire.
  destruct (py_get metrics "tirePressureStatus" (JArr [])) as [seq | ?] eqn:Hseq;
    cbn [res_bind] in Htire; [ | discriminate ].
  destruct (py_iter seq) as [items | ?] eqn:Hitems;
    cbn [res_bind] in Htire; [ | discriminate ].
  destruct (collect_statuses items []) as [statuses | ?] eqn:Hst;
    cbn [res_bind] in Htire; [ | discriminate ].
  repeat res_step Htire.
  exists statuses. split; [ reflexivity | ].
  rewrite tires_line_statuses.
  split; [ | split ].
  - destruct (forallb _ _) eqn:Hall.
    + split; [ intros _ | reflexivity ].
      rewrite forallb_forall in Hall.
      intros v Hin Htruthy.
      specialize (Hall v). rewrite filter_In in Hall.
      specialize (Hall (conj Hin Htruthy)).
      destruct v; try discriminate. cbn [py_eq_str] in Hall.
      apply String.eqb_eq in Hall. now subst.
    + split; [ discriminate | ].
      intros Hevery. exfalso.
      assert (Htrue : forallb (fun st => py_eq_str st "NORMAL")
                        (filter truthy (map snd statuses)) = true).
      { apply forallb_forall. intros v Hv. apply filter_In in Hv.
        destruct Hv as [Hin Htruthy].
        now rewrite (Hevery v Hin Htruthy). }
      congruence.
  - destruct (forallb _ _); [ now left | now right ].
  - intros kv Hkv Habs. inversion Hkv; subst metrics.
    unfold py_get in Hseq. rewrite Habs in Hseq. inversion Hseq; subst seq.
    cbn [py_iter] in Hitems. inversion Hitems; subst items.
    cbn [collect_statuses] in Hst. inversion Hst; subst statuses.
    split; reflexivity.
Qed.

(** X22: when the first status fetch of [get_status_summary] fails, the
    summary is an error text of its own and the cause is not in it.  The
    vehicle view is then the string "Unable to retrieve vehicle
    information: ...", subscripting it with a key raises [TypeError], and
    the summary is "Unable to retrieve status summary: " followed by that
    [TypeError]'s message, whatever the fetch failed with and whatever the
    other five accessors returned. *)
Theorem X22_summary_hides_the_cause_of_a_failed_fetch
    (E : Env) (s s1 : St) (e : exn) :
  get_vehicle_status E s = (Raise e, s1) ->
  get_vehicle_info E s
  = (Ok (JStr ("Unable to retrieve vehicle information: " ++ exn_msg e)), s1) /\
  exists s6,
    get_status_summary E s
    = (Ok (JStr ("Unable to retrieve status summary: "
                   ++ "string indices must be integers, not 'str'")), s6).
Proof.
  intros Hfetch.
  assert (Hvi : get_vehicle_info E s
    = (Ok (JStr ("Unable to retrieve vehicle information: " ++ exn_msg e)), s1)).
  { unfold get_vehicle_info, accessor, try_except, bind. now rewrite Hfetch. }
  split; [ exact Hvi | ].
  destruct (summary_inputs E s)
    as (vi & bi & di & ci & li & ti & t1 & s6 & H1 & Hsum).
  rewrite Hvi in H1. inversion H1; subst vi t1.
  exists s6. rewrite Hsum. reflexivity.
Qed.

(** X23: the tire view's [system_status] comes from the first element of
    the [tirePressureSystemStatus] list.  Without that metric the default
    [[{}]] gives [None]; with the metric present as an empty list, [[0]]
    raises, the projection fails as a whole and [get_tire_status] returns
    its error text instead of the pressures and statuses it had read. *)
Theorem X23_empty_system_status_list_fails_the_tire_view
    (status : pyval) (kv : list (pyval * pyval)) :
  metrics_of status = Ok (JObj kv) ->
  (assoc (JStr "tirePressureSystemStatus") kv = None ->
   forall view, tire_projection status = Ok view ->
                py_get1 view "system_status" = Ok JNull) /\
  (assoc (JStr "tirePressureSystemStatus") kv = Some (JArr []) ->
   (exists e, tire_projection status = Raise e) /\
   forall E s s1,
     get_vehicle_status E s = (Ok status, s1) ->
     exists msg,
       get_tire_status E s
       = (Ok (JStr ("Unable to retrieve tire information: " ++ msg)), s1)).
Proof.
  intros Hm. split.
  - intros Habs view Hview. unfold tire_projection in Hview.
    rewrite Hm in Hview. cbn [res_bind] in Hview.
    do 6 res_step Hview.
    unfold py_get in Hview at 1. rewrite Habs in Hview.
    cbn [res_bind py_index0] in Hview.
    repeat res_step Hview.
    match goal with
    | H : py_get1 (JObj []) "value" = Ok ?v |- _ =>
        change (py_get1 (JObj []) "value") with (Ok JNull : res pyval) in H;
        inversion H; subst v
    end.
    reflexivity.
  - intros Hempty.
    assert (Hfail : exists e, tire_projection status = Raise e).
    { unfold tire_projection. rewrite Hm. cbn [res_bind].
      repeat match goal with
      | |- exists e, res_bind ?r _ = Raise e =>
          lazymatch r with
          | py_get _ "tirePressureSystemStatus" _ => fail
          | _ => destruct r; cbn [res_bind]; [ | eauto ]
          end
      end.
      unfold py_get. rewrite Hempty. cbn [res_bind py_index0]. eauto. }
    split; [ exact Hfail | ].
    intros E s s1 Hfetch. destruct Hfail as (e & He).
    exists (exn_msg e).
    unfold get_tire_status, accessor, try_except, bind, lift, ret.
    rewrite Hfetch, He. reflexivity.
Qed.

(** * The further properties on concrete worlds *)

(** X1 right after a refresh against a healthy peer. *)
Lemma X1_witness_after_refresh :
  let s' := snd (get_vehicle_status reading_245_82_env after_refresh) in
  sent s' = (sent after_refresh
               ++ [GetStatus (vin reading_245_82_env)
                             (autonomic_token after_refresh)])%list /\
  reads s' = S (reads after_refresh) /\
  autonomic_token s' = autonomic_token after_refresh /\
  ford_token s' = ford_token after_refresh /\
  token_expiration s' = token_expiration after_refresh.
Proof.
  apply (X1_warm_fetch_sends_one_get reading_245_82_env after_refresh);
    vm_compute; reflexivity.
Defined.

(** X2 where the login endpoint answers 403. *)
Lemma X2_witness_login_refused :
  exists e s1,
    get_auth_token login_refused_env init_state = (Raise e, s1) /\
    get_vehicle_status login_refused_env init_state = (Raise e, s1) /\
    get_battery_status login_refused_env init_state
    = (Ok (JStr ("Unable to retrieve battery information: " ++ exn_msg e)), s1) /\
    check_battery login_refused_env init_state = (Ok false, s1) /\
    exists new,
      sent s1 = (sent init_state ++ new)%list /\
      forallb is_auth_request new = true /\ (length new <= 2)%nat.
Proof.
  eexists _, _. split; [ vm_compute; reflexivity | ].
  apply (X2_no_fetch_without_token login_refused_env init_state).
  vm_compute. reflexivity.
Defined.

(** X3 where the login endpoint answers 403 with the text [forbidden]. *)
Lemma X3_witness_login_refused :
  get_battery_status login_refused_env init_state
  = (Ok (JStr "Unable to retrieve battery information: Ford token request failed: Ford authentication failed: 403 - forbidden"),
     log_request (PostFordAuth (username login_refused_env)
                               (password login_refused_env)) init_state) /\
  sent (log_request (PostFordAuth (username login_refused_env)
                                  (password login_refused_env)) init_state)
  = [PostFordAuth (username login_refused_env) (password login_refused_env)].
Proof.
  destruct (X3_refused_login_text_and_single_request
              login_refused_env init_state (Response 403 "forbidden" None)
              eq_refl eq_refl eq_refl) as (H403 & _ & Hsent & _).
  split; [ | exact Hsent ].
  apply H403. vm_compute. discriminate.
Defined.

(** X4 where the exchange answer holds an access token and nothing else. *)
Lemma X4_witness_no_expiry :
  (exists tok,
     fst (request_autonomic_token no_expiry_env (JStr "ford-jwt") init_state)
     = Ok tok) /\
  (token_expiration
     (snd (request_autonomic_token no_expiry_env (JStr "ford-jwt") init_state))
   == clock no_expiry_env (reads init_state) + 3540)%Q /\
  (clock no_expiry_env (reads init_state) + 3540 == 4540)%Q.
Proof.
  split; [ | split ].
  - eapply (X4_missing_expires_in_means_3540_seconds
              no_expiry_env (JStr "ford-jwt") init_state);
      vm_compute; reflexivity.
  - eapply (X4_missing_expires_in_means_3540_seconds
              no_expiry_env (JStr "ford-jwt") init_state);
      vm_compute; reflexivity.
  - vm_compute. reflexivity.
Defined.

(** X5 where the exchange answer has the string ["3600"] for [expires_in]. *)
Lemma X5_witness_string_expiry :
  let s' :=
    snd (request_autonomic_token bad_expiry_env (JStr "ford-jwt") init_state) in
  (exists e,
     fst (request_autonomic_token bad_expiry_env (JStr "ford-jwt") init_state)
     = Raise e) /\
  autonomic_token s' = JStr "bearer-1" /\
  token_expiration s' = token_expiration init_state.
Proof.
  destruct (X5_bad_expires_in_raises_but_caches_the_token
              bad_expiry_env (JStr "ford-jwt") init_state
              (Response 200 EmptyString
                 (Some (JObj [ (JStr "access_token", JStr "bearer-1");
                               (JStr "expires_in", JStr "3600") ])))
              [ (JStr "access_token", JStr "bearer-1");
                (JStr "expires_in", JStr "3600") ]
              (JStr "bearer-1") (JStr "3600")
              eq_refl eq_refl eq_refl eq_refl eq_refl eq_refl)
    as (Hraise & Htok & Hexp & _).
  repeat split; assumption.
Defined.

(** X6 right after a refresh against a healthy peer. *)
Lemma X6_witness_after_refresh :
  sent (snd (get_status_summary reading_245_82_env after_refresh))
  = (sent after_refresh
       ++ repeat (GetStatus (vin reading_245_82_env)
                            (autonomic_token after_refresh)) 6)%list.
Proof.
  apply (X6_summary_sends_six_gets reading_245_82_env after_refresh).
  - apply ten_second_clock_monotone.
  - vm_compute. reflexivity.
  - vm_compute. reflexivity.
Defined.

(** X7 on a draining battery: 236 miles / 78 percent, then 230 / 77. *)
Lemma X7_witness_draining :
  let s2 := snd (check_battery draining_env init_state) in
  exists fired s4,
    check_battery draining_env s2 = (Ok fired, s4) /\
    (fired = true <-> (230 <> 236 \/ 77 <> 78)) /\
    shown s4
    = (shown s2 ++
         if fired then [(notification_title, notification_message 230 77 236 78)]
         else [])%list /\
    last_range s4 = Some 230 /\ last_charge s4 = Some 77.
Proof.
  eapply (X7_next_cycle_compares_with_previous_reading draining_env init_state);
    vm_compute; reflexivity.
Defined.

(** X8 where the telemetry has a range and no charge. *)
Lemma X8_witness_no_charge :
  check_battery no_charge_env init_state
  = (Ok false, snd (get_vehicle_status no_charge_env init_state)) /\
  monitor_view (snd (get_vehicle_status no_charge_env init_state))
  = monitor_view init_state.
Proof.
  eapply (X8_missing_charge_skips_the_cycle no_charge_env init_state);
    vm_compute; reflexivity.
Defined.

(** X9 on a document with 400 km and 80 percent. *)
Lemma X9_witness_400_km_80_percent :
  exists view,
    battery_projection (status_doc (JInt 400) (JInt 80)) = Ok view /\
    (exists z, py_get1 view "ev_battery_range_miles" = Ok (JInt z)) /\
    (reading_of view = None <->
       exists raw,
         py_get1 view "ev_battery_actual_charge" = Ok raw /\
         (raw = JNull \/ exists e, py_round raw = Raise e)).
Proof.
  eexists. split; [ vm_compute; reflexivity | ].
  apply (X9_reading_depends_on_charge_alone (status_doc (JInt 400) (JInt 80))).
  vm_compute. reflexivity.
Defined.

(** X10 on three passes a minute apart. *)
Lemma X10_witness_three_minutes :
  fst (run reading_245_82_env 60 3 seen_250_80) = Ok tt /\
  slept (snd (run reading_245_82_env 60 3 seen_250_80))
  = (slept seen_250_80 ++ repeat 60 3)%list.
Proof.
  apply (X10_n_passes_sleep_n_intervals reading_245_82_env 60 3). lia.
Defined.

(** X11 on an odometer of 1000 km: 621 miles in both views. *)
Lemma X11_witness_1000_km :
  exists view,
    vehicle_info_projection odometer_doc = Ok view /\
    py_get1 view "odometer_miles" = Ok (JInt 621) /\
    ((exists m,
        py_get1 view "odometer_miles" = Ok (JInt m) /\
        mileage_projection odometer_doc
        = Ok (JStr ("Vehicle has " ++ str_of_Z m ++ " miles on it."))) \/
     (py_get1 view "odometer_miles" = Ok JNull /\
      py_get1 view "odometer_km" = Ok JNull /\
      mileage_projection odometer_doc
      = Ok (JStr "Odometer information not available"))).
Proof.
  eexists. split; [ vm_compute; reflexivity | ].
  split; [ reflexivity | ].
  apply (X11_mileage_agrees_with_vehicle_info odometer_doc).
  vm_compute. reflexivity.
Defined.

(** X12 on the two front windows. *)
Lemma X12_witness_front_windows :
  exists view kv,
    window_projection reading_245_82_env windows_doc = Ok view /\
    view = JObj kv /\ Forall window_entry kv /\
    map fst kv = [ JStr "UNSPECIFIED_FRONT_DRIVER";
                   JStr "UNSPECIFIED_FRONT_PASSENGER" ].
Proof.
  destruct (X12_window_view_entries_are_complete reading_245_82_env windows_doc)
    as (Hentries & _).
  destruct (Hentries
              (JObj [ (JStr "UNSPECIFIED_FRONT_DRIVER",
                       JObj [ (JStr "lower_bound", JInt 0);
                              (JStr "upper_bound", JInt 0) ]);
                      (JStr "UNSPECIFIED_FRONT_PASSENGER",
                       JObj [ (JStr "lower_bound", JInt 0);
                              (JStr "upper_bound", JInt 40) ]) ])
              eq_refl) as (kv & Hview & Hall).
  eexists _, kv. split; [ reflexivity | ].
  split; [ exact Hview | ]. split; [ exact Hall | ].
  inversion Hview. reflexivity.
Defined.

(** X13 on a document that names the driver door twice. *)
Lemma X13_witness_driver_door_twice :
  exists view door_items lock_items doors locks,
    door_projection doors_doc = Ok view /\
    py_get1 view "doors" = Ok (JObj doors) /\
    py_get1 view "locks" = Ok (JObj locks) /\
    (forall k, assoc k doors = last_value_for "vehicleDoor" k door_items) /\
    (forall k, assoc k locks = last_value_for "vehicleDoor" k lock_items) /\
    last_value_for "vehicleDoor" (JStr "DRIVER") door_items
    = Some (JStr "CLOSED").
Proof.
  destruct (X13_door_view_holds_last_value_per_door doors_doc
              (JObj [ (JStr "doorStatus",
                       JArr [ door_item "DRIVER" "AJAR";
                              door_item "PASSENGER" "CLOSED";
                              door_item "DRIVER" "CLOSED" ]);
                      (JStr "doorLockStatus",
                       JArr [ door_item "ALL_DOORS" "LOCKED" ]) ])
              (JArr [ door_item "DRIVER" "AJAR";
                      door_item "PASSENGER" "CLOSED";
                      door_item "DRIVER" "CLOSED" ])
              (JArr [ door_item "ALL_DOORS" "LOCKED" ])
              (JObj [ (JStr "doors",
                       JObj [ (JStr "DRIVER", JStr "CLOSED");
                              (JStr "PASSENGER", JStr "CLOSED") ]);
                      (JStr "locks",
                       JObj [ (JStr "ALL_DOORS", JStr "LOCKED") ]);
                      (JStr "hood", JNull);
                      (JStr "alarm", JNull) ])
              [ door_item "DRIVER" "AJAR";
                door_item "PASSENGER" "CLOSED";
                door_item "DRIVER" "CLOSED" ]
              [ door_item "ALL_DOORS" "LOCKED" ]
              eq_refl eq_refl eq_refl eq_refl eq_refl eq_refl)
    as (doors & locks & Hd & Hl & Hdoors & Hlocks).
  eexists _, _, _, doors, locks.
  split; [ reflexivity | ].
  split; [ exact Hd | ]. split; [ exact Hl | ].
  split; [ exact Hdoors | ]. split; [ exact Hlocks | ].
  reflexivity.
Defined.

(** X14 on a document with one active and one inactive indicator. *)
Lemma X14_witness_one_active_indicator :
  exists view items active,
    warning_projection indicators_doc = Ok view /\
    view = JObj active /\
    (forall k, assoc k active = last_active_info k items) /\
    (forall k info,
       assoc k active = Some info ->
       exists key ind value,
         In (key, ind) items /\ key_eqb k key = true /\
         py_get1 ind "value" = Ok value /\ py_eq_int value 1 = true /\
         py_get ind "additionalInfo" (JStr EmptyString) = Ok info) /\
    view = JObj [ (JStr "tirePressure", JStr "low") ].
Proof.
  destruct (X14_warning_view_holds_active_indicators_only indicators_doc
              (JObj [ (JStr "indicators",
                       JObj [ (JStr "tirePressure",
                               JObj [ (JStr "value", JInt 1);
                                      (JStr "additionalInfo", JStr "low") ]);
                              (JStr "checkEngine",
                               JObj [ (JStr "value", JInt 0) ]) ]) ])
              (JObj [ (JStr "tirePressure",
                       JObj [ (JStr "value", JInt 1);
                              (JStr "additionalInfo", JStr "low") ]);
                      (JStr "checkEngine",
                       JObj [ (JStr "value", JInt 0) ]) ])
              (JObj [ (JStr "tirePressure", JStr "low") ])
              [ (JStr "tirePressure",
                 JObj [ (JStr "value", JInt 1);
                        (JStr "additionalInfo", JStr "low") ]);
                (JStr "checkEngine", JObj [ (JStr "value", JInt 0) ]) ]
              eq_refl eq_refl eq_refl eq_refl)
    as (active & Hview & Hall & Hsound).
  eexists _, _, active.
  split; [ reflexivity | ].
  split; [ exact Hview | ]. split; [ exact Hall | ].
  split; [ exact Hsound | ]. reflexivity.
Defined.

(** X15 for [lock] right after a refresh, at an endpoint that accepts. *)
Lemma X15_witness_lock_after_refresh :
  fst (execute_command (accepting_commands reading_245_82_env) "lock"
         (after_refresh, []))
  = Ok (JObj []) /\
  snd (snd (execute_command (accepting_commands reading_245_82_env) "lock"
              (after_refresh, [])))
  = [ ("lock", JStr "bearer-1") ].
Proof.
  pose proof (X15_commands_are_posted_once_with_the_token
                (accepting_commands reading_245_82_env) "lock"
                after_refresh []) as H.
  destruct (execute_command (accepting_commands reading_245_82_env) "lock"
              (after_refresh, [])) as [result [s' posted']].
  destruct H as (_ & _ & H).
  edestruct H as (Hposted & _ & Hresp);
    [ vm_compute; reflexivity | discriminate | ].
  cbn [fst snd]. split; [ | exact Hposted ].
  destruct (Hresp (Response 202 EmptyString (Some (JObj []))) eq_refl)
    as (Hok & _).
  apply Hok; [ right; reflexivity | reflexivity ].
Defined.

(** X16 for the change from 250 / 80 to 245 / 82. *)
Lemma X16_witness_mac_desktop :
  let message := notification_message 245 82 250 80 in
  let command :=
    ("osascript -e 'display notification " ++ dq ++ message ++ dq
       ++ " with title " ++ dq ++ "Ford EV Battery Update" ++ dq ++ "'")%string in
  quote_free message = true /\
  osascript_command notification_title message = command /\
  desktop_backend mac_desktop 0 notification_title message
  = match os_system mac_desktop 0 command with
    | None => Ok (JBool true)
    | Some _ => Ok (JBool false)
    end.
Proof.
  apply (X16_mac_command_carries_the_message_unchanged mac_desktop 0 245 82 250 80).
  reflexivity.
Defined.

(** X17 on a monitor that has seen 250 / 80. *)
Lemma X17_witness_seen_250_80 :
  fst (save_state reading_245_82_env seen_250_80) = Ok tt /\
  load_state
    (config_file (state_after (save_state reading_245_82_env) seen_250_80))
    (JNull, JNull)
  = Some (opt_int (last_range seen_250_80), opt_int (last_charge seen_250_80)).
Proof.
  apply (X17_saved_state_is_read_back reading_245_82_env seen_250_80
           (JNull, JNull));
    vm_compute; reflexivity.
Defined.

(** X18 on a save of 245 / 82 over the record of 250 / 80, killed after the
    fifth file operation. *)
Lemma X18_witness_killed_after_five :
  file_when_killed (fun n => n) 5 (Some old_record) (Some 245) (Some 82)
                   stamp_after
  = Some EmptyString /\
  load_state (file_when_killed (fun n => n) 5 (Some old_record) (Some 245)
                               (Some 82) stamp_after)
             (JInt 250, JInt 80)
  = Some (JInt 250, JInt 80) /\
  startup_fields (file_when_killed (fun n => n) 5 (Some old_record)
                                   (Some 245) (Some 82) stamp_after)
  = Some (JNull, JNull).
Proof.
  apply (X18_killed_save_loses_the_baseline (fun n => n) 5 (Some old_record)
           (Some 245) (Some 82) stamp_after (JInt 250, JInt 80)).
  - vm_compute. split; lia.
  - vm_compute. reflexivity.
  - vm_compute. reflexivity.
  - vm_compute. reflexivity.
  - apply Nat.ltb_lt. vm_compute. reflexivity.
Defined.

(** X19 on the record of 250 / 80. *)
Lemma X19_witness_old_record :
  (JInt 250, JInt 80) = (JNull, JNull) \/
  exists content kv,
    Some old_record = Some content /\
    json_loads content = Decoded (JObj kv) /\
    (JInt 250, JInt 80)
    = (match assoc (JStr "last_range") kv with
       | Some v => v | None => JNull end,
       match assoc (JStr "last_charge") kv with
       | Some v => v | None => JNull end).
Proof.
  apply (X19_load_replaces_both_fields_or_none (Some old_record)
           (JNull, JNull) (JInt 250, JInt 80)).
  vm_compute. reflexivity.
Defined.

(** X20 on a battery at 0 percent. *)
Lemma X20_witness_empty_battery :
  let bi := view_of (battery_projection empty_battery_doc) in
  py_get1 bi "ev_battery_charge" = Ok (JInt 0) /\
  exists summary section,
    summary_of reading_245_82_env
      (view_of (vehicle_info_projection empty_battery_doc)) bi
      (view_of (door_projection empty_battery_doc))
      (view_of (climate_projection empty_battery_doc))
      (view_of (location_projection empty_battery_doc))
      (view_of (tire_projection empty_battery_doc))
    = Ok summary /\
    py_get1 summary "battery_status" = Ok section /\
    py_get1 section "ev_charge" = Ok (JStr "Not available").
Proof.
  intros bi.
  destruct (summary_of reading_245_82_env
              (view_of (vehicle_info_projection empty_battery_doc)) bi
              (view_of (door_projection empty_battery_doc))
              (view_of (climate_projection empty_battery_doc))
              (view_of (location_projection empty_battery_doc))
              (view_of (tire_projection empty_battery_doc)))
    as [summary | e] eqn:Hsum; [ | vm_compute in Hsum; discriminate ].
  destruct (X20_summary_shows_falsy_charge_as_not_available
              reading_245_82_env empty_battery_doc
              (JObj [ (JStr "xevBatteryStateOfCharge", metric (JInt 0));
                      (JStr "xevBatteryRange", metric (JInt 0)) ])
              (JInt 0)
              (view_of (vehicle_info_projection empty_battery_doc)) bi
              (view_of (door_projection empty_battery_doc))
              (view_of (climate_projection empty_battery_doc))
              (view_of (location_projection empty_battery_doc))
              (view_of (tire_projection empty_battery_doc))
              summary eq_refl eq_refl eq_refl Hsum)
    as (Hbi & section & Hsection & _ & Hzero).
  split; [ exact Hbi | ].
  exists summary, section.
  split; [ reflexivity | ]. split; [ exact Hsection | ].
  apply Hzero. reflexivity.
Defined.

(** X21 on a document without any tire metric. *)
Lemma X21_witness_no_tire_metrics :
  py_get1 (view_of (tire_projection (status_doc (JInt 400) (JInt 80))))
          "statuses"
  = Ok (JObj []) /\
  tires_line (view_of (tire_projection (status_doc (JInt 400) (JInt 80))))
  = Ok (JStr "All Normal").
Proof.
  destruct (X21_tires_line_ignores_missing_statuses
              (status_doc (JInt 400) (JInt 80))
              (view_of (tire_projection (status_doc (JInt 400) (JInt 80))))
              eq_refl)
    as (statuses & Hstatuses & _ & _ & Hnone).
  destruct (Hnone [ (JStr "xevBatteryRange", metric (JInt 400));
                    (JStr "xevBatteryActualStateOfCharge", metric (JInt 80)) ]
                  eq_refl eq_refl) as [Hempty Hline].
  subst statuses. split; [ exact Hstatuses | exact Hline ].
Defined.

(** X22 where the telemetry endpoint answers 401. *)
Lemma X22_witness_unauthorized :
  exists s6,
    get_status_summary unauthorized_env init_state
    = (Ok (JStr "Unable to retrieve status summary: string indices must be integers, not 'str'"),
       s6).
Proof.
  edestruct (X22_summary_hides_the_cause_of_a_failed_fetch
               unauthorized_env init_state) as (_ & s6 & Hsummary);
    [ vm_compute; reflexivity | ].
  exists s6. exact Hsummary.
Defined.

(** X23 on a document with a tire pressure and an empty system status list. *)
Lemma X23_witness_empty_system_status :
  (exists e, tire_projection empty_system_status_doc = Raise e) /\
  exists msg s1,
    get_tire_status empty_system_status_env init_state
    = (Ok (JStr ("Unable to retrieve tire information: " ++ msg)), s1).
Proof.
  destruct (X23_empty_system_status_list_fails_the_tire_view
              empty_system_status_doc
              [ (JStr "tirePressure",
                 JArr [ JObj [ (JStr "vehicleWheel", JStr "FRONT_LEFT");
                               (JStr "value", JInt 240) ] ]);
                (JStr "tirePressureSystemStatus", JArr []) ]
              eq_refl) as (_ & Hempty).
  destruct (Hempty eq_refl) as (Hfail & Haccessor).
  split; [ exact Hfail | ].
  edestruct (Haccessor empty_system_status_env init_state) as (msg & Hmsg);
    [ vm_compute; reflexivity | ].
  eexists _, _. exact Hmsg.
Defined.
